(** * Checkout pricing and discount allocation (psiloupback)

    A shallow embedding of [back/src/controllers/CheckoutController.js]:
    the item resolver [resolveItems], the shipping [quote] handler and the
    order creation handler [createOrder] with its pricing and its greedy
    discount allocation, and of the CORS policy of [back/src/app.js];
    followed by the properties of the checkout specification, proved or
    refuted on that embedding, and by further properties of the same code.

    Numbers.  A JavaScript number is a binary64 number.  [num] holds the
    rationals with [NaN] and the two infinities, and every operation of the
    runtime ([js_add], [js_sub], [js_mul], [js_div]) rounds its result to
    the nearest binary64 number, so that a computation that starts from
    doubles stays on doubles; the sign of zero is not modelled.  The amounts
    the relational store computes (the stock it decrements) are not
    rounded.  Module [Binary64] runs the allocation loop on hardware
    doubles, and the two are compared on samples.

    Effects.  The handlers are [async] functions over a relational store
    and three services; they are written in a small state-and-exception
    monad [M] over a [world] made of the committed store, the working copy
    of the open transaction and the log of the calls made.  What the
    repository does not define (the validation helper, the coupon, payment
    and shipping services, the way the store matches keys, the writes the
    store rejects, the numeric reading of strings by the runtime) is the
    parameter [Env] of every definition and theorem. *)

From Stdlib Require Import ZArith QArith Qround Qcanon Qabs Qpower Lia Lqa String List Bool Floats.
From stdpp Require Import base numbers list strings.

Local Open Scope Z_scope.

(** ** JavaScript numbers *)

Inductive num : Type :=
| NaN
| Inf (neg : bool)
| Fin (q : Qc).

#[global] Instance num_eq_dec : EqDecision num.
Proof. solve_decision. Defined.

Declare Scope num_scope.
Delimit Scope num_scope with num.
Bind Scope num_scope with num.

Definition of_Z (z : Z) : num := Fin (Q2Qc (inject_Z z)).
Definition of_Q (q : Q) : num := Fin (Q2Qc q).

Definition Qc_neg (q : Qc) : bool := bool_decide (q < 0)%Qc.
Definition Qc_zero (q : Qc) : bool := bool_decide (q = 0%Qc).

Definition num_opp (a : num) : num :=
  match a with
  | NaN => NaN
  | Inf s => Inf (negb s)
  | Fin q => Fin (- q)%Qc
  end.

Definition num_add (a b : num) : num :=
  match a, b with
  | NaN, _ | _, NaN => NaN
  | Inf s, Inf t => if Bool.eqb s t then Inf s else NaN
  | Inf s, Fin _ => Inf s
  | Fin _, Inf t => Inf t
  | Fin p, Fin q => Fin (p + q)%Qc
  end.

Definition num_sub (a b : num) : num := num_add a (num_opp b).

Definition num_mul (a b : num) : num :=
  match a, b with
  | NaN, _ | _, NaN => NaN
  | Inf s, Inf t => Inf (xorb s t)
  | Inf s, Fin q | Fin q, Inf s =>
      if Qc_zero q then NaN else Inf (xorb s (Qc_neg q))
  | Fin p, Fin q => Fin (p * q)%Qc
  end.

(** Division by zero follows IEEE 754 for a positive zero divisor. *)
Definition num_div (a b : num) : num :=
  match a, b with
  | NaN, _ | _, NaN => NaN
  | Inf _, Inf _ => NaN
  | Inf s, Fin q => Inf (xorb s (Qc_neg q))
  | Fin _, Inf _ => Fin 0%Qc
  | Fin p, Fin q =>
      if Qc_zero q
      then (if Qc_zero p then NaN else Inf (Qc_neg p))
      else Fin (p / q)%Qc
  end.

(** [a < b] and [a <= b] of JavaScript: false as soon as one side is NaN. *)
Definition num_lt (a b : num) : bool :=
  match a, b with
  | NaN, _ | _, NaN => false
  | Inf s, Inf t => s && negb t
  | Inf s, Fin _ => s
  | Fin _, Inf t => negb t
  | Fin p, Fin q => bool_decide (p < q)%Qc
  end.

Definition num_le (a b : num) : bool :=
  match a, b with
  | NaN, _ | _, NaN => false
  | Inf s, Inf t => s || negb t
  | Inf s, Fin _ => s
  | Fin _, Inf t => negb t
  | Fin p, Fin q => bool_decide (p <= q)%Qc
  end.

Definition num_gt (a b : num) : bool := num_lt b a.

Infix "+" := num_add : num_scope.
Infix "-" := num_sub : num_scope.
Infix "*" := num_mul : num_scope.
Infix "/" := num_div : num_scope.
Infix "<?" := num_lt : num_scope.
Infix "<=?" := num_le : num_scope.
Infix ">?" := num_gt : num_scope.

(** [Math.round]: the nearest integer, ties towards plus infinity. *)
Definition Math_round (a : num) : num :=
  match a with
  | Fin q => of_Z (Qfloor (q + Q2Qc (1 # 2))%Qc)
  | _ => a
  end.

Definition Math_max (a b : num) : num :=
  match a, b with
  | NaN, _ | _, NaN => NaN
  | _, _ => if num_lt a b then b else a
  end.

Definition Math_min (a b : num) : num :=
  match a, b with
  | NaN, _ | _, NaN => NaN
  | _, _ => if num_lt b a then b else a
  end.

(** [Number.isNaN(x)], [Number.isFinite(x)] and [Number.isInteger(x)]. *)
Definition isNaN (a : num) : bool :=
  match a with NaN => true | _ => false end.

Definition isFinite (a : num) : bool :=
  match a with Fin _ => true | _ => false end.

Definition isInteger (a : num) : bool :=
  match a with
  | Fin q => bool_decide (a = of_Z (Qfloor q))
  | _ => false
  end.

(** ** Rounding to binary64

    A JavaScript number is an IEEE 754 binary64 number, and an arithmetic
    operation gives the binary64 number nearest to the exact result, a tie
    going to the even significand.  [round64] is that rounding on the
    rationals: the last place of the result is that of a significand of 53
    bits, and never below [2^-1074] (the numbers below [2^-1022] are
    subnormal); [binary64] overflows to an infinity from [2^1024] on. *)

(** The integer [k] with [2^k <= x < 2^(k+1)], for [0 < x]. *)
Definition Qlog2 (x : Q) : Z :=
  let k := Z.log2 (Qnum x) - Z.log2 (Zpos (Qden x)) in
  if Qle_bool (2 ^ k)%Q x then k else k - 1.

(** The nearest integer, a tie going to the even one. *)
Definition round_half_even (x : Q) : Z :=
  let f := Qfloor x in
  match Qcompare (x - inject_Z f)%Q (1 # 2)%Q with
  | Lt => f
  | Gt => f + 1
  | Eq => if Z.even f then f else f + 1
  end.

(** The exponent of the last place of the binary64 numbers around [x]. *)
Definition binary64_exponent (x : Q) : Z := Z.max (-1074) (Qlog2 (Qabs x) - 52).

Definition round64 (x : Q) : Q :=
  let e := binary64_exponent x in
  (inject_Z (round_half_even (x * 2 ^ (- e))%Q) * 2 ^ e)%Q.

Definition binary64 (q : Qc) : num :=
  let r := round64 q in
  if Qle_bool (2 ^ 1024)%Q (Qabs r) then Inf (Qc_neg q) else Fin (Q2Qc r).

Definition to_binary64 (a : num) : num :=
  match a with
  | Fin q => binary64 q
  | _ => a
  end.

(** The unit roundoff of binary64, [2^-53]. *)
Definition roundoff : Q := 1 # 9007199254740992.

(** The arithmetic of the runtime, [a + b], [a - b], [a * b] and [a / b] of
    JavaScript: the exact result, rounded to binary64.  ([num_add] and the
    like, which do not round, are the arithmetic of the relational store
    and of the sums the specification speaks of.) *)
Definition js_add (a b : num) : num := to_binary64 (num_add a b).
Definition js_sub (a b : num) : num := to_binary64 (num_sub a b).
Definition js_mul (a b : num) : num := to_binary64 (num_mul a b).
Definition js_div (a b : num) : num := to_binary64 (num_div a b).

Declare Scope js_scope.
Delimit Scope js_scope with js.

Arguments js_add (a b)%_js_scope.
Arguments js_sub (a b)%_js_scope.
Arguments js_mul (a b)%_js_scope.
Arguments js_div (a b)%_js_scope.

Infix "+" := js_add : js_scope.
Infix "-" := js_sub : js_scope.
Infix "*" := js_mul : js_scope.
Infix "/" := js_div : js_scope.

(** ** JavaScript values carried by a JSON request

    Scalars only: the fields read by the controller are compared, coerced
    with [Number] or tested for truthiness.  [StringToNumber], the
    numeric reading of a string by the runtime, is a parameter of the
    development (see [Env] below). *)

Inductive jsval : Type :=
| JUndefined
| JNull
| JBool (b : bool)
| JNum (n : num)
| JStr (s : string).

#[global] Instance jsval_eq_dec : EqDecision jsval.
Proof. solve_decision. Defined.

Definition num_truthy (n : num) : bool :=
  match n with
  | NaN => false
  | Inf _ => true
  | Fin q => negb (Qc_zero q)
  end.

Definition truthy (v : jsval) : bool :=
  match v with
  | JUndefined | JNull => false
  | JBool b => b
  | JNum n => num_truthy n
  | JStr s => negb (bool_decide (s = EmptyString))
  end.

(** [a || b] and [a ?? b]. *)
Definition js_or (a b : jsval) : jsval := if truthy a then a else b.

Definition js_nullish (a b : jsval) : jsval :=
  match a with
  | JUndefined | JNull => b
  | _ => a
  end.

Infix "|||" := js_or (at level 50, left associativity).
Infix "???" := js_nullish (at level 50, left associativity).

(** ** Rows of the relational store *)

Record product : Type := {
  p_id : Z;
  p_sku : string;
  p_name : string;
  p_active : bool;
  p_stockManaged : bool;
  p_stockQuantity : num;
  p_priceCents : num;
  p_weightGrams : num }.

Record address : Type := { a_id : Z; a_userId : Z }.

Record order : Type := {
  o_id : Z;
  o_userId : Z;
  o_addressId : Z;
  subtotalCents : num;
  shippingCents : num;
  discountCents : num;
  totalCents : num;
  shippingCarrier : jsval;
  shippingService : jsval;
  shippingEstimateDays : jsval;
  mercadoPagoPreferenceId : jsval }.

Record order_item : Type := {
  oi_orderId : Z;
  oi_productId : Z;
  oi_title : string;
  oi_sku : string;
  oi_quantity : num;
  oi_unitPriceCents : num;
  oi_weightGrams : num }.

Record db : Type := {
  products : list product;
  addresses : list address;
  orders : list order;
  orderItems : list order_item }.

#[global] Instance product_eq_dec : EqDecision product.
Proof. solve_decision. Defined.
#[global] Instance address_eq_dec : EqDecision address.
Proof. solve_decision. Defined.
#[global] Instance order_eq_dec : EqDecision order.
Proof. solve_decision. Defined.
#[global] Instance order_item_eq_dec : EqDecision order_item.
Proof. solve_decision. Defined.
#[global] Instance db_eq_dec : EqDecision db.
Proof. solve_decision. Defined.

(** ** Requests *)

(** A cart line: a JSON object, each field possibly absent ([JUndefined]).
    An element of the [items] array that is a number, a string or a boolean
    reads as a line without fields: each of its properties is
    [undefined]. *)
Record cart_line : Type := {
  l_qty : jsval;
  l_quantity : jsval;
  l_productId : jsval;
  l_id : jsval;
  l_sku : jsval;
  l_price_cents : jsval }.

(** The [items] field: an array, or any other value.  An element of the
    array is a cart line or [null], on which the property reads of the
    resolver throw a [TypeError].  [ItemsArray l] is an array of lines;
    [ItemsWithNull before after] is an array with a [null] in it: the
    lines [before], the first [null], and the elements [after], [None]
    being a [null]. *)
Inductive raw_items : Type :=
| NotArray (v : jsval)
| ItemsArray (l : list cart_line)
| ItemsWithNull (before : list cart_line) (after : list (option cart_line)).

Record shipping_selection : Type := {
  s_price_cents : jsval;
  s_cost_cents : jsval;
  s_carrier : jsval;
  s_name : jsval;
  s_service : jsval;
  s_delivery_time_days : jsval }.

(** The [shipping] field: an object, or a scalar (whose properties all read
    as [undefined], as do those of the [{}] that replaces a falsy one). *)
Inductive shipping_field : Type :=
| ShippingScalar (v : jsval)
| ShippingObject (s : shipping_selection).

Record destination : Type := { d_cep : jsval; d_postal_code : jsval }.

Inductive destination_field : Type :=
| DestinationScalar (v : jsval)
| DestinationObject (d : destination).

Record req_body : Type := {
  b_items : raw_items;
  b_address_id : jsval;
  b_shipping : shipping_field;
  b_coupon_code : jsval;
  b_destination : destination_field }.

(** The query string of a quote request: each parameter absent or a string. *)
Record req_query : Type := {
  q_sku : option string;
  q_id : option string;
  q_productId : option string;
  q_qty : option string;
  q_cep : option string;
  q_postal_code : option string }.

Definition param (p : option string) : jsval :=
  match p with Some s => JStr s | None => JUndefined end.

(** The authenticated user attached to the request by the [authRequired]
    middleware. *)
Record user : Type := { u_id : Z; u_email : jsval; u_name : jsval; u_cpf : jsval }.

Record request : Type := { body : req_body; query : req_query; req_user : user }.

(** ** Values built by the controller *)

Record resolved_item : Type := {
  ri_product : product;
  qty : num;
  unit_price_cents : num }.

Inductive mp_title : Type :=
| Title (name : string)        (* item.product.name *)
| Frete                        (* 'Frete' *)
| Frete_named (name : jsval).  (* `Frete - ${shippingSelection.name}` *)

(** A payment line item submitted to the payment gateway. *)
Record mp_item : Type := {
  title : mp_title;
  quantity : num;
  currency_id : string;
  unit_price : num }.

Record payer : Type := { email : jsval; name : jsval; cpf : jsval }.

Record preference_request : Type := { pr_items : list mp_item; pr_payer : payer }.

Record preference : Type := { preferenceId : jsval; initPoint : jsval }.

Record quote_item : Type := { qi_productId : Z; qi_qty : num; qi_price_cents : num }.

Record quote_request : Type := { destinationCep : string; qr_items : list quote_item }.

#[global] Instance resolved_item_eq_dec : EqDecision resolved_item.
Proof. solve_decision. Defined.
#[global] Instance mp_title_eq_dec : EqDecision mp_title.
Proof. solve_decision. Defined.
#[global] Instance mp_item_eq_dec : EqDecision mp_item.
Proof. solve_decision. Defined.
#[global] Instance payer_eq_dec : EqDecision payer.
Proof. solve_decision. Defined.
#[global] Instance preference_request_eq_dec : EqDecision preference_request.
Proof. solve_decision. Defined.
#[global] Instance quote_item_eq_dec : EqDecision quote_item.
Proof. solve_decision. Defined.
#[global] Instance quote_request_eq_dec : EqDecision quote_request.
Proof. solve_decision. Defined.

(** ** Errors and responses

    The controller throws [Error] objects told apart by their message; the
    interpolated part of a message is kept as data.  The specification
    names them [InvalidInput] ('Itens inválidos.'), [ProductNotFound]
    ('Produto não encontrado: ...') and [InsufficientStock]
    ('Estoque insuficiente para ...'). *)

Inductive js_error : Type :=
| Itens_invalidos
| Produto_nao_encontrado (ref : jsval)
| Estoque_insuficiente (product_name : string)
| Type_error (what : string)
| Thrown (message : string).     (* raised by a collaborator or the store *)

Inductive error_text : Type :=
| Dados_incompletos
| Endereco_invalido
| Falha_ao_criar_pedido
| Message_of (e : js_error).

Inductive json_body (quote_result : Type) : Type :=
| Error_json (error : error_text)
| Order_json (orderId : Z) (preference_id init_point : jsval)
| Quote_json (q : quote_result).

Arguments Error_json {quote_result} error.
Arguments Order_json {quote_result} orderId preference_id init_point.
Arguments Quote_json {quote_result} q.

Record response (quote_result : Type) : Type := {
  status : Z;
  json : json_body quote_result }.

Arguments status {quote_result} r.
Arguments json {quote_result} r.
Arguments Build_response {quote_result} status json.

#[global] Instance js_error_eq_dec : EqDecision js_error.
Proof. solve_decision. Defined.
#[global] Instance error_text_eq_dec : EqDecision error_text.
Proof. solve_decision. Defined.
#[global] Instance json_body_eq_dec {Q} `{EqDecision Q} : EqDecision (json_body Q).
Proof. solve_decision. Defined.
#[global] Instance response_eq_dec {Q} `{EqDecision Q} : EqDecision (response Q).
Proof. solve_decision. Defined.

(** The [TypeError] of [item.qty] on an [item] that is [null]. *)
Definition null_item_error : js_error :=
  Type_error "Cannot read properties of null (reading 'qty')".

(** [error.message || 'Falha ao criar pedido.'] *)
Definition message_or_default (e : js_error) : error_text :=
  match e with
  | Type_error EmptyString | Thrown EmptyString => Falha_ao_criar_pedido
  | _ => Message_of e
  end.

(** ** Effects: the store, the transaction and the trace of calls

    A handler runs in a [world]: the committed [store], the working copy
    [pending] of the open transaction, and the [log] of the calls made to
    the store and to the collaborators, oldest first.  A computation
    either returns a value or throws. *)

Inductive outcome (A : Type) : Type :=
| Ok (a : A)
| Throw (e : js_error).

Arguments Ok {A} a.
Arguments Throw {A} e.

#[global] Instance outcome_eq_dec {A} `{EqDecision A} : EqDecision (outcome A).
Proof. solve_decision. Defined.

Inductive db_write : Type :=
| Order_create (o : order)
| OrderItem_create (oi : order_item)
| Product_decrement (productId : Z) (by_ : num)
| Order_update (orderId : Z) (preference_id : jsval).

Inductive event : Type :=
| Transaction_begin
| Transaction_rollback
| Transaction_commit
| Product_findByPk (key : jsval)
| Product_findOne_sku (sku : jsval)
| Address_findOne (id : jsval) (userId : Z)
| Coupon_findActiveCoupon (code : jsval)
| Coupon_computeDiscount (subtotal : num)
| Db_write (w : db_write)
| Payment_createPreference (r : preference_request)
| Shipping_quote (r : quote_request).

Record world : Type := { store : db; pending : db; log : list event }.

#[global] Instance db_write_eq_dec : EqDecision db_write.
Proof. solve_decision. Defined.
#[global] Instance event_eq_dec : EqDecision event.
Proof. solve_decision. Defined.
#[global] Instance world_eq_dec : EqDecision world.
Proof. solve_decision. Defined.

Definition M (A : Type) : Type := world -> outcome A * world.

Definition ret {A} (a : A) : M A := fun w => (Ok a, w).

Definition throw {A} (e : js_error) : M A := fun w => (Throw e, w).

Definition bind {A B} (m : M A) (k : A -> M B) : M B :=
  fun w =>
    match m w with
    | (Ok a, w') => k a w'
    | (Throw e, w') => (Throw e, w')
    end.

(** [try { m } catch (error) { h error }] *)
Definition try_catch {A} (m : M A) (h : js_error -> M A) : M A :=
  fun w =>
    match m w with
    | (Ok a, w') => (Ok a, w')
    | (Throw e, w') => h e w'
    end.

Notation "'let!' x ':=' m 'in' k" := (bind m (fun x => k))
  (at level 10, x pattern, m at level 100, k at level 200).
Notation "m ';;' k" := (bind m (fun _ => k))
  (at level 100, k at level 200, right associativity).

Definition emit (e : event) : M unit :=
  fun w => (Ok tt, {| store := store w; pending := pending w; log := log w ++ [e] |}).

(** What the environment of the controller provides: the numeric reading of
    strings by the runtime, the way the store matches a supplied key against
    a primary key or a product code, the validation helper, the coupon,
    payment and shipping services, and the writes the store rejects (given
    the state of the transaction they are issued in). *)
Record Env : Type := {
  coupon : Type;
  quote_result : Type;
  StringToNumber : string -> num;
  pk_eq : jsval -> Z -> bool;
  sku_eq : jsval -> string -> bool;
  ensureFields : req_body -> list string -> list string;
  findActiveCoupon : jsval -> outcome coupon;
  computeDiscount : coupon -> num -> outcome num;
  createPreference : preference_request -> outcome preference;
  shippingService_quote : quote_request -> outcome quote_result;
  write_error : db -> db_write -> option string }.

Definition next_order_id (d : db) : Z :=
  1 + fold_right Z.max 0 (map o_id (orders d)).

Definition set_order_id (id : Z) (o : order) : order :=
  {| o_id := id; o_userId := o_userId o; o_addressId := o_addressId o;
     subtotalCents := subtotalCents o; shippingCents := shippingCents o;
     discountCents := discountCents o; totalCents := totalCents o;
     shippingCarrier := shippingCarrier o; shippingService := shippingService o;
     shippingEstimateDays := shippingEstimateDays o;
     mercadoPagoPreferenceId := mercadoPagoPreferenceId o |}.

Definition set_preference_id (p : jsval) (o : order) : order :=
  {| o_id := o_id o; o_userId := o_userId o; o_addressId := o_addressId o;
     subtotalCents := subtotalCents o; shippingCents := shippingCents o;
     discountCents := discountCents o; totalCents := totalCents o;
     shippingCarrier := shippingCarrier o; shippingService := shippingService o;
     shippingEstimateDays := shippingEstimateDays o;
     mercadoPagoPreferenceId := p |}.

Definition decrement_stock (by_ : num) (p : product) : product :=
  {| p_id := p_id p; p_sku := p_sku p; p_name := p_name p; p_active := p_active p;
     p_stockManaged := p_stockManaged p;
     p_stockQuantity := (p_stockQuantity p - by_)%num;
     p_priceCents := p_priceCents p; p_weightGrams := p_weightGrams p |}.

Definition apply_write (w : db_write) (d : db) : db :=
  match w with
  | Order_create o =>
      {| products := products d; addresses := addresses d;
         orders := orders d ++ [o]; orderItems := orderItems d |}
  | OrderItem_create oi =>
      {| products := products d; addresses := addresses d;
         orders := orders d; orderItems := orderItems d ++ [oi] |}
  | Product_decrement pid by_ =>
      {| products :=
           map (fun p => if p_id p =? pid then decrement_stock by_ p else p) (products d);
         addresses := addresses d; orders := orders d; orderItems := orderItems d |}
  | Order_update oid pref =>
      {| products := products d; addresses := addresses d;
         orders :=
           map (fun o => if o_id o =? oid then set_preference_id pref o else o) (orders d);
         orderItems := orderItems d |}
  end.

Section Controller.

Context (E : Env).

(** [Number(v)] *)
Definition Number (v : jsval) : num :=
  match v with
  | JUndefined => NaN
  | JNull => of_Z 0
  | JBool b => if b then of_Z 1 else of_Z 0
  | JNum n => n
  | JStr s => StringToNumber E s
  end.

(** *** The store and the transaction *)

Definition sequelize_transaction : M unit :=
  fun w => (Ok tt, {| store := store w; pending := store w;
                      log := log w ++ [Transaction_begin] |}).

Definition transaction_rollback : M unit :=
  fun w => (Ok tt, {| store := store w; pending := store w;
                      log := log w ++ [Transaction_rollback] |}).

Definition transaction_commit : M unit :=
  fun w => (Ok tt, {| store := pending w; pending := pending w;
                      log := log w ++ [Transaction_commit] |}).

(** A write inside the transaction: rejected by the store, or applied to
    the working copy. *)
Definition write (wr : db_write) : M unit :=
  emit (Db_write wr) ;;
  fun w =>
    match write_error E (pending w) wr with
    | Some msg => (Throw (Thrown msg), w)
    | None => (Ok tt, {| store := store w; pending := apply_write wr (pending w);
                         log := log w |})
    end.

(** Reads are issued outside the transaction: they see the committed store. *)
Definition findByPk (key : jsval) : M (option product) :=
  emit (Product_findByPk key) ;;
  fun w => (Ok (List.find (fun p => pk_eq E key (p_id p)) (products (store w))), w).

Definition findOne_sku (sku : jsval) : M (option product) :=
  emit (Product_findOne_sku sku) ;;
  fun w => (Ok (List.find (fun p => sku_eq E sku (p_sku p)) (products (store w))), w).

Definition Address_find (id : jsval) (userId : Z) : M (option address) :=
  emit (Address_findOne id userId) ;;
  fun w => (Ok (List.find (fun a => pk_eq E id (a_id a) && (a_userId a =? userId))
                          (addresses (store w))), w).

(** [Order.create(fields, { transaction })]: the store assigns the key. *)
Definition Order_insert (fields : order) : M order :=
  let! o := (fun w => (Ok (set_order_id (next_order_id (pending w)) fields), w)) in
  write (Order_create o) ;;
  ret o.

(** *** Collaborators *)

Definition lift {A} (r : outcome A) : M A := fun w => (r, w).

Definition couponService_findActiveCoupon (code : jsval) : M (coupon E) :=
  emit (Coupon_findActiveCoupon code) ;; lift (findActiveCoupon E code).

Definition couponService_computeDiscount (c : coupon E) (subtotal : num) : M num :=
  emit (Coupon_computeDiscount subtotal) ;; lift (computeDiscount E c subtotal).

Definition paymentService_createPreference (r : preference_request) : M preference :=
  emit (Payment_createPreference r) ;; lift (createPreference E r).

Definition shippingService_quote_call (r : quote_request) : M (quote_result E) :=
  emit (Shipping_quote r) ;; lift (shippingService_quote E r).

(** *** [resolveItems] *)

(** [Number(item.qty || item.quantity || 1)] *)
Definition line_qty (item : cart_line) : num :=
  Number (l_qty item ||| l_quantity item ||| JNum (of_Z 1)).

(** [!qty || qty <= 0]: the line is passed over. *)
Definition qty_unusable (qty : num) : bool :=
  negb (num_truthy qty) || (qty <=? of_Z 0)%num.

(** The three ways a line names its product, in priority order. *)
Definition lookup_product (item : cart_line) : M (option product) :=
  if truthy (l_productId item) then
    findByPk (l_productId item)
  else if truthy (l_id item) then
    let maybeId := Number (l_id item) in
    let! product :=
      (if negb (isNaN maybeId) && isFinite maybeId
       then findByPk (JNum maybeId) else ret None) in
    match product with
    | Some _ => ret product
    | None => findOne_sku (l_id item)
    end
  else if truthy (l_sku item) then
    findOne_sku (l_sku item)
  else ret None.

(** [item.sku || item.productId || item.id], named in the error message. *)
Definition line_ref (item : cart_line) : jsval :=
  l_sku item ||| l_productId item ||| l_id item.

(** The body of the [for (const item of rawItems)] loop; [items] is the
    array being filled. *)
Fixpoint resolve_loop (rawItems : list cart_line) (items : list resolved_item)
  : M (list resolved_item) :=
  match rawItems with
  | [] => ret items
  | item :: rest =>
      let qty := line_qty item in
      if qty_unusable qty then resolve_loop rest items
      else
        let! product := lookup_product item in
        match product with
        | None => throw (Produto_nao_encontrado (line_ref item))
        | Some product =>
            if negb (p_active product) then
              throw (Produto_nao_encontrado (line_ref item))
            else if p_stockManaged product && (p_stockQuantity product <? qty)%num then
              throw (Estoque_insuficiente (p_name product))
            else
              resolve_loop rest
                (items ++
                 [{| ri_product := product;
                     qty := qty;
                     unit_price_cents :=
                       Number (l_price_cents item ??? JNum (p_priceCents product)) |}])
        end
  end.

(** On an array with a [null] the loop goes through the lines before it,
    then throws at [item.qty] (line 13). *)
Definition resolveItems (rawItems : raw_items) : M (list resolved_item) :=
  match rawItems with
  | NotArray _ => throw Itens_invalidos
  | ItemsArray [] => throw Itens_invalidos
  | ItemsArray l =>
      let! items := resolve_loop l [] in
      if (length items =? 0)%nat then throw Itens_invalidos else ret items
  | ItemsWithNull before _ =>
      resolve_loop before [] ;;
      throw null_item_error
  end.

(** *** Pricing (createOrder, lines 89 to 100) *)

(** [items.reduce((acc, item) => acc + item.unit_price_cents * item.qty, 0)] *)
Definition subtotal_of (items : list resolved_item) : num :=
  fold_left (fun acc item => (acc + unit_price_cents item * qty item)%js)
            items (of_Z 0).

(** [req.body.shipping || {}] *)
Definition shippingSelection_of (f : shipping_field) : shipping_selection :=
  match f with
  | ShippingObject s => s
  | ShippingScalar _ =>
      {| s_price_cents := JUndefined; s_cost_cents := JUndefined;
         s_carrier := JUndefined; s_name := JUndefined; s_service := JUndefined;
         s_delivery_time_days := JUndefined |}
  end.

(** [Number(shippingSelection.price_cents || shippingSelection.cost_cents || 0)] *)
Definition shippingCents_of (s : shipping_selection) : num :=
  Number (s_price_cents s ||| s_cost_cents s ||| JNum (of_Z 0)).

(** [Math.max(0, subtotalCents + shippingCents - discountCents)] *)
Definition total_of (subtotal shipping discount : num) : num :=
  Math_max (of_Z 0) (subtotal + shipping - discount)%js.

(** *** Payment line items (lines 135 to 148) *)

Definition mp_item_of (item : resolved_item) : mp_item :=
  {| title := Title (p_name (ri_product item));
     quantity := qty item;
     currency_id := "BRL";
     unit_price := (unit_price_cents item / of_Z 100)%js |}.

Definition shipping_mp_item (s : shipping_selection) (shipping : num) : mp_item :=
  {| title := if truthy (s_name s) then Frete_named (s_name s) else Frete;
     quantity := of_Z 1;
     currency_id := "BRL";
     unit_price := (shipping / of_Z 100)%js |}.

Definition build_mpItems (items : list resolved_item) (s : shipping_selection)
    (shipping : num) : list mp_item :=
  map mp_item_of items ++
  (if (shipping >? of_Z 0)%num then [shipping_mp_item s shipping] else []).

End Controller.

(** *** Discount allocation (lines 149 to 160)

    The [forEach] callback mutates the line it visits in place and updates
    the captured [remainingDiscount]; the state of the loop is the pair of
    both. *)

Record alloc_state : Type := { remainingDiscount : num; mpItems : list mp_item }.

Definition set_unit_price (p : num) (it : mp_item) : mp_item :=
  {| title := title it; quantity := quantity it; currency_id := currency_id it;
     unit_price := p |}.

(** One call of the callback, on the element at index [i]. *)
Definition allocate_visit (st : alloc_state) (i : nat) : alloc_state :=
  match mpItems st !! i with
  | None => st
  | Some mpItem =>
      if (remainingDiscount st <=? of_Z 0)%num then st
      else
        let itemTotalCents :=
          Math_round (unit_price mpItem * of_Z 100 * quantity mpItem)%js in
        if (itemTotalCents <=? of_Z 0)%num then st
        else
          let deduction := Math_min itemTotalCents (remainingDiscount st) in
          let newTotalCents := (itemTotalCents - deduction)%js in
          {| remainingDiscount := (remainingDiscount st - deduction)%js;
             mpItems :=
               <[ i := set_unit_price
                         (Math_max (of_Z 0)
                            (Math_round (newTotalCents / quantity mpItem)%js / of_Z 100)%js)
                         mpItem ]> (mpItems st) |}
  end.

(** [mpItems.forEach(...)] started with [remainingDiscount = discountCents]. *)
Definition forEach_allocate (discount : num) (items : list mp_item) : alloc_state :=
  fold_left allocate_visit (seq 0 (length items))
            {| remainingDiscount := discount; mpItems := items |}.

(** [if (discountCents > 0 && mpItems.length) { ... }] *)
Definition apply_discount (discount : num) (items : list mp_item) : list mp_item :=
  if (discount >? of_Z 0)%num && negb (length items =? 0)%nat
  then mpItems (forEach_allocate discount items)
  else items.

Section Handlers.

Context (E : Env).

Definition res_status_json (st : Z) (b : json_body (quote_result E))
  : M (response (quote_result E)) :=
  ret {| status := st; json := b |}.

(** [res.json(b)]: status 200. *)
Definition res_json (b : json_body (quote_result E)) : M (response (quote_result E)) :=
  res_status_json 200 b.

(** *** [createOrder] *)

(** Lines 117 to 133: one OrderItem row per resolved item, and the stock of
    a product that tracks inventory decremented. *)
Fixpoint persist_items (orderId : Z) (items : list resolved_item) : M unit :=
  match items with
  | [] => ret tt
  | item :: rest =>
      write E (OrderItem_create
                 {| oi_orderId := orderId;
                    oi_productId := p_id (ri_product item);
                    oi_title := p_name (ri_product item);
                    oi_sku := p_sku (ri_product item);
                    oi_quantity := qty item;
                    oi_unitPriceCents := unit_price_cents item;
                    oi_weightGrams := p_weightGrams (ri_product item) |}) ;;
      (if p_stockManaged (ri_product item)
       then write E (Product_decrement (p_id (ri_product item)) (qty item))
       else ret tt) ;;
      persist_items orderId rest
  end.

Definition createOrder (req : request) : M (response (quote_result E)) :=
  sequelize_transaction ;;
  try_catch
    (let required := ensureFields E (body req) ["items"; "address_id"; "shipping"] in
     if negb (length required =? 0)%nat then
       transaction_rollback ;;
       res_status_json 400 (Error_json Dados_incompletos)
     else
       let! items := resolveItems E (b_items (body req)) in
       let! address := Address_find E (b_address_id (body req)) (u_id (req_user req)) in
       match address with
       | None =>
           transaction_rollback ;;
           res_status_json 404 (Error_json Endereco_invalido)
       | Some address =>
           let subtotalCents := subtotal_of items in
           let! discountCents :=
             (if truthy (b_coupon_code (body req)) then
                let! coupon := couponService_findActiveCoupon E (b_coupon_code (body req)) in
                couponService_computeDiscount E coupon subtotalCents
              else ret (of_Z 0)) in
           let shippingSelection := shippingSelection_of (b_shipping (body req)) in
           let shippingCents := shippingCents_of E shippingSelection in
           let totalCents := total_of subtotalCents shippingCents discountCents in
           let! order :=
             Order_insert E
               {| o_id := 0;
                  o_userId := u_id (req_user req);
                  o_addressId := a_id address;
                  subtotalCents := subtotalCents;
                  shippingCents := shippingCents;
                  discountCents := discountCents;
                  totalCents := totalCents;
                  shippingCarrier := s_carrier shippingSelection ||| JNull;
                  shippingService :=
                    s_name shippingSelection ||| s_service shippingSelection ||| JNull;
                  shippingEstimateDays :=
                    s_delivery_time_days shippingSelection ||| JNull;
                  mercadoPagoPreferenceId := JNull |} in
           persist_items (o_id order) items ;;
           let mpItems :=
             apply_discount discountCents
               (build_mpItems items shippingSelection shippingCents) in
           let! preference :=
             paymentService_createPreference E
               {| pr_items := mpItems;
                  pr_payer := {| email := u_email (req_user req);
                                 name := u_name (req_user req);
                                 cpf := u_cpf (req_user req) |} |} in
           write E (Order_update (o_id order) (preferenceId preference)) ;;
           transaction_commit ;;
           res_json (Order_json (o_id order) (preferenceId preference)
                                (initPoint preference))
       end)
    (fun error =>
       transaction_rollback ;;
       res_status_json 400 (Error_json (message_or_default error))).

(** *** [quote] *)

Definition is_digit (c : Ascii.ascii) : bool :=
  let n := Ascii.nat_of_ascii c in ((48 <=? n) && (n <=? 57))%nat.

(** [s.replace(/\D/g, '')] *)
Fixpoint digits_only (s : string) : string :=
  match s with
  | EmptyString => EmptyString
  | String c rest =>
      if is_digit c then String c (digits_only rest) else digits_only rest
  end.

(** [String(v)] of a chain [a || b || 'literal'] of query parameters, which
    evaluates to a string. *)
Definition string_of (v : jsval) : string :=
  match v with JStr s => s | _ => EmptyString end.

Definition items_truthy (r : raw_items) : bool :=
  match r with
  | NotArray v => truthy v
  | ItemsArray _ | ItemsWithNull _ _ => true
  end.

Definition destination_truthy (d : destination_field) : bool :=
  match d with DestinationScalar v => truthy v | DestinationObject _ => true end.

Definition destination_of (d : destination_field) : destination :=
  match d with
  | DestinationObject o => o
  | DestinationScalar _ => {| d_cep := JUndefined; d_postal_code := JUndefined |}
  end.

(** Lines 49 to 58: the payload of the request, rebuilt from the query
    string when the body lacks [items] or [destination]; [inl] is the early
    response for a missing postal code. *)
Definition quote_payload (req : request)
  : json_body (quote_result E) + (raw_items * destination_field) :=
  let payload := body req in
  if negb (items_truthy (b_items payload)) || negb (destination_truthy (b_destination payload))
  then
    let q := query req in
    let sku :=
      string_of (param (q_sku q) ||| param (q_id q) ||| param (q_productId q)
                 ||| JStr "STACK-DUPLO") in
    let qty := Number E (param (q_qty q) ||| JNum (of_Z 1)) in
    let cep :=
      substring 0 8
        (digits_only (string_of (param (q_cep q) ||| param (q_postal_code q) ||| JStr ""))) in
    if bool_decide (cep = EmptyString) then inl (Error_json Dados_incompletos)
    else
      inr (ItemsArray [{| l_qty := JNum qty; l_quantity := JUndefined;
                          l_productId := JUndefined; l_id := JUndefined;
                          l_sku := JStr sku; l_price_cents := JUndefined |}],
           DestinationObject {| d_cep := JStr cep; d_postal_code := JUndefined |})
  else inr (b_items payload, b_destination payload).

(** [(d.cep || d.postal_code || '').replace(/\D/g, '')]: only a string has
    a [replace] method. *)
Definition destination_cep (d : destination) : M string :=
  match d_cep d ||| d_postal_code d ||| JStr "" with
  | JStr s => ret (digits_only s)
  | _ => throw (Type_error "replace is not a function")
  end.

Definition quote (req : request) : M (response (quote_result E)) :=
  try_catch
    (match quote_payload req with
     | inl early => res_status_json 400 early
     | inr (payload_items, payload_destination) =>
         let! items := resolveItems E payload_items in
         let! destinationCep := destination_cep (destination_of payload_destination) in
         let! quoteResult :=
           shippingService_quote_call E
             {| destinationCep := destinationCep;
                qr_items :=
                  map (fun item => {| qi_productId := p_id (ri_product item);
                                      qi_qty := qty item;
                                      qi_price_cents := unit_price_cents item |}) items |} in
         res_json (Quote_json quoteResult)
     end)
    (fun error => res_status_json 400 (Error_json (Message_of error))).

End Handlers.

(** ** The CORS policy ([back/src/app.js], lines 12 to 34)

    The [origin] function handed to the [cors] middleware: it is given the
    [Origin] header of the request ([undefined] when the request has none)
    and a callback, which it calls with [(null, true)] to let the request
    through, or with an [Error]. *)

Module App.

Local Open Scope string_scope.

Definition allowedOrigins : list string :=
  ["http://localhost:8080";
   "http://127.0.0.1:8080";
   "http://localhost:5500";
   "http://127.0.0.1:5500";
   "https://psiloup.com.br";
   "https://www.psiloup.com.br"].

(** [list.includes(v)] on a list of strings. *)
Definition includes (l : list string) (v : jsval) : bool :=
  match v with
  | JStr s => existsb (String.eqb s) l
  | _ => false
  end.

(** [callback(null, true)] is [Ok true]; [callback(new Error(...))] is the
    error. *)
Definition cors_origin (origin : jsval) : outcome bool :=
  if negb (truthy origin) || includes allowedOrigins origin
  then Ok true
  else Throw (Thrown "Not allowed by CORS").

End App.

(** * Specification-level definitions *)

(** ** The allocation as the specification words it

    Section 4.2, step 6: the lines are taken in build order with a running
    remaining discount; a line whose subtotal
    [round(unit_price * 100) * quantity] is positive gives up
    [min (subtotal, remaining)], its unit price becomes
    [round (new subtotal / quantity) / 100] floored at zero, and the
    remaining discount decreases by the deduction.  The loop never stops
    early: once nothing remains, the deduction is zero. *)

Definition spec_line_subtotal (line : mp_item) : num :=
  (Math_round (unit_price line * of_Z 100)%js * quantity line)%js.

Definition spec_reprice (remaining : num) (line : mp_item) : num * mp_item :=
  let subtotal := spec_line_subtotal line in
  if (of_Z 0 <? subtotal)%num then
    let deduction := Math_min subtotal remaining in
    ((remaining - deduction)%js,
     set_unit_price
       (Math_max (of_Z 0)
          (Math_round ((subtotal - deduction) / quantity line)%js / of_Z 100)%js)
       line)
  else (remaining, line).

Fixpoint spec_allocate (remaining : num) (lines : list mp_item) : num * list mp_item :=
  match lines with
  | [] => (remaining, [])
  | line :: rest =>
      let '(remaining', line') := spec_reprice remaining line in
      let '(final, rest') := spec_allocate remaining' rest in
      (final, line' :: rest')
  end.

(** ** The callback of the source on one line, and the loop by recursion on
    the array (proved below to be what [forEach_allocate] computes) *)

Definition visit_line (remaining : num) (mpItem : mp_item) : num * mp_item :=
  if (remaining <=? of_Z 0)%num then (remaining, mpItem)
  else
    let itemTotalCents :=
      Math_round (unit_price mpItem * of_Z 100 * quantity mpItem)%js in
    if (itemTotalCents <=? of_Z 0)%num then (remaining, mpItem)
    else
      let deduction := Math_min itemTotalCents remaining in
      let newTotalCents := (itemTotalCents - deduction)%js in
      ((remaining - deduction)%js,
       set_unit_price
         (Math_max (of_Z 0)
            (Math_round (newTotalCents / quantity mpItem)%js / of_Z 100)%js)
         mpItem).

Fixpoint visit_lines (remaining : num) (lines : list mp_item) : num * list mp_item :=
  match lines with
  | [] => (remaining, [])
  | line :: rest =>
      let '(remaining', line') := visit_line remaining line in
      let '(final, rest') := visit_lines remaining' rest in
      (final, line' :: rest')
  end.

(** ** Amounts in whole cents *)

(** The amounts, in cents, up to which the loop is followed here: below
    [2^50] the roundings of binary64 leave every amount in whole cents as it
    is. *)
Definition max_cents : Z := 2 ^ 50.

(** The integer nearest to [n / q], ties upwards: [Math.round(n / q)]. *)
Definition round_div (n q : Z) : Z := (2 * n + q) / (2 * q).

(** A payment line of [q] units at [c] cents each. *)
Definition cents_line (l : mp_title * Z * Z) : mp_item :=
  let '(t, c, q) := l in
  {| title := t; quantity := of_Z q; currency_id := "BRL";
     unit_price := (of_Z c / of_Z 100)%js |}.

(** A resolved item of [q] units at [c] cents each. *)
Definition whole_item (l : product * Z * Z) : resolved_item :=
  let '(p, c, q) := l in
  {| ri_product := p; qty := of_Z q; unit_price_cents := of_Z c |}.

(** The payment lines built from whole items and a shipping cost of [s]
    cents, as triples. *)
Definition cents_lines (cart : list (product * Z * Z)) (sel : shipping_selection) (s : Z)
  : list (mp_title * Z * Z) :=
  map (fun '(p, c, q) => (Title (p_name p), c, q)) cart ++
  (if 0 <? s
   then [(if truthy (s_name sel) then Frete_named (s_name sel) else Frete, s, 1)]
   else []).

(** The callback on a line of [q] units at [c] cents: the remaining discount
    and the new price in cents. *)
Definition visit_cents (remaining c q : Z) : Z * Z :=
  if remaining <=? 0 then (remaining, c)
  else if c * q <=? 0 then (remaining, c)
  else
    let deduction := Z.min (c * q) remaining in
    (remaining - deduction, Z.max 0 (round_div (c * q - deduction) q)).

Fixpoint allocate_cents (remaining : Z) (lines : list (mp_title * Z * Z))
  : Z * list (mp_title * Z * Z) :=
  match lines with
  | [] => (remaining, [])
  | (t, c, q) :: rest =>
      let '(remaining', c') := visit_cents remaining c q in
      let '(final, rest') := allocate_cents remaining' rest in
      (final, (t, c', q) :: rest')
  end.

(** [sum over the lines of round(unit_price * 100) * quantity] *)
Definition lines_total (lines : list mp_item) : num :=
  fold_right (fun line acc => (spec_line_subtotal line + acc)%js) (of_Z 0) lines.

Definition cents_total (lines : list (mp_title * Z * Z)) : Z :=
  fold_right (fun '(_, c, q) acc => c * q + acc) 0 lines.

(** [sum over the lines of floor(quantity / 2)]: the rounding slack of the
    per-unit prices. *)
Definition half_quantities (lines : list (mp_title * Z * Z)) : Z :=
  fold_right (fun '(_, _, q) acc => q / 2 + acc) 0 lines.

Definition cart_subtotal (cart : list (product * Z * Z)) : Z :=
  fold_right (fun '(_, c, q) acc => c * q + acc) 0 cart.

Definition cart_half_quantities (cart : list (product * Z * Z)) : Z :=
  fold_right (fun '(_, _, q) acc => q / 2 + acc) 0 cart.

(** ** Runs of the handlers *)

(** The world after more calls have been logged. *)
Definition logged (evs : list event) (w : world) : world :=
  {| store := store w; pending := pending w; log := log w ++ evs |}.

Definition is_product_read (e : event) : bool :=
  match e with
  | Product_findByPk _ | Product_findOne_sku _ => true
  | _ => false
  end.

Definition is_write (e : event) : bool :=
  match e with Db_write _ => true | _ => false end.

(** A world with nothing pending and nothing logged. *)
Definition at_rest (d : db) : world := {| store := d; pending := d; log := [] |}.

(** The outcome of the resolver, of its loop and of a product lookup on a
    store. *)
Definition resolveItems_on (E : Env) (d : db) (rawItems : raw_items)
  : outcome (list resolved_item) :=
  fst (resolveItems E rawItems (at_rest d)).

Definition resolve_loop_on (E : Env) (d : db) (rawItems : list cart_line)
    (items : list resolved_item) : outcome (list resolved_item) :=
  fst (resolve_loop E rawItems items (at_rest d)).

Definition found_product (E : Env) (d : db) (item : cart_line) : option product :=
  match fst (lookup_product E item (at_rest d)) with
  | Ok p => p
  | Throw _ => None
  end.

(** The line keeps its place in the cart: its quantity is usable. *)
Definition usable (E : Env) (item : cart_line) : bool :=
  negb (qty_unusable (line_qty E item)).

(** Why a line with a usable quantity is refused (specification, 4.1): its
    product cannot be resolved or is inactive; or the product tracks
    inventory and the requested quantity exceeds the stock. *)
Inductive line_refused (E : Env) (d : db) (item : cart_line) : js_error -> Prop :=
| refused_unresolved :
    found_product E d item = None ->
    line_refused E d item (Produto_nao_encontrado (line_ref item))
| refused_inactive p :
    found_product E d item = Some p ->
    p_active p = false ->
    line_refused E d item (Produto_nao_encontrado (line_ref item))
| refused_stock p :
    found_product E d item = Some p ->
    p_active p = true ->
    p_stockManaged p = true ->
    (p_stockQuantity p <? line_qty E item)%num = true ->
    line_refused E d item (Estoque_insuficiente (p_name p)).

Definition order_item_of (orderId : Z) (item : resolved_item) : order_item :=
  {| oi_orderId := orderId;
     oi_productId := p_id (ri_product item);
     oi_title := p_name (ri_product item);
     oi_sku := p_sku (ri_product item);
     oi_quantity := qty item;
     oi_unitPriceCents := unit_price_cents item;
     oi_weightGrams := p_weightGrams (ri_product item) |}.

(** The writes of lines 117 to 133, in order. *)
Definition item_writes (orderId : Z) (items : list resolved_item) : list db_write :=
  flat_map (fun item =>
              OrderItem_create (order_item_of orderId item) ::
              (if p_stockManaged (ri_product item)
               then [Product_decrement (p_id (ri_product item)) (qty item)]
               else []))
           items.

Definition apply_writes (ws : list db_write) (d : db) : db :=
  fold_left (fun d w => apply_write w d) ws d.

Definition required_fields : list string := ["items"; "address_id"; "shipping"].

Definition find_address (E : Env) (d : db) (req : request) : option address :=
  List.find (fun a => pk_eq E (b_address_id (body req)) (a_id a)
                      && (a_userId a =? u_id (req_user req)))
            (addresses d).

(** The discount of the request: none without a coupon code, else what the
    coupon service finds and computes. *)
Definition discount_for (E : Env) (req : request) (subtotal : num) : outcome num :=
  if truthy (b_coupon_code (body req)) then
    match findActiveCoupon E (b_coupon_code (body req)) with
    | Ok c => computeDiscount E c subtotal
    | Throw e => Throw e
    end
  else Ok (of_Z 0).

Definition coupon_calls (E : Env) (req : request) (subtotal : num) : list event :=
  if truthy (b_coupon_code (body req)) then
    Coupon_findActiveCoupon (b_coupon_code (body req)) ::
    match findActiveCoupon E (b_coupon_code (body req)) with
    | Ok _ => [Coupon_computeDiscount subtotal]
    | Throw _ => []
    end
  else [].

Definition shipping_of (E : Env) (req : request) : num :=
  shippingCents_of E (shippingSelection_of (b_shipping (body req))).

(** The Order row of lines 102 to 115, with the key the store gives it. *)
Definition order_row (E : Env) (d : db) (req : request) (a : address)
    (items : list resolved_item) (discount : num) : order :=
  let sel := shippingSelection_of (b_shipping (body req)) in
  {| o_id := next_order_id d;
     o_userId := u_id (req_user req);
     o_addressId := a_id a;
     subtotalCents := subtotal_of items;
     shippingCents := shipping_of E req;
     discountCents := discount;
     totalCents := total_of (subtotal_of items) (shipping_of E req) discount;
     shippingCarrier := s_carrier sel ||| JNull;
     shippingService := s_name sel ||| s_service sel ||| JNull;
     shippingEstimateDays := s_delivery_time_days sel ||| JNull;
     mercadoPagoPreferenceId := JNull |}.

(** The request of lines 162 to 169 to the payment gateway. *)
Definition payment_request (E : Env) (req : request) (items : list resolved_item)
    (discount : num) : preference_request :=
  {| pr_items :=
       apply_discount discount
         (build_mpItems items (shippingSelection_of (b_shipping (body req)))
                        (shipping_of E req));
     pr_payer := {| email := u_email (req_user req);
                    name := u_name (req_user req);
                    cpf := u_cpf (req_user req) |} |}.

(** The store once the order, its items, the stock and the preference are
    written. *)
Definition order_placed (E : Env) (d : db) (req : request) (a : address)
    (items : list resolved_item) (discount : num) (pref : preference) : db :=
  let o := order_row E d req a items discount in
  apply_write (Order_update (o_id o) (preferenceId pref))
    (apply_writes (item_writes (o_id o) items)
       (apply_write (Order_create o) d)).

(** The calls of a run that goes through, after the coupon service. *)
Definition placing_calls (E : Env) (d : db) (req : request) (a : address)
    (items : list resolved_item) (discount : num) (pref : preference) : list event :=
  let o := order_row E d req a items discount in
  Db_write (Order_create o) ::
  map Db_write (item_writes (o_id o) items) ++
  [Payment_createPreference (payment_request E req items discount);
   Db_write (Order_update (o_id o) (preferenceId pref));
   Transaction_commit].

(** The ways a run of [createOrder] on the world [w] can go: the response
    and the world it ends in. *)
Inductive order_run (E : Env) (req : request) (w : world)
  : response (quote_result E) -> world -> Prop :=
| run_incomplete :
    ensureFields E (body req) required_fields <> [] ->
    order_run E req w
      {| status := 400; json := Error_json Dados_incompletos |}
      {| store := store w; pending := store w;
         log := log w ++ [Transaction_begin; Transaction_rollback] |}
| run_unresolved e reads :
    ensureFields E (body req) required_fields = [] ->
    resolveItems_on E (store w) (b_items (body req)) = Throw e ->
    Forall (fun ev => is_product_read ev = true) reads ->
    order_run E req w
      {| status := 400; json := Error_json (message_or_default e) |}
      {| store := store w; pending := store w;
         log := log w ++ Transaction_begin :: reads ++ [Transaction_rollback] |}
| run_no_address items reads :
    ensureFields E (body req) required_fields = [] ->
    resolveItems_on E (store w) (b_items (body req)) = Ok items ->
    Forall (fun ev => is_product_read ev = true) reads ->
    find_address E (store w) req = None ->
    order_run E req w
      {| status := 404; json := Error_json Endereco_invalido |}
      {| store := store w; pending := store w;
         log := log w ++ Transaction_begin :: reads ++
                [Address_findOne (b_address_id (body req)) (u_id (req_user req));
                 Transaction_rollback] |}
| run_no_discount items a e reads :
    ensureFields E (body req) required_fields = [] ->
    resolveItems_on E (store w) (b_items (body req)) = Ok items ->
    Forall (fun ev => is_product_read ev = true) reads ->
    find_address E (store w) req = Some a ->
    discount_for E req (subtotal_of items) = Throw e ->
    order_run E req w
      {| status := 400; json := Error_json (message_or_default e) |}
      {| store := store w; pending := store w;
         log := log w ++ Transaction_begin :: reads ++
                Address_findOne (b_address_id (body req)) (u_id (req_user req)) ::
                coupon_calls E req (subtotal_of items) ++ [Transaction_rollback] |}
| run_write_rejected items a discount msg reads more :
    ensureFields E (body req) required_fields = [] ->
    resolveItems_on E (store w) (b_items (body req)) = Ok items ->
    Forall (fun ev => is_product_read ev = true) reads ->
    find_address E (store w) req = Some a ->
    discount_for E req (subtotal_of items) = Ok discount ->
    order_run E req w
      {| status := 400; json := Error_json (message_or_default (Thrown msg)) |}
      {| store := store w; pending := store w;
         log := log w ++ Transaction_begin :: reads ++
                Address_findOne (b_address_id (body req)) (u_id (req_user req)) ::
                coupon_calls E req (subtotal_of items) ++
                more ++ [Transaction_rollback] |}
| run_payment_failed items a discount e reads :
    ensureFields E (body req) required_fields = [] ->
    resolveItems_on E (store w) (b_items (body req)) = Ok items ->
    Forall (fun ev => is_product_read ev = true) reads ->
    find_address E (store w) req = Some a ->
    discount_for E req (subtotal_of items) = Ok discount ->
    createPreference E (payment_request E req items discount) = Throw e ->
    order_run E req w
      {| status := 400; json := Error_json (message_or_default e) |}
      {| store := store w; pending := store w;
         log := log w ++ Transaction_begin :: reads ++
                Address_findOne (b_address_id (body req)) (u_id (req_user req)) ::
                coupon_calls E req (subtotal_of items) ++
                Db_write (Order_create (order_row E (store w) req a items discount)) ::
                map Db_write (item_writes (next_order_id (store w)) items) ++
                [Payment_createPreference (payment_request E req items discount);
                 Transaction_rollback] |}
| run_placed items a discount pref reads :
    ensureFields E (body req) required_fields = [] ->
    resolveItems_on E (store w) (b_items (body req)) = Ok items ->
    Forall (fun ev => is_product_read ev = true) reads ->
    find_address E (store w) req = Some a ->
    discount_for E req (subtotal_of items) = Ok discount ->
    createPreference E (payment_request E req items discount) = Ok pref ->
    order_run E req w
      {| status := 200;
         json := Order_json (next_order_id (store w)) (preferenceId pref)
                            (initPoint pref) |}
      {| store := order_placed E (store w) req a items discount pref;
         pending := order_placed E (store w) req a items discount pref;
         log := log w ++ Transaction_begin :: reads ++
                Address_findOne (b_address_id (body req)) (u_id (req_user req)) ::
                coupon_calls E req (subtotal_of items) ++
                placing_calls E (store w) req a items discount pref |}.

(** ** Sums *)

Definition sum_num (l : list num) : num := fold_right num_add (of_Z 0) l.

(** [sum over the resolved items of unit price times quantity], the sum of
    the specification: not rounded. *)
Definition sum_of_lines (items : list resolved_item) : num :=
  sum_num (map (fun item => (unit_price_cents item * qty item)%num) items).

(** The [address_id] of the request names an address of the store, and every
    address it names belongs to someone else. *)
Definition foreign_address (E : Env) (d : db) (req : request) : Prop :=
  (exists a, In a (addresses d) /\ pk_eq E (b_address_id (body req)) (a_id a) = true) /\
  forall a, In a (addresses d) ->
            pk_eq E (b_address_id (body req)) (a_id a) = true ->
            a_userId a <> u_id (req_user req).

(** The first line of a cart that is refused, among the lines with a usable
    quantity: the lines before it are passed over or resolve. *)
Inductive first_refused (E : Env) (d : db) : list cart_line -> js_error -> Prop :=
| refused_here item rest e :
    usable E item = true ->
    line_refused E d item e ->
    first_refused E d (item :: rest) e
| refused_after_skipped item rest e :
    usable E item = false ->
    first_refused E d rest e ->
    first_refused E d (item :: rest) e
| refused_after_resolved item rest e :
    usable E item = true ->
    (forall e', ~ line_refused E d item e') ->
    first_refused E d rest e ->
    first_refused E d (item :: rest) e.

(** ** What the resolver makes of one line *)

(** The item a line with a usable quantity resolves to, when it is not
    refused (lines 15 to 39). *)
Definition resolve_line (E : Env) (d : db) (item : cart_line) : option resolved_item :=
  match found_product E d item with
  | Some p =>
      if p_active p && negb (p_stockManaged p && (p_stockQuantity p <? line_qty E item)%num)
      then Some {| ri_product := p;
                   qty := line_qty E item;
                   unit_price_cents :=
                     Number E (l_price_cents item ??? JNum (p_priceCents p)) |}
      else None
  | None => None
  end.

(** ** The stock taken by an order *)

(** The item takes units off the stock of the product with key [pid]. *)
Definition takes_stock (pid : Z) (item : resolved_item) : bool :=
  (pid =? p_id (ri_product item)) && p_stockManaged (ri_product item).

(** The units the items take off the stock of the product with key [pid]. *)
Definition ordered_quantity (pid : Z) (items : list resolved_item) : num :=
  sum_num (map qty (List.filter (takes_stock pid) items)).

(** ** Kinds of calls *)

Definition is_payment_call (e : event) : bool :=
  match e with Payment_createPreference _ => true | _ => false end.

Definition is_coupon_call (e : event) : bool :=
  match e with
  | Coupon_findActiveCoupon _ | Coupon_computeDiscount _ => true
  | _ => false
  end.

(** ** The calls of [createOrder], in order *)

(** The calls of a run that got past the coupon service: the writes, the
    payment request and the end of the transaction. *)
Inductive placing_trace (E : Env) (d : db) (req : request) (a : address)
    (items : list resolved_item) (discount : num) : list event -> Prop :=
| trace_write_rejected ws :
    placing_trace E d req a items discount (map Db_write ws ++ [Transaction_rollback])
| trace_payment_failed e :
    createPreference E (payment_request E req items discount) = Throw e ->
    placing_trace E d req a items discount
      (Db_write (Order_create (order_row E d req a items discount)) ::
       map Db_write (item_writes (next_order_id d) items) ++
       [Payment_createPreference (payment_request E req items discount);
        Transaction_rollback])
| trace_update_rejected pref :
    createPreference E (payment_request E req items discount) = Ok pref ->
    placing_trace E d req a items discount
      (Db_write (Order_create (order_row E d req a items discount)) ::
       map Db_write (item_writes (next_order_id d) items) ++
       [Payment_createPreference (payment_request E req items discount);
        Db_write (Order_update (next_order_id d) (preferenceId pref));
        Transaction_rollback])
| trace_placed pref :
    createPreference E (payment_request E req items discount) = Ok pref ->
    placing_trace E d req a items discount
      (Db_write (Order_create (order_row E d req a items discount)) ::
       map Db_write (item_writes (next_order_id d) items) ++
       [Payment_createPreference (payment_request E req items discount);
        Db_write (Order_update (next_order_id d) (preferenceId pref));
        Transaction_commit]).

(** The calls of any run of [createOrder] on the store [d]. *)
Inductive order_calls (E : Env) (req : request) (d : db) : list event -> Prop :=
| calls_incomplete :
    ensureFields E (body req) required_fields <> [] ->
    order_calls E req d [Transaction_begin; Transaction_rollback]
| calls_unresolved e reads :
    ensureFields E (body req) required_fields = [] ->
    resolveItems_on E d (b_items (body req)) = Throw e ->
    Forall (fun ev => is_product_read ev = true) reads ->
    order_calls E req d (Transaction_begin :: reads ++ [Transaction_rollback])
| calls_no_address items reads :
    ensureFields E (body req) required_fields = [] ->
    resolveItems_on E d (b_items (body req)) = Ok items ->
    Forall (fun ev => is_product_read ev = true) reads ->
    find_address E d req = None ->
    order_calls E req d
      (Transaction_begin :: reads ++
       [Address_findOne (b_address_id (body req)) (u_id (req_user req));
        Transaction_rollback])
| calls_no_discount items a e reads :
    ensureFields E (body req) required_fields = [] ->
    resolveItems_on E d (b_items (body req)) = Ok items ->
    Forall (fun ev => is_product_read ev = true) reads ->
    find_address E d req = Some a ->
    discount_for E req (subtotal_of items) = Throw e ->
    order_calls E req d
      (Transaction_begin :: reads ++
       Address_findOne (b_address_id (body req)) (u_id (req_user req)) ::
       coupon_calls E req (subtotal_of items) ++ [Transaction_rollback])
| calls_placing items a discount reads trace :
    ensureFields E (body req) required_fields = [] ->
    resolveItems_on E d (b_items (body req)) = Ok items ->
    Forall (fun ev => is_product_read ev = true) reads ->
    find_address E d req = Some a ->
    discount_for E req (subtotal_of items) = Ok discount ->
    placing_trace E d req a items discount trace ->
    order_calls E req d
      (Transaction_begin :: reads ++
       Address_findOne (b_address_id (body req)) (u_id (req_user req)) ::
       coupon_calls E req (subtotal_of items) ++ trace).

(** ** The payload of a quote *)

Fixpoint all_digits (s : string) : bool :=
  match s with
  | EmptyString => true
  | String c rest => is_digit c && all_digits rest
  end.

(** [!payload.items || !payload.destination] (line 50) *)
Definition payload_incomplete (b : req_body) : bool :=
  negb (items_truthy (b_items b)) || negb (destination_truthy (b_destination b)).

(** Lines 51 to 53: the product code, the quantity and the postal code read
    from the query string. *)
Definition query_sku (q : req_query) : string :=
  string_of (param (q_sku q) ||| param (q_id q) ||| param (q_productId q)
             ||| JStr "STACK-DUPLO").

Definition query_qty (E : Env) (q : req_query) : num :=
  Number E (param (q_qty q) ||| JNum (of_Z 1)).

Definition query_cep (q : req_query) : string :=
  substring 0 8
    (digits_only (string_of (param (q_cep q) ||| param (q_postal_code q)
                             ||| JStr EmptyString))).

(** [{ sku, qty }] (line 57) *)
Definition query_line (E : Env) (q : req_query) : cart_line :=
  {| l_qty := JNum (query_qty E q); l_quantity := JUndefined;
     l_productId := JUndefined; l_id := JUndefined;
     l_sku := JStr (query_sku q); l_price_cents := JUndefined |}.

(** The digits of the postal code of a destination (line 60), or the
    [TypeError] of a call of [replace] on a value that is no string. *)
Definition destination_digits (d : destination) : outcome string :=
  match d_cep d ||| d_postal_code d ||| JStr EmptyString with
  | JStr s => Ok (digits_only s)
  | _ => Throw (Type_error "replace is not a function")
  end.

(** The request of lines 61 to 68 to the shipping service. *)
Definition quote_request_of (cep : string) (items : list resolved_item) : quote_request :=
  {| destinationCep := cep;
     qr_items := map (fun item => {| qi_productId := p_id (ri_product item);
                                     qi_qty := qty item;
                                     qi_price_cents := unit_price_cents item |}) items |}.

(** ** Prices in cents and suffixes *)

Definition cents_price (l : mp_title * Z * Z) : Z := snd (fst l).

Fixpoint is_suffix (a b : string) : bool :=
  String.eqb a b ||
  match b with
  | EmptyString => false
  | String _ rest => is_suffix a rest
  end.

(** ** A sample shop *)

Module Sample.

Local Open Scope string_scope.

(** The numeric reading of a string by the runtime, on strings of ASCII
    characters: white space around the literal is dropped, the empty string
    reads as 0, a literal is a signed decimal with an optional fraction and
    exponent, [Infinity] with an optional sign, or an unsigned integer in
    base 16, 8 or 2; the value is rounded to binary64, and every other
    string reads as NaN. *)

Definition code (c : Ascii.ascii) : Z := Z.of_nat (Ascii.nat_of_ascii c).

Definition is_space (c : Ascii.ascii) : bool :=
  ((9 <=? code c) && (code c <=? 13))%Z || (code c =? 32)%Z.

Fixpoint skip_spaces (s : string) : string :=
  match s with
  | String c rest => if is_space c then skip_spaces rest else s
  | EmptyString => s
  end.

Fixpoint all_spaces (s : string) : bool :=
  match s with
  | String c rest => is_space c && all_spaces rest
  | EmptyString => true
  end.

Definition digit_value (c : Ascii.ascii) : option Z :=
  let n := code c in
  if ((48 <=? n) && (n <=? 57))%Z then Some (n - 48)
  else if ((97 <=? n) && (n <=? 102))%Z then Some (n - 87)
  else if ((65 <=? n) && (n <=? 70))%Z then Some (n - 55)
  else None.

(** The longest run of digits of the base at the head of [s]: its value,
    its length and the rest of the string. *)
Fixpoint digits (base : Z) (s : string) (acc count : Z) : Z * Z * string :=
  match s with
  | String c rest =>
      match digit_value c with
      | Some v => if (v <? base)%Z then digits base rest (base * acc + v) (count + 1)
                  else (acc, count, s)
      | None => (acc, count, s)
      end
  | EmptyString => (acc, count, s)
  end.

(** [0x], [0o] and [0b], in either case. *)
Definition radix_of (c : Ascii.ascii) : option Z :=
  let n := code c in
  if ((n =? 120) || (n =? 88))%Z then Some 16
  else if ((n =? 111) || (n =? 79))%Z then Some 8
  else if ((n =? 98) || (n =? 66))%Z then Some 2
  else None.

Definition radix_literal (s : string) : option (Z * string) :=
  match s with
  | String zero (String c rest) =>
      match radix_of c with
      | Some base =>
          let '(z, count, rest') := digits base rest 0 0 in
          if (code zero =? 48)%Z && negb (count =? 0)%Z then Some (z, rest') else None
      | None => None
      end
  | _ => None
  end.

Definition signed (s : string) : bool * string :=
  match s with
  | String c rest =>
      if (code c =? 43)%Z then (false, rest)
      else if (code c =? 45)%Z then (true, rest)
      else (false, s)
  | EmptyString => (false, s)
  end.

Definition exponent_part (s : string) : option (Z * string) :=
  match s with
  | String c rest =>
      if ((code c =? 101) || (code c =? 69))%Z then
        let '(neg, rest') := signed rest in
        let '(e, count, rest'') := digits 10 rest' 0 0 in
        if (count =? 0)%Z then None else Some (if neg then - e else e, rest'')
      else Some (0, s)
  | EmptyString => Some (0, s)
  end.

Definition decimal_literal (s : string) : option (Q * string) :=
  let '(i, ni, r1) := digits 10 s 0 0 in
  let '(f, nf, r2) := match r1 with
                      | String c r => if (code c =? 46)%Z then digits 10 r 0 0 else (0, 0, r1)
                      | EmptyString => (0, 0, r1)
                      end in
  if ((ni =? 0) && (nf =? 0))%Z then None
  else match exponent_part r2 with
       | Some (e, r3) => Some (((inject_Z i + inject_Z f / 10 ^ nf) * 10 ^ e)%Q, r3)
       | None => None
       end.

Definition read_number (s : string) : num :=
  let s := skip_spaces s in
  match s with
  | EmptyString => of_Z 0
  | _ =>
      match radix_literal s with
      | Some (z, rest) => if all_spaces rest then binary64 (Q2Qc (inject_Z z)) else NaN
      | None =>
          let '(neg, body) := signed s in
          if String.prefix "Infinity" body
          then (if all_spaces (String.substring 8 (String.length body - 8) body)
                then Inf neg else NaN)
          else match decimal_literal body with
               | Some (q, rest) =>
                   if all_spaces rest
                   then binary64 (Q2Qc (if neg then - q else q)%Q)
                   else NaN
               | None => NaN
               end
      end
  end.

(** Strings and what the runtime reads in them. *)
Definition readings : list (string * num) :=
  [("", of_Z 0); ("  ", of_Z 0); ("12", of_Z 12); (" 12 ", of_Z 12); ("007", of_Z 7);
   ("1.5", of_Q (3 # 2)); (".5", of_Q (1 # 2)); ("5.", of_Z 5); (".", NaN);
   ("-3", of_Z (-3)); ("+3", of_Z 3); ("--3", NaN); ("1e3", of_Z 1000);
   ("1E-2", (of_Z 1 / of_Z 100)%js); ("1e", NaN); ("1e+", NaN);
   ("0.1", (of_Z 1 / of_Z 10)%js);
   ("0x1F", of_Z 31); ("0b101", of_Z 5); ("0o17", of_Z 15); ("0x", NaN); ("-0x10", NaN);
   ("Infinity", Inf false); ("-Infinity", Inf true); ("Infinityx", NaN);
   ("infinity", NaN); ("abc", NaN); ("12px", NaN); ("1 2", NaN); ("1_000", NaN);
   ("1e400", Inf false); ("-1e400", Inf true); ("1e-400", of_Z 0);
   ("9007199254740993", of_Z 9007199254740992)].

Definition absent (v : jsval) : bool :=
  match v with JUndefined | JNull => true | _ => false end.

(** The names among [fields] of the fields the body lacks. *)
Definition missing_fields (b : req_body) (fields : list string) : list string :=
  List.filter
    (fun f =>
       if String.eqb f "items"
       then match b_items b with NotArray v => absent v | _ => false end
       else if String.eqb f "address_id" then absent (b_address_id b)
       else if String.eqb f "shipping"
            then match b_shipping b with ShippingScalar v => absent v | _ => false end
            else false)
    fields.

(** Coupons take a fixed amount off, at most the subtotal. *)
Definition fixed_coupon (code : jsval) : outcome num :=
  match code with
  | JStr "OFF300" => Ok (of_Z 300)
  | JStr "OFF50" => Ok (of_Z 50)
  | JStr "OFF1" => Ok (of_Z 1)
  | _ => Throw (Thrown "Cupom invalido.")
  end.

Definition capped_discount (c : num) (subtotal : num) : outcome num :=
  Ok (Math_max (of_Z 0) (Math_min c subtotal)).

Definition shop : Env :=
  {| coupon := num;
     quote_result := unit;
     StringToNumber := read_number;
     pk_eq := fun v id =>
                match v with
                | JNum n => bool_decide (n = of_Z id)
                | JStr s => bool_decide (read_number s = of_Z id)
                | _ => false
                end;
     sku_eq := fun v sku => bool_decide (v = JStr sku);
     ensureFields := missing_fields;
     findActiveCoupon := fixed_coupon;
     computeDiscount := capped_discount;
     createPreference :=
       fun _ => Ok {| preferenceId := JStr "pref-1";
                      initPoint := JStr "https://pay.example/pref-1" |};
     shippingService_quote := fun _ => Ok tt;
     write_error := fun _ _ => None |}.

(** The same shop with the payment gateway down. *)
Definition shop_gateway_down : Env :=
  {| coupon := num;
     quote_result := unit;
     StringToNumber := read_number;
     pk_eq := pk_eq shop;
     sku_eq := sku_eq shop;
     ensureFields := missing_fields;
     findActiveCoupon := fixed_coupon;
     computeDiscount := capped_discount;
     createPreference := fun _ => Throw (Thrown "gateway timeout");
     shippingService_quote := fun _ => Ok tt;
     write_error := fun _ _ => None |}.

Definition product_A : product :=
  {| p_id := 1; p_sku := "A"; p_name := "Stack"; p_active := true;
     p_stockManaged := true; p_stockQuantity := of_Z 150;
     p_priceCents := of_Z 1000; p_weightGrams := of_Z 300 |}.

Definition product_B : product :=
  {| p_id := 2; p_sku := "B"; p_name := "Retired"; p_active := false;
     p_stockManaged := false; p_stockQuantity := of_Z 0;
     p_priceCents := of_Z 500; p_weightGrams := of_Z 100 |}.

Definition shop_db : db :=
  {| products := [product_A; product_B];
     addresses := [{| a_id := 7; a_userId := 42 |}; {| a_id := 8; a_userId := 99 |}];
     orders := [];
     orderItems := [] |}.

Definition customer : user :=
  {| u_id := 42; u_email := JStr "ana@example.com"; u_name := JStr "Ana";
     u_cpf := JStr "00000000000" |}.

(** [{ sku, qty, price_cents }] *)
Definition line (sku : string) (qty price_cents : jsval) : cart_line :=
  {| l_qty := qty; l_quantity := JUndefined; l_productId := JUndefined;
     l_id := JUndefined; l_sku := JStr sku; l_price_cents := price_cents |}.

Definition shipping (price_cents : Z) : shipping_field :=
  ShippingObject
    {| s_price_cents := JNum (of_Z price_cents); s_cost_cents := JUndefined;
       s_carrier := JStr "Correios"; s_name := JUndefined; s_service := JUndefined;
       s_delivery_time_days := JNum (of_Z 5) |}.

Definition no_query : req_query :=
  {| q_sku := None; q_id := None; q_productId := None; q_qty := None;
     q_cep := None; q_postal_code := None |}.

Definition order_request (items : list cart_line) (address_id : Z)
    (shipping_cents : Z) (coupon_code : jsval) : request :=
  {| body := {| b_items := ItemsArray items;
                b_address_id := JNum (of_Z address_id);
                b_shipping := shipping shipping_cents;
                b_coupon_code := coupon_code;
                b_destination := DestinationScalar JUndefined |};
     query := no_query;
     req_user := customer |}.

Definition quote_request_for (items : list cart_line) (cep : string) : request :=
  {| body := {| b_items := ItemsArray items;
                b_address_id := JUndefined;
                b_shipping := ShippingScalar JUndefined;
                b_coupon_code := JUndefined;
                b_destination :=
                  DestinationObject {| d_cep := JStr cep; d_postal_code := JUndefined |} |};
     query := no_query;
     req_user := customer |}.

(** [{ items: [null], address_id: 7, shipping: { price_cents: 500, ... } }] *)
Definition null_cart_request : request :=
  {| body := {| b_items := ItemsWithNull [] [];
                b_address_id := JNum (of_Z 7);
                b_shipping := shipping 500;
                b_coupon_code := JUndefined;
                b_destination := DestinationScalar JUndefined |};
     query := no_query;
     req_user := customer |}.

Definition no_shipping : shipping_selection :=
  shippingSelection_of (ShippingScalar JUndefined).

(** The scenario of the specification: two units of A at 10.00, shipping
    5.00, a coupon worth 3.00. *)
Definition scenario : request :=
  order_request [line "A" (JNum (of_Z 2)) (JNum (of_Z 1000))] 7 500 (JStr "OFF300").

(** The shop at rest: nothing pending, nothing logged. *)
Definition shop_open : world := at_rest shop_db.

(** The requests to the payment gateway found in a log. *)
Definition payment_requests (l : list event) : list preference_request :=
  flat_map (fun e => match e with Payment_createPreference r => [r] | _ => [] end) l.

(** [GET /quote?sku=...&qty=...&cep=...]: no body. *)
Definition query_for (sku qty cep : option string) : req_query :=
  {| q_sku := sku; q_id := None; q_productId := None; q_qty := qty;
     q_cep := cep; q_postal_code := None |}.

Definition get_quote (q : req_query) (items : raw_items) : request :=
  {| body := {| b_items := items;
                b_address_id := JUndefined;
                b_shipping := ShippingScalar JUndefined;
                b_coupon_code := JUndefined;
                b_destination := DestinationScalar JUndefined |};
     query := q;
     req_user := Sample.customer |}.

(** [{ productId, id, sku, qty: 1 }] *)
Definition named_line (productId id sku : jsval) : cart_line :=
  {| l_qty := JNum (of_Z 1); l_quantity := JUndefined; l_productId := productId;
     l_id := id; l_sku := sku; l_price_cents := JUndefined |}.

End Sample.

(** ** The allocation on binary64

    The loop of lines 149 to 160 on hardware doubles, a line being its unit
    price and its quantity. *)

Module Binary64.

Local Open Scope float_scope.

Definition two52 : float := 4503599627370496.

(** [Math.floor] *)
Definition floor (x : float) : float :=
  if PrimFloat.ltb (PrimFloat.abs x) two52 then
    let r := if PrimFloat.ltb x 0 then (x - two52) + two52 else (x + two52) - two52 in
    if PrimFloat.ltb x r then r - 1 else r
  else x.

(** [Math.round]: the nearest integer, ties towards plus infinity. *)
Definition round (x : float) : float :=
  let f := floor x in
  if PrimFloat.leb 0.5 (x - f) then f + 1 else f.

Definition max (a b : float) : float :=
  if PrimFloat.is_nan a || PrimFloat.is_nan b then PrimFloat.nan
  else if PrimFloat.ltb a b then b else a.

Definition min (a b : float) : float :=
  if PrimFloat.is_nan a || PrimFloat.is_nan b then PrimFloat.nan
  else if PrimFloat.ltb b a then b else a.

Definition visit (remainingDiscount : float) (mpItem : float * float) : float * (float * float) :=
  let '(unit_price, quantity) := mpItem in
  if PrimFloat.leb remainingDiscount 0 then (remainingDiscount, mpItem)
  else
    let itemTotalCents := round (unit_price * 100 * quantity) in
    if PrimFloat.leb itemTotalCents 0 then (remainingDiscount, mpItem)
    else
      let deduction := min itemTotalCents remainingDiscount in
      let newTotalCents := itemTotalCents - deduction in
      (remainingDiscount - deduction,
       (max 0 (round (newTotalCents / quantity) / 100), quantity)).

Fixpoint forEach (remainingDiscount : float) (mpItems : list (float * float))
  : list (float * float) :=
  match mpItems with
  | [] => []
  | mpItem :: rest =>
      let '(remaining, mpItem') := visit remainingDiscount mpItem in
      mpItem' :: forEach remaining rest
  end.

(** The payment lines of items given by price in cents and quantity, and of
    a shipping cost. *)
Definition lines (items : list (float * float)) (shippingCents : float)
  : list (float * float) :=
  map (fun '(unit_price_cents, qty) => (unit_price_cents / 100, qty)) items ++
  (if PrimFloat.ltb 0 shippingCents then [(shippingCents / 100, 1)] else []).

Definition subtotal (items : list (float * float)) : float :=
  fold_left (fun acc '(unit_price_cents, qty) => acc + unit_price_cents * qty) items 0.

Definition total (items : list (float * float)) (shippingCents discountCents : float) : float :=
  max 0 (subtotal items + shippingCents - discountCents).

(** [sum over the lines of round(unit_price * 100) * quantity] *)
Definition lines_total (mpItems : list (float * float)) : float :=
  fold_right (fun '(unit_price, quantity) acc => round (unit_price * 100) * quantity + acc)
             0 mpItems.

Definition of_Z (z : Z) : float := PrimFloat.of_uint63 (Uint63.of_Z z).

(** On one line of [q] units at [c] cents and a discount of [d] cents, the
    loop on doubles ends with the double nearest to the price in cents that
    [visit_cents] gives, over 100. *)
Definition agrees_with_cents (c q d : Z) : bool :=
  match forEach (of_Z d) (lines [(of_Z c, of_Z q)] 0) with
  | [(unit_price, _)] =>
      PrimFloat.eqb unit_price (of_Z (snd (visit_cents d c q)) / 100)
  | _ => false
  end.

Definition range (first count : nat) : list Z := map Z.of_nat (seq first count).

(** The number a double stands for (the sign of a zero is dropped). *)
Definition to_num (x : float) : num :=
  match Prim2SF x with
  | S754_zero _ => of_Q 0
  | S754_infinity s => Inf s
  | S754_nan => NaN
  | S754_finite s m e => of_Q ((if s then -1 else 1) * inject_Z (Zpos m) * 2 ^ e)%Q
  end.

(** The four operations of the runtime on [num] give, on the numbers two
    doubles stand for, the number the hardware result stands for. *)
Definition same_operations (a b : float) : bool :=
  bool_decide (to_num (a + b) = js_add (to_num a) (to_num b)) &&
  bool_decide (to_num (a - b) = js_sub (to_num a) (to_num b)) &&
  bool_decide (to_num (a * b) = js_mul (to_num a) (to_num b)) &&
  bool_decide (to_num (a / b) = js_div (to_num a) (to_num b)).

(** Doubles of every kind: whole and not, subnormal, the smallest normal,
    large, past [2^53], negative. *)
Definition samples : list float :=
  [1; 1 / 10; 14.5; 100; 1 / 3; -2.5;
   FloatOps.Z.ldexp 3 (-1074); FloatOps.Z.ldexp 1 (-1022);
   FloatOps.Z.ldexp 1 1023; 9007199254740992; 4503599627370497].

(** The loop of the source on doubles and on [num] leave the same unit
    prices, on items given by price in cents and quantity. *)
Definition same_prices (items : list (Z * Z)) (shippingCents discountCents : Z) : bool :=
  bool_decide
    (map (fun mpItem => to_num (fst mpItem))
         (forEach (of_Z discountCents)
            (lines (map (fun '(c, q) => (of_Z c, of_Z q)) items) (of_Z shippingCents)))
     = map unit_price
         (apply_discount (of_Q (inject_Z discountCents))
            (build_mpItems (map (fun '(c, q) => whole_item (Sample.product_A, c, q)) items)
                           Sample.no_shipping (of_Q (inject_Z shippingCents))))).

End Binary64.

(** * Properties *)

(** ** Rounding to binary64 *)

Section Rounding.

Local Open Scope Q_scope.

Lemma two_neq_0 : ~ 2 == 0.
Proof. discriminate. Qed.

Lemma pow2_pos k : 0 < 2 ^ k.
Proof. apply Qpower_0_lt. reflexivity. Qed.

Lemma pow2_succ k : 2 ^ (k + 1) == 2 * 2 ^ k.
Proof. rewrite Qpower_plus by exact two_neq_0. rewrite Qpower_1_r. ring. Qed.

Lemma pow2_pred k : 2 ^ (k - 1) == 2 ^ k / 2.
Proof. rewrite Qpower_minus by exact two_neq_0. rewrite Qpower_1_r. reflexivity. Qed.

Lemma pow2_Z k : (0 <= k)%Z -> 2 ^ k == inject_Z (2 ^ k).
Proof. intros H. rewrite Zpower_Qpower by exact H. reflexivity. Qed.

Lemma log2_bracket (x D N A B P : Q) :
  x * D == N -> P * B == A -> A <= N -> N < 2 * A -> B <= D -> D < 2 * B ->
  0 < P -> 0 < B ->
  x < 2 * P /\ P / 2 < x.
Proof.
  intros HxD HPB HA1 HA2 HB1 HB2 HP HB.
  assert (HD : 0 < D) by lra.
  assert (H1 : P * B <= P * D) by (apply Qmult_le_l; lra).
  assert (H2 : P * D < P * (2 * B)) by (apply Qmult_lt_l; lra).
  setoid_replace (P * (2 * B)) with (2 * (P * B)) using relation Qeq in H2 by ring.
  rewrite HPB in H1, H2.
  split.
  - apply (Qmult_lt_r _ _ D HD). rewrite HxD.
    setoid_replace (2 * P * D) with (2 * (P * D)) using relation Qeq by ring.
    set (PD := P * D) in *. clearbody PD. clear HxD HPB. lra.
  - apply (Qmult_lt_r _ _ D HD). rewrite HxD.
    setoid_replace (P / 2 * D) with ((1 # 2) * (P * D)) using relation Qeq by field.
    set (PD := P * D) in *. clearbody PD. clear HxD HPB. lra.
Qed.

Lemma Qlog2_spec x : 0 < x -> 2 ^ Qlog2 x <= x /\ x < 2 ^ (Qlog2 x + 1).
Proof.
  intros Hx. unfold Qlog2.
  destruct x as [n d]. cbn [Qnum Qden].
  assert (Hn : (0 < n)%Z) by (unfold Qlt in Hx; cbn in Hx; lia).
  set (a := Z.log2 n). set (b := Z.log2 (Z.pos d)). set (k := (a - b)%Z).
  destruct (Z.log2_spec n Hn) as [Ha1 Ha2]. fold a in Ha1, Ha2.
  destruct (Z.log2_spec (Z.pos d) ltac:(lia)) as [Hb1 Hb2]. fold b in Hb1, Hb2.
  assert (Ha0 : (0 <= a)%Z) by apply Z.log2_nonneg.
  assert (Hb0 : (0 <= b)%Z) by apply Z.log2_nonneg.
  assert (HxD : (n # d) * inject_Z (Z.pos d) == inject_Z n).
  { rewrite (Qmake_Qdiv n d). field. discriminate. }
  assert (HPB : 2 ^ k * 2 ^ b == 2 ^ a).
  { unfold k. rewrite Qpower_minus by exact two_neq_0. field.
    apply Qpower_not_0. exact two_neq_0. }
  assert (HA : 2 ^ a <= inject_Z n /\ inject_Z n < 2 * 2 ^ a).
  { rewrite (pow2_Z a Ha0). split.
    - rewrite <- Zle_Qle. exact Ha1.
    - replace 2 with (inject_Z 2) by reflexivity. rewrite <- inject_Z_mult, <- Zlt_Qlt.
      replace (2 * 2 ^ a)%Z with (2 ^ Z.succ a)%Z by (rewrite Z.pow_succ_r; lia). exact Ha2. }
  assert (HB : 2 ^ b <= inject_Z (Z.pos d) /\ inject_Z (Z.pos d) < 2 * 2 ^ b).
  { rewrite (pow2_Z b Hb0). split.
    - rewrite <- Zle_Qle. exact Hb1.
    - replace 2 with (inject_Z 2) by reflexivity. rewrite <- inject_Z_mult, <- Zlt_Qlt.
      replace (2 * 2 ^ b)%Z with (2 ^ Z.succ b)%Z by (rewrite Z.pow_succ_r; lia). exact Hb2. }
  destruct (log2_bracket _ _ _ _ _ _ HxD HPB (proj1 HA) (proj2 HA) (proj1 HB) (proj2 HB)
              (pow2_pos k) (pow2_pos b)) as [Hup Hlow].
  destruct (Qle_bool (2 ^ k) (n # d)) eqn:Hle.
  - apply Qle_bool_iff in Hle. split; [exact Hle|].
    rewrite pow2_succ. exact Hup.
  - assert (Hlt : n # d < 2 ^ k).
    { apply Qnot_le_lt. intros H. apply Qle_bool_iff in H. congruence. }
    split.
    + rewrite pow2_pred. apply Qlt_le_weak. exact Hlow.
    + replace (k - 1 + 1)%Z with k by lia. exact Hlt.
Qed.

Lemma round_half_even_comp x y : x == y -> round_half_even x = round_half_even y.
Proof.
  intros H. unfold round_half_even. rewrite (Qfloor_comp _ _ H).
  assert (Hc : Qcompare (x - inject_Z (Qfloor y)) (1 # 2)
               = Qcompare (y - inject_Z (Qfloor y)) (1 # 2)).
  { apply Qcompare_comp; [rewrite H|]; reflexivity. }
  rewrite Hc. reflexivity.
Qed.

Lemma round_half_even_Z z : round_half_even (inject_Z z) = z.
Proof.
  unfold round_half_even. rewrite Qfloor_Z.
  destruct (Qcompare _ _) eqn:Hc;
    [apply Qeq_alt in Hc; lra|reflexivity|apply Qgt_alt in Hc; lra].
Qed.

Lemma round_half_even_error x :
  Qabs (inject_Z (round_half_even x) - x) <= 1 # 2.
Proof.
  unfold round_half_even.
  pose proof (Qfloor_le x) as Hl. pose proof (Qlt_floor x) as Hu.
  rewrite inject_Z_plus in Hu. change (inject_Z 1) with 1 in Hu.
  set (f := Qfloor x) in *. clearbody f.
  apply Qabs_Qle_condition.
  destruct (Qcompare (x - inject_Z f) (1 # 2)) eqn:Hc.
  - apply Qeq_alt in Hc.
    destruct (Z.even f); [|rewrite inject_Z_plus; change (inject_Z 1) with 1]; split; lra.
  - apply Qlt_alt in Hc. split; lra.
  - apply Qgt_alt in Hc. rewrite inject_Z_plus. change (inject_Z 1) with 1. split; lra.
Qed.

Lemma round_half_even_nonneg x : 0 <= x -> (0 <= round_half_even x)%Z.
Proof.
  intros Hx. unfold round_half_even.
  assert (Hf : (0 <= Qfloor x)%Z).
  { rewrite <- (Qfloor_Z 0). apply Qfloor_resp_le. exact Hx. }
  destruct (Qcompare _ _); [destruct (Z.even _)| |]; lia.
Qed.

Lemma Qabs_pos_neq_0 x : ~ x == 0 -> 0 < Qabs x.
Proof.
  intros H. destruct (Qle_lt_or_eq _ _ (Qabs_nonneg x)) as [HH|HH]; [exact HH|].
  exfalso. apply H. revert HH. apply Qabs_case; intros; lra.
Qed.

Lemma Qlog2_unique x k : 2 ^ k <= x -> x < 2 ^ (k + 1) -> Qlog2 x = k.
Proof.
  intros H1 H2.
  assert (Hx : 0 < x) by (pose proof (pow2_pos k); lra).
  destruct (Qlog2_spec x Hx) as [H3 H4].
  assert (Ha : (Qlog2 x < k + 1)%Z).
  { apply (Qpower_lt_compat_l_inv 2); [|reflexivity]. lra. }
  assert (Hb : (k < Qlog2 x + 1)%Z).
  { apply (Qpower_lt_compat_l_inv 2); [|reflexivity]. lra. }
  lia.
Qed.

Lemma Qlog2_comp x y : 0 < x -> x == y -> Qlog2 x = Qlog2 y.
Proof.
  intros Hx H. destruct (Qlog2_spec x Hx) as [H1 H2].
  symmetry. apply Qlog2_unique; rewrite <- H; assumption.
Qed.

Lemma round_half_even_0 x : x == 0 -> round_half_even x = 0%Z.
Proof. intros H. rewrite (round_half_even_comp _ _ H). apply (round_half_even_Z 0). Qed.

Lemma round64_0 x : x == 0 -> round64 x == 0.
Proof.
  intros H. unfold round64. rewrite round_half_even_0; [ring|].
  transitivity (0 * 2 ^ (- binary64_exponent x)); [|ring].
  apply Qmult_comp; [exact H|reflexivity].
Qed.

Lemma round64_comp x y : x == y -> round64 x == round64 y.
Proof.
  intros H. destruct (Qeq_dec x 0) as [H0|H0].
  - rewrite (round64_0 x H0), (round64_0 y); [reflexivity|]. rewrite <- H. exact H0.
  - unfold round64, binary64_exponent.
    assert (HL : Qlog2 (Qabs x) = Qlog2 (Qabs y)).
    { apply Qlog2_comp; [|rewrite H; reflexivity].
      apply Qabs_pos_neq_0. exact H0. }
    rewrite HL.
    rewrite (round_half_even_comp (x * _) (y * 2 ^ (- Z.max (-1074) (Qlog2 (Qabs y) - 52)))).
    + reflexivity.
    + apply Qmult_comp; [exact H|reflexivity].
Qed.

Lemma pow2_add a b : 2 ^ (a + b) == 2 ^ a * 2 ^ b.
Proof. apply Qpower_plus. exact two_neq_0. Qed.

Lemma pow2_cancel e : 2 ^ (- e) * 2 ^ e == 1.
Proof. rewrite <- pow2_add. replace (- e + e)%Z with 0%Z by lia. reflexivity. Qed.

(** A number with at most 53 significant bits above the exponent [k] is
    left as it is. *)
Lemma round64_exact x k N :
  (-1074 <= k)%Z -> Qabs x < 2 ^ (k + 53) -> x == inject_Z N * 2 ^ k -> round64 x == x.
Proof.
  intros Hk Hx HN. destruct (Qeq_dec x 0) as [H0|H0].
  - rewrite (round64_0 x H0). symmetry. exact H0.
  - unfold round64. set (e := binary64_exponent x).
    assert (He : (e <= k)%Z).
    { unfold e, binary64_exponent.
      destruct (Qlog2_spec (Qabs x) (Qabs_pos_neq_0 x H0)) as [H1 _].
      assert ((Qlog2 (Qabs x) < k + 53)%Z).
      { apply (Qpower_lt_compat_l_inv 2); [|reflexivity]. lra. }
      lia. }
    assert (Hi : x * 2 ^ (- e) == inject_Z (N * 2 ^ (k - e))).
    { rewrite inject_Z_mult, <- pow2_Z by lia.
      transitivity (inject_Z N * 2 ^ k * 2 ^ (- e)).
      - apply Qmult_comp; [exact HN|reflexivity].
      - replace (k - e)%Z with (k + - e)%Z by lia. rewrite pow2_add. ring. }
    rewrite (round_half_even_comp _ _ Hi), round_half_even_Z, <- Hi.
    rewrite <- Qmult_assoc, pow2_cancel. ring.
Qed.

Lemma round64_Z z : (Z.abs z <= 2 ^ 53)%Z -> round64 (inject_Z z) == inject_Z z.
Proof.
  intros Hz. destruct (Z.eq_dec (Z.abs z) (2 ^ 53)%Z) as [Heq|Hne].
  - apply (round64_exact _ 1 (z / 2)%Z).
    + lia.
    + change (Qabs (inject_Z z)) with (inject_Z (Z.abs z)). rewrite pow2_Z by lia. rewrite <- Zlt_Qlt. rewrite Heq. reflexivity.
    + rewrite pow2_Z by lia. rewrite <- inject_Z_mult. apply inject_Z_injective.
      assert (z = 2 ^ 53 \/ z = - 2 ^ 53)%Z as [->| ->] by lia; reflexivity.
  - apply (round64_exact _ 0 z).
    + lia.
    + change (Qabs (inject_Z z)) with (inject_Z (Z.abs z)). rewrite pow2_Z by lia. rewrite <- Zlt_Qlt. simpl (0 + 53)%Z. lia.
    + rewrite Qpower_0_r. ring.
Qed.

Lemma round64_error x :
  Qabs (round64 x - x) <= (1 # 2) * 2 ^ binary64_exponent x.
Proof.
  unfold round64. set (e := binary64_exponent x).
  pose proof (round_half_even_error (x * 2 ^ (- e))) as H.
  set (r := inject_Z (round_half_even (x * 2 ^ (- e)))) in *. clearbody r.
  setoid_replace (r * 2 ^ e - x) with ((r - x * 2 ^ (- e)) * 2 ^ e) using relation Qeq.
  2:{ transitivity (r * 2 ^ e - x * (2 ^ (- e) * 2 ^ e)); [rewrite pow2_cancel|]; ring. }
  rewrite Qabs_Qmult. rewrite (Qabs_pos (2 ^ e)) by (apply Qlt_le_weak, pow2_pos).
  apply Qmult_le_compat_r; [exact H|apply Qlt_le_weak, pow2_pos].
Qed.

(** In the normal range the error is at most [2^-53] of the number. *)
Lemma round64_relative x :
  2 ^ (-1022) <= Qabs x -> Qabs (round64 x - x) <= Qabs x * 2 ^ (-53).
Proof.
  intros Hx. eapply Qle_trans; [apply round64_error|].
  assert (Hpos : 0 < Qabs x) by (pose proof (pow2_pos (-1022)); lra).
  destruct (Qlog2_spec (Qabs x) Hpos) as [H1 H2].
  assert (HL : (-1022 <= Qlog2 (Qabs x))%Z).
  { assert ((-1022 < Qlog2 (Qabs x) + 1)%Z); [|lia].
    apply (Qpower_lt_compat_l_inv 2); [|reflexivity]. lra. }
  unfold binary64_exponent. rewrite Z.max_r by lia.
  setoid_replace ((1 # 2) * 2 ^ (Qlog2 (Qabs x) - 52)) with (2 ^ Qlog2 (Qabs x) * 2 ^ (-53)) using relation Qeq.
  - apply Qmult_le_compat_r; [exact H1|apply Qlt_le_weak, pow2_pos].
  - replace (Qlog2 (Qabs x) - 52)%Z with (Qlog2 (Qabs x) + -53 + 1)%Z by lia.
    rewrite pow2_succ, pow2_add. ring.
Qed.

Lemma round64_nonneg x : 0 <= x -> 0 <= round64 x.
Proof.
  intros Hx. unfold round64. apply Qmult_le_0_compat.
  - replace 0 with (inject_Z 0) by reflexivity. rewrite <- Zle_Qle.
    apply round_half_even_nonneg. apply Qmult_le_0_compat; [exact Hx|].
    apply Qlt_le_weak, pow2_pos.
  - apply Qlt_le_weak, pow2_pos.
Qed.

Lemma round_half_even_bound x n :
  Qabs x < inject_Z n -> (Z.abs (round_half_even x) <= n)%Z.
Proof.
  intros Hx. pose proof (round_half_even_error x) as He.
  apply Qabs_Qlt_condition in Hx. apply Qabs_Qle_condition in He.
  set (m := round_half_even x) in *.
  assert (H1 : inject_Z m < inject_Z (n + 1)).
  { rewrite inject_Z_plus. change (inject_Z 1) with 1. lra. }
  assert (H2 : inject_Z (- n - 1) < inject_Z m).
  { unfold Z.sub. rewrite inject_Z_plus, !inject_Z_opp. change (inject_Z 1) with 1. lra. }
  rewrite <- Zlt_Qlt in H1, H2. lia.
Qed.

(** A rounded number is left as it is. *)
Lemma round64_idem x : round64 (round64 x) == round64 x.
Proof.
  destruct (Qeq_dec x 0) as [H0|H0].
  { rewrite (round64_comp _ _ (round64_0 x H0)). rewrite (round64_0 x H0).
    apply round64_0. reflexivity. }
  unfold round64 at 2 3. set (e := binary64_exponent x).
  set (m := round_half_even (x * 2 ^ (- e))).
  assert (He : (-1074 <= e)%Z) by (unfold e, binary64_exponent; lia).
  assert (Hm : (Z.abs m <= 2 ^ 53)%Z).
  { apply round_half_even_bound.
    destruct (Qlog2_spec (Qabs x) (Qabs_pos_neq_0 x H0)) as [_ H2].
    rewrite Qabs_Qmult, (Qabs_pos (2 ^ (- e))) by (apply Qlt_le_weak, pow2_pos).
    rewrite <- (pow2_Z 53) by lia.
    apply (Qmult_lt_r _ _ (2 ^ e) (pow2_pos e)).
    rewrite <- Qmult_assoc, pow2_cancel, Qmult_1_r, <- pow2_add.
    eapply Qlt_le_trans; [exact H2|].
    apply Qpower_le_compat_l; [|discriminate].
    unfold e, binary64_exponent. lia. }
  assert (Hpos : 0 < 2 ^ e) by apply pow2_pos.
  destruct (Z.eq_dec (Z.abs m) (2 ^ 53)%Z) as [Heq|Hne].
  - apply (round64_exact _ (e + 1) (m / 2)%Z); [lia| |].
    + rewrite Qabs_Qmult, (Qabs_pos (2 ^ e)) by (apply Qlt_le_weak; exact Hpos).
      change (Qabs (inject_Z m)) with (inject_Z (Z.abs m)). rewrite Heq.
      rewrite <- (pow2_Z 53) by lia. rewrite <- pow2_add.
      apply Qpower_lt_compat_l; [lia|reflexivity].
    + rewrite pow2_succ.
      assert (Hh : inject_Z m == inject_Z (m / 2) * 2).
      { change 2 with (inject_Z 2). rewrite <- inject_Z_mult. apply inject_Z_injective.
        assert (m = 2 ^ 53 \/ m = - 2 ^ 53)%Z as [->| ->] by lia; reflexivity. }
      rewrite Hh. ring.
  - apply (round64_exact _ e m); [exact He| |reflexivity].
    rewrite Qabs_Qmult, (Qabs_pos (2 ^ e)) by (apply Qlt_le_weak; exact Hpos).
    change (Qabs (inject_Z m)) with (inject_Z (Z.abs m)).
    rewrite (Qmult_comm (inject_Z _)), pow2_add, (pow2_Z 53) by lia.
    apply Qmult_lt_l; [exact Hpos|]. rewrite <- Zlt_Qlt. lia.
Qed.

End Rounding.

(** ** Arithmetic of whole numbers in [num] *)

Lemma Q2Qc_inj_Z a b : Q2Qc (inject_Z a) = Q2Qc (inject_Z b) -> a = b.
Proof.
  intros H. apply (f_equal this) in H. simpl in H.
  assert (Hq : (inject_Z a == inject_Z b)%Q).
  { rewrite <- (Qred_correct (inject_Z a)), <- (Qred_correct (inject_Z b)), H. reflexivity. }
  unfold Qeq in Hq. simpl in Hq. lia.
Qed.

Lemma of_Z_inj a b : of_Z a = of_Z b -> a = b.
Proof. unfold of_Z. intros H. apply Q2Qc_inj_Z. congruence. Qed.

Lemma of_Z_add a b : (of_Z a + of_Z b)%num = of_Z (a + b).
Proof.
  unfold of_Z; simpl. f_equal. apply Qc_is_canon. simpl.
  rewrite !Qred_correct. rewrite inject_Z_plus. reflexivity.
Qed.

Lemma of_Z_opp a : num_opp (of_Z a) = of_Z (- a).
Proof.
  unfold of_Z; simpl. f_equal. apply Qc_is_canon. simpl.
  rewrite !Qred_correct. rewrite inject_Z_opp. reflexivity.
Qed.

Lemma of_Z_sub a b : (of_Z a - of_Z b)%num = of_Z (a - b).
Proof. unfold num_sub. rewrite of_Z_opp, of_Z_add. f_equal. Qed.

Lemma of_Z_mul a b : (of_Z a * of_Z b)%num = of_Z (a * b).
Proof.
  unfold of_Z; simpl. f_equal. apply Qc_is_canon. simpl.
  rewrite !Qred_correct. rewrite inject_Z_mult. reflexivity.
Qed.

Lemma of_Z_le a b : (of_Z a <=? of_Z b)%num = (a <=? b).
Proof.
  unfold of_Z; simpl.
  destruct (Z.leb_spec a b) as [H|H].
  - apply bool_decide_eq_true_2. unfold Qcle, Q2Qc; cbn [this].
    rewrite Qred_le, <- Zle_Qle. exact H.
  - apply bool_decide_eq_false_2. unfold Qcle, Q2Qc; cbn [this].
    rewrite Qred_le, <- Zle_Qle. lia.
Qed.

Lemma of_Z_lt a b : (of_Z a <? of_Z b)%num = (a <? b).
Proof.
  unfold of_Z; simpl.
  destruct (Z.ltb_spec a b) as [H|H].
  - apply bool_decide_eq_true_2. unfold Qclt, Q2Qc; cbn [this].
    rewrite Qred_lt, <- Zlt_Qlt. exact H.
  - apply bool_decide_eq_false_2. unfold Qclt, Q2Qc; cbn [this].
    rewrite Qred_lt, <- Zlt_Qlt. lia.
Qed.

Lemma Qc_zero_of_Z z : Qc_zero (Q2Qc (inject_Z z)) = (z =? 0).
Proof.
  unfold Qc_zero. destruct (Z.eqb_spec z 0) as [->|H].
  - apply bool_decide_eq_true_2. reflexivity.
  - apply bool_decide_eq_false_2. intros Hq. apply H. apply Q2Qc_inj_Z. exact Hq.
Qed.

Lemma Math_min_of_Z a b : Math_min (of_Z a) (of_Z b) = of_Z (Z.min a b).
Proof.
  change (Math_min (of_Z a) (of_Z b))
    with (if (of_Z b <? of_Z a)%num then of_Z b else of_Z a).
  rewrite of_Z_lt. destruct (Z.ltb_spec b a); f_equal; lia.
Qed.

Lemma Math_max_of_Z a b : Math_max (of_Z a) (of_Z b) = of_Z (Z.max a b).
Proof.
  change (Math_max (of_Z a) (of_Z b))
    with (if (of_Z a <? of_Z b)%num then of_Z b else of_Z a).
  rewrite of_Z_lt. destruct (Z.ltb_spec a b); f_equal; lia.
Qed.

Lemma Math_round_of_Z a : Math_round (of_Z a) = of_Z a.
Proof.
  unfold Math_round, of_Z at 1. f_equal.
  erewrite Qfloor_comp.
  2:{ simpl. rewrite !Qred_correct. reflexivity. }
  unfold Qplus, inject_Z. simpl.
  rewrite Z.mul_1_r.
  replace (a * 2 + 1) with (1 + a * 2) by lia. rewrite Z.div_add by lia. reflexivity.
Qed.

(** ** The arithmetic of the runtime on whole numbers and on cents *)

Lemma this_Q2Qc x : (this (Q2Qc x) == x)%Q.
Proof. apply Qred_correct. Qed.

Lemma Q2Qc_this (q : Qc) : Q2Qc q = q.
Proof. apply Qc_is_canon. apply this_Q2Qc. Qed.

Lemma Q2Qc_comp x y : (x == y)%Q -> Q2Qc x = Q2Qc y.
Proof. intros H. apply Qc_is_canon. rewrite !this_Q2Qc. exact H. Qed.

Lemma pow2_1024_big x : (Qabs x <= inject_Z (2 ^ 1000))%Q -> Qle_bool (2 ^ 1024)%Q (Qabs x) = false.
Proof.
  intros H. destruct (Qle_bool _ _) eqn:E; [|reflexivity].
  apply Qle_bool_iff in E.
  assert (C : (inject_Z (2 ^ 1000) < 2 ^ 1024)%Q).
  { rewrite (pow2_Z 1024) by lia. rewrite <- Zlt_Qlt. reflexivity. }
  exfalso. apply (Qlt_irrefl (2 ^ 1024)%Q).
  eapply Qle_lt_trans; [exact E|]. eapply Qle_lt_trans; [exact H|exact C].
Qed.

Lemma binary64_fin (q : Qc) :
  (Qabs (round64 q) <= inject_Z (2 ^ 1000))%Q -> binary64 q = Fin (Q2Qc (round64 q)).
Proof. intros H. unfold binary64. cbv zeta. rewrite pow2_1024_big by exact H. reflexivity. Qed.

Lemma binary64_of_Z z : Z.abs z <= 2 ^ 53 -> binary64 (Q2Qc (inject_Z z)) = of_Z z.
Proof.
  intros Hz.
  assert (E : (round64 (Q2Qc (inject_Z z)) == inject_Z z)%Q).
  { rewrite (round64_comp _ _ (this_Q2Qc _)). apply round64_Z. exact Hz. }
  rewrite binary64_fin.
  - unfold of_Z. f_equal. apply Q2Qc_comp. exact E.
  - rewrite E. change (Qabs (inject_Z z)) with (inject_Z (Z.abs z)).
    rewrite <- Zle_Qle. etransitivity; [exact Hz|]. apply Z.pow_le_mono_r; lia.
Qed.

Lemma Qle_bool_comp a b c : (b == c)%Q -> Qle_bool a b = Qle_bool a c.
Proof.
  intros H. destruct (Qle_bool a c) eqn:E.
  - apply Qle_bool_iff. apply Qle_bool_iff in E. rewrite H. exact E.
  - destruct (Qle_bool a b) eqn:E'; [|reflexivity].
    apply Qle_bool_iff in E'. rewrite H in E'. apply Qle_bool_iff in E'. congruence.
Qed.

(** The result of an operation is a binary64 number: rounding it again
    changes nothing. *)
Lemma to_binary64_idem a : to_binary64 (to_binary64 a) = to_binary64 a.
Proof.
  destruct a as [|s|q]; try reflexivity. cbn [to_binary64].
  destruct (Qle_bool (2 ^ 1024)%Q (Qabs (round64 q))) eqn:Hov.
  - assert (Hb : binary64 q = Inf (Qc_neg q))
      by (unfold binary64; cbv zeta; rewrite Hov; reflexivity).
    rewrite Hb. reflexivity.
  - assert (Hb : binary64 q = Fin (Q2Qc (round64 q)))
      by (unfold binary64; cbv zeta; rewrite Hov; reflexivity).
    rewrite Hb. cbn [to_binary64]. unfold binary64. cbv zeta.
    assert (E : (round64 (Q2Qc (round64 q)) == round64 q)%Q).
    { rewrite (round64_comp _ _ (this_Q2Qc _)). apply round64_idem. }
    rewrite (Qle_bool_comp _ _ (Qabs (round64 q))) by (rewrite E; reflexivity).
    rewrite Hov. f_equal. apply Q2Qc_comp. exact E.
Qed.

Lemma js_add_of_Z a b : Z.abs (a + b) <= 2 ^ 53 -> (of_Z a + of_Z b)%js = of_Z (a + b).
Proof.
  intros H. unfold js_add. rewrite of_Z_add. apply binary64_of_Z. exact H.
Qed.

Lemma js_sub_of_Z a b : Z.abs (a - b) <= 2 ^ 53 -> (of_Z a - of_Z b)%js = of_Z (a - b).
Proof.
  intros H. unfold js_sub. rewrite of_Z_sub. apply binary64_of_Z. exact H.
Qed.

Lemma js_mul_of_Z a b : Z.abs (a * b) <= 2 ^ 53 -> (of_Z a * of_Z b)%js = of_Z (a * b).
Proof.
  intros H. unfold js_mul. rewrite of_Z_mul. apply binary64_of_Z. exact H.
Qed.

Lemma roundoff_pow2 : (2 ^ (-53) == roundoff)%Q.
Proof. reflexivity. Qed.

(** In the range of the amounts of an order, rounding moves a positive
    number by at most [2^-53] of itself. *)
Lemma binary64_near (q : Qc) :
  (1 # 2 ^ 60 <= q)%Q -> (q <= inject_Z (2 ^ 60))%Q ->
  exists r : Qc, binary64 q = Fin r /\ (Qabs (r - q) <= q * roundoff)%Q.
Proof.
  intros Hlo Hhi.
  assert (Hpos : (0 < q)%Q) by (eapply Qlt_le_trans; [|exact Hlo]; reflexivity).
  assert (Habs : (Qabs q == q)%Q) by (apply Qabs_pos, Qlt_le_weak, Hpos).
  assert (Hrel : (Qabs (round64 q - q) <= q * roundoff)%Q).
  { assert (Hn : (2 ^ (-1022) <= Qabs q)%Q).
    { rewrite Habs. eapply Qle_trans; [|exact Hlo].
      apply Qle_bool_imp_le. vm_compute. reflexivity. }
    pose proof (round64_relative q Hn) as Hr.
    rewrite roundoff_pow2 in Hr.
    eapply Qle_trans; [exact Hr|]. rewrite Habs. apply Qle_refl. }
  exists (Q2Qc (round64 q)). split.
  - apply binary64_fin.
    apply Qabs_Qle_condition in Hrel.
    apply Qabs_Qle_condition.
    assert (C1 : (inject_Z (2 ^ 60) * 2 <= inject_Z (2 ^ 1000))%Q).
    { rewrite <- (inject_Z_mult _ 2), <- Zle_Qle. vm_compute. discriminate. }
    assert (C2 : (q * roundoff <= q)%Q).
    { rewrite <- (Qmult_1_r q) at 2. apply Qmult_le_l; [exact Hpos|]. discriminate. }
    set (B := inject_Z (2 ^ 1000)) in *. set (A := inject_Z (2 ^ 60)) in *.
    set (e := (this q * roundoff)%Q) in *. set (r := round64 q) in *.
    clearbody B A e r. split; lra.
  - rewrite this_Q2Qc. exact Hrel.
Qed.

(** [Math.round] of a number within a half of an integer. *)
Lemma Math_round_near (r : Qc) (z : Z) :
  (inject_Z z - (1 # 2) <= r)%Q -> (r < inject_Z z + (1 # 2))%Q ->
  Math_round (Fin r) = of_Z z.
Proof.
  intros Hlo Hhi. unfold Math_round. f_equal.
  assert (E : (this (r + Q2Qc (1 # 2))%Qc == r + (1 # 2))%Q).
  { unfold Qcplus. rewrite this_Q2Qc. rewrite (this_Q2Qc (1 # 2)). reflexivity. }
  rewrite (Qfloor_comp _ _ E).
  assert (H1 : (inject_Z z <= r + (1 # 2))%Q) by lra.
  assert (H2 : (r + (1 # 2) < inject_Z (z + 1))%Q).
  { rewrite inject_Z_plus. change (inject_Z 1) with 1%Q. lra. }
  apply Qfloor_resp_le in H1. rewrite Qfloor_Z in H1.
  assert (H3 : Qfloor (r + (1 # 2)) < z + 1).
  { rewrite Zlt_Qlt. eapply Qle_lt_trans; [apply Qfloor_le|exact H2]. }
  lia.
Qed.

Lemma binary64_comp_Q (x y : Q) : (x == y)%Q -> binary64 (Q2Qc x) = binary64 (Q2Qc y).
Proof. intros H. rewrite (Q2Qc_comp _ _ H). reflexivity. Qed.

Lemma js_mul_Fin (a b : Qc) : (Fin a * Fin b)%js = binary64 (Q2Qc (a * b)%Q).
Proof. reflexivity. Qed.

Lemma js_div_of_Z n q :
  0 < q -> (of_Z n / of_Z q)%js = binary64 (Q2Qc (inject_Z n * (1 # Z.to_pos q))%Q).
Proof.
  intros Hq. unfold js_div, of_Z. cbn [num_div]. rewrite Qc_zero_of_Z.
  destruct (Z.eqb_spec q 0) as [->|_]; [lia|]. cbn [to_binary64].
  rewrite <- (Q2Qc_this (_ / _)%Qc). apply binary64_comp_Q.
  unfold Qcdiv, Qcmult, Qcinv. rewrite !this_Q2Qc.
  destruct q as [|p|p]; try lia. reflexivity.
Qed.

(** The double nearest to [c / 100], for a positive number of cents. *)
Lemma cents_near c :
  1 <= c <= 2 ^ 53 ->
  exists r : Qc, (of_Z c / of_Z 100)%js = Fin r /\
    (Qabs (r * 100 - inject_Z c) <= inject_Z c * roundoff)%Q.
Proof.
  intros Hc. rewrite js_div_of_Z by lia.
  set (x := (inject_Z c * (1 # Z.to_pos 100))%Q).
  assert (Hx : (this (Q2Qc x) == inject_Z c * (1 # 100))%Q) by apply this_Q2Qc.
  assert (H1 : (1 <= inject_Z c)%Q) by (change 1%Q with (inject_Z 1); rewrite <- Zle_Qle; lia).
  assert (H2 : (inject_Z c <= inject_Z (2 ^ 53))%Q) by (rewrite <- Zle_Qle; lia).
  destruct (binary64_near (Q2Qc x)) as (r & Hr & Hnear).
  - rewrite Hx. change (inject_Z (2 ^ 53)) with (9007199254740992 # 1)%Q in H2.
    change (1 # 2 ^ 60)%Q with (1 # 1152921504606846976)%Q.
    set (C := inject_Z c) in *. clearbody C. lra.
  - rewrite Hx. change (inject_Z (2 ^ 53)) with (9007199254740992 # 1)%Q in H2.
    change (inject_Z (2 ^ 60)) with (1152921504606846976 # 1)%Q.
    set (C := inject_Z c) in *. clearbody C. lra.
  - exists r. split; [exact Hr|].
    apply Qabs_Qle_condition in Hnear. apply Qabs_Qle_condition.
    unfold roundoff in *.
    set (C := inject_Z c) in *. set (q := this (Q2Qc x)) in *. set (rr := this r) in *.
    clearbody C q rr. split; lra.
Qed.

Lemma binary64_near_Q (x : Q) :
  (1 # 2 ^ 60 <= x)%Q -> (x <= inject_Z (2 ^ 60))%Q ->
  exists r : Qc, binary64 (Q2Qc x) = Fin r /\ (Qabs (r - x) <= x * roundoff)%Q.
Proof.
  intros Hlo Hhi. destruct (binary64_near (Q2Qc x)) as (r & Hr & Hnear).
  - rewrite this_Q2Qc. exact Hlo.
  - rewrite this_Q2Qc. exact Hhi.
  - exists r. split; [exact Hr|]. rewrite this_Q2Qc in Hnear. exact Hnear.
Qed.

Lemma js_mul_Fin_of_Z (a : Qc) z :
  (Fin a * of_Z z)%js = binary64 (Q2Qc (a * inject_Z z)%Q).
Proof.
  unfold of_Z. rewrite js_mul_Fin. apply binary64_comp_Q.
  rewrite this_Q2Qc. reflexivity.
Qed.

Lemma zero_cents : (of_Z 0 / of_Z 100)%js = of_Z 0.
Proof.
  rewrite js_div_of_Z by lia.
  rewrite (binary64_comp_Q _ (inject_Z 0)) by reflexivity.
  apply binary64_of_Z. cbn. lia.
Qed.

Lemma js_mul_0_l z : (of_Z 0 * of_Z z)%js = of_Z 0.
Proof. rewrite js_mul_of_Z by (cbn; lia). reflexivity. Qed.

Ltac pow_constants :=
  change (inject_Z (2 ^ 50)) with (1125899906842624 # 1)%Q in *;
  change (inject_Z (2 ^ 53)) with (9007199254740992 # 1)%Q in *;
  change (inject_Z (2 ^ 60)) with (1152921504606846976 # 1)%Q in *;
  change (1 # 2 ^ 60)%Q with (1 # 1152921504606846976)%Q in *;
  unfold roundoff in *.

(** [c / 100 * 100], rounded twice, is within about [2 * 2^-53] of [c], relatively. *)
Lemma cents_back_near c :
  1 <= c <= 2 ^ 50 ->
  exists r : Qc, (of_Z c / of_Z 100 * of_Z 100)%js = Fin r /\
    (inject_Z c * (1 - 2 * roundoff) <= r)%Q /\ (r <= inject_Z c * (1 + (201 # 100) * roundoff))%Q.
Proof.
  intros Hc. destruct (cents_near c ltac:(lia)) as (r1 & Hr1 & H1).
  assert (Hc1 : (1 <= inject_Z c)%Q) by (change 1%Q with (inject_Z 1); rewrite <- Zle_Qle; lia).
  assert (Hc2 : (inject_Z c <= inject_Z (2 ^ 50))%Q) by (rewrite <- Zle_Qle; lia).
  apply Qabs_Qle_condition in H1.
  change (inject_Z 100) with (100 # 1)%Q.
  destruct (binary64_near_Q (r1 * (100 # 1))%Q) as (r2 & Hr2 & H2).
  - pow_constants. set (C := inject_Z c) in *. set (a := this r1) in *. clearbody C a. lra.
  - pow_constants. set (C := inject_Z c) in *. set (a := this r1) in *. clearbody C a. lra.
  - exists r2. split; [rewrite Hr1, js_mul_Fin_of_Z; exact Hr2|].
    apply Qabs_Qle_condition in H2. pow_constants.
    set (C := inject_Z c) in *. set (a := this r1) in *. set (b := this r2) in *.
    clearbody C a b. split; lra.
Qed.

(** [Math.round(unit_price * 100 * quantity)] of a line in whole cents. *)
Lemma item_total_whole c q :
  0 <= c -> 0 < q -> c * q <= 2 ^ 50 ->
  Math_round (of_Z c / of_Z 100 * of_Z 100 * of_Z q)%js = of_Z (c * q).
Proof.
  intros Hc Hq Hcq.
  destruct (Z.eq_dec c 0) as [->|Hc0].
  { rewrite zero_cents, !js_mul_0_l. apply Math_round_of_Z. }
  assert (Hc' : 1 <= c <= 2 ^ 50) by nia.
  destruct (cents_back_near c Hc') as (r2 & -> & Hlo & Hhi).
  rewrite js_mul_Fin_of_Z.
  assert (HT1 : (1 <= inject_Z (c * q))%Q)
    by (change 1%Q with (inject_Z 1); rewrite <- Zle_Qle; nia).
  assert (HT2 : (inject_Z (c * q) <= inject_Z (2 ^ 50))%Q) by (rewrite <- Zle_Qle; lia).
  assert (Hq0 : (0 <= inject_Z q)%Q) by (change 0%Q with (inject_Z 0); rewrite <- Zle_Qle; lia).
  assert (Hx1 : (inject_Z (c * q) * (1 - 2 * roundoff) <= r2 * inject_Z q)%Q).
  { rewrite inject_Z_mult.
    setoid_replace (inject_Z c * inject_Z q * (1 - 2 * roundoff))%Q
      with (inject_Z c * (1 - 2 * roundoff) * inject_Z q)%Q using relation Qeq by ring.
    apply Qmult_le_compat_r; assumption. }
  assert (Hx2 : (r2 * inject_Z q <= inject_Z (c * q) * (1 + (201 # 100) * roundoff))%Q).
  { rewrite inject_Z_mult.
    setoid_replace (inject_Z c * inject_Z q * (1 + (201 # 100) * roundoff))%Q
      with (inject_Z c * (1 + (201 # 100) * roundoff) * inject_Z q)%Q using relation Qeq by ring.
    apply Qmult_le_compat_r; assumption. }
  set (T := inject_Z (c * q)) in *. set (x := (r2 * inject_Z q)%Q) in *.
  destruct (binary64_near_Q x) as (r3 & -> & H3).
  - pow_constants. clearbody T x. lra.
  - pow_constants. clearbody T x. lra.
  - apply Math_round_near; fold T; apply Qabs_Qle_condition in H3; pow_constants;
      set (b := this r3) in *; clearbody T x b; lra.
Qed.

(** [Math.round(unit_price * 100)] of a line in whole cents. *)
Lemma unit_cents_whole c :
  0 <= c <= 2 ^ 50 -> Math_round (of_Z c / of_Z 100 * of_Z 100)%js = of_Z c.
Proof.
  intros Hc. destruct (Z.eq_dec c 0) as [->|Hc0].
  { rewrite zero_cents, js_mul_0_l. apply Math_round_of_Z. }
  destruct (cents_back_near c ltac:(lia)) as (r2 & -> & Hlo & Hhi).
  assert (Hc1 : (1 <= inject_Z c)%Q) by (change 1%Q with (inject_Z 1); rewrite <- Zle_Qle; lia).
  assert (Hc2 : (inject_Z c <= inject_Z (2 ^ 50))%Q) by (rewrite <- Zle_Qle; lia).
  apply Math_round_near; pow_constants;
    set (C := inject_Z c) in *; set (b := this r2) in *; clearbody C b; lra.
Qed.

Lemma binary64_exact (x : Q) k N :
  -1074 <= k -> (Qabs x < 2 ^ (k + 53))%Q -> (x == inject_Z N * 2 ^ k)%Q ->
  (Qabs x <= inject_Z (2 ^ 1000))%Q ->
  binary64 (Q2Qc x) = Fin (Q2Qc x).
Proof.
  intros Hk Hx HN Hb.
  assert (E : (round64 (Q2Qc x) == x)%Q).
  { rewrite (round64_comp _ _ (this_Q2Qc x)). exact (round64_exact x k N Hk Hx HN). }
  rewrite binary64_fin.
  - f_equal. apply Q2Qc_comp. exact E.
  - rewrite E. exact Hb.
Qed.

Lemma inject_Z_sub a b : (inject_Z (a - b) == inject_Z a - inject_Z b)%Q.
Proof. unfold Z.sub. rewrite inject_Z_plus, inject_Z_opp. reflexivity. Qed.

Lemma scale_bounds (r x e q N : Q) :
  (0 < q)%Q -> (x * q == N)%Q -> (Qabs (r - x) <= x * e)%Q ->
  (N - N * e <= r * q)%Q /\ (r * q <= N + N * e)%Q.
Proof.
  intros Hq HN H. apply Qabs_Qle_condition in H. destruct H as [H1 H2].
  apply (Qmult_le_compat_r _ _ q) in H1, H2; try (apply Qlt_le_weak; exact Hq).
  setoid_replace (- (x * e) * q)%Q with (- (x * q * e))%Q using relation Qeq in H1 by ring.
  setoid_replace ((r - x) * q)%Q with (r * q - x * q)%Q using relation Qeq in H1 by ring.
  setoid_replace ((r - x) * q)%Q with (r * q - x * q)%Q using relation Qeq in H2 by ring.
  setoid_replace (x * e * q)%Q with (x * q * e)%Q using relation Qeq in H2 by ring.
  rewrite HN in H1, H2.
  set (rq := (r * q)%Q) in *. set (Ne := (N * e)%Q) in *. clearbody rq Ne. clear HN.
  split; lra.
Qed.

(** [Math.round(n / q)] on whole numbers is the rounded quotient. *)
Lemma Math_round_div_whole n q :
  0 <= n <= 2 ^ 50 -> 0 < q <= 2 ^ 50 ->
  Math_round (of_Z n / of_Z q)%js = of_Z (round_div n q).
Proof.
  intros Hn Hq. rewrite js_div_of_Z by lia.
  destruct (Z.eq_dec n 0) as [->|Hn0].
  { rewrite (binary64_comp_Q _ (inject_Z 0)) by (unfold Qeq; cbn; lia).
    rewrite binary64_of_Z by (cbn; lia). rewrite Math_round_of_Z.
    unfold round_div. rewrite Z.div_small by lia. reflexivity. }
  set (x := (inject_Z n * (1 # Z.to_pos q))%Q).
  set (k := round_div n q).
  assert (Hk : 2 * q * k <= 2 * n + q < 2 * q * k + 2 * q).
  { unfold k, round_div.
    pose proof (Z.div_mod (2 * n + q) (2 * q) ltac:(lia)) as E.
    pose proof (Z.mod_pos_bound (2 * n + q) (2 * q) ltac:(lia)) as B. lia. }
  assert (Hk0 : 0 <= k) by (unfold k, round_div; apply Z.div_pos; lia).
  assert (Hk1 : k <= 2 ^ 50 + 1) by nia.
  assert (Hxq : (x * inject_Z q == inject_Z n)%Q).
  { unfold x. destruct q as [|p|p]; try lia. unfold Qeq. cbn. lia. }
  assert (Hq0 : (0 < inject_Z q)%Q) by (change 0%Q with (inject_Z 0); rewrite <- Zlt_Qlt; lia).
  assert (Hq2 : (inject_Z q <= inject_Z (2 ^ 50))%Q) by (rewrite <- Zle_Qle; lia).
  assert (Hn1 : (1 <= inject_Z n)%Q) by (change 1%Q with (inject_Z 1); rewrite <- Zle_Qle; lia).
  assert (Hn2 : (inject_Z n <= inject_Z (2 ^ 50))%Q) by (rewrite <- Zle_Qle; lia).
  assert (Hx1 : (1 # 2 ^ 50 <= x)%Q).
  { unfold x. destruct q as [|p|p]; try lia. unfold Qle. cbn.
    assert (Z.pos p <= 2 ^ 50) by lia. 
    change (Z.pos (2 ^ 50)) with (2 ^ 50). nia. }
  assert (Hx2 : (x <= inject_Z n)%Q).
  { unfold x. destruct q as [|p|p]; try lia. unfold Qle. cbn. nia. }
  destruct (Z.eq_dec (2 * n + q) (2 * q * k)) as [Htie|Hno].
  - (* a tie: the quotient is a half-integer *)
    assert (Ex : (x == inject_Z (2 * k - 1) * 2 ^ (-1))%Q).
    { apply (Qmult_inj_r _ _ (inject_Z q)); [intros H; rewrite H in Hq0; discriminate|].
      rewrite Hxq. change (2 ^ (-1))%Q with (1 # 2)%Q.
      setoid_replace (inject_Z (2 * k - 1) * (1 # 2) * inject_Z q)%Q
        with ((1 # 2) * inject_Z ((2 * k - 1) * q))%Q using relation Qeq
        by (rewrite inject_Z_mult; ring).
      replace ((2 * k - 1) * q) with (2 * n) by lia.
      rewrite inject_Z_mult. change (inject_Z 2) with 2%Q. field. }
    rewrite (binary64_exact x (-1) (2 * k - 1)); [|lia| |exact Ex|].
    + apply Math_round_near; rewrite this_Q2Qc, Ex; change (2 ^ (-1))%Q with (1 # 2)%Q;
        rewrite inject_Z_sub, inject_Z_mult; change (inject_Z 2) with 2%Q;
        change (inject_Z 1) with 1%Q; set (K := inject_Z k); clearbody K; lra.
    + rewrite Qabs_pos by (pow_constants; change (1 # 2 ^ 50)%Q with (1 # 1125899906842624)%Q in Hx1; lra).
      eapply Qle_lt_trans; [exact Hx2|]. eapply Qle_lt_trans; [exact Hn2|].
      rewrite (pow2_Z (-1 + 53)) by lia. rewrite <- Zlt_Qlt. reflexivity.
    + rewrite Qabs_pos by (pow_constants; change (1 # 2 ^ 50)%Q with (1 # 1125899906842624)%Q in Hx1; lra).
      eapply Qle_trans; [exact Hx2|]. eapply Qle_trans; [exact Hn2|].
      rewrite <- Zle_Qle. apply Z.pow_le_mono_r; lia.
  - destruct (binary64_near_Q x) as (r & -> & Hr).
    + eapply Qle_trans; [|exact Hx1]. unfold Qle. cbn. lia.
    + eapply Qle_trans; [exact Hx2|]. eapply Qle_trans; [exact Hn2|].
      rewrite <- Zle_Qle. apply Z.pow_le_mono_r; lia.
    + destruct (scale_bounds r x roundoff (inject_Z q) (inject_Z n) Hq0 Hxq Hr) as [B1 B2].
      assert (I1 : (2 * (inject_Z k * inject_Z q) + 1 <= 2 * inject_Z n + inject_Z q)%Q).
      { rewrite <- !inject_Z_mult. change 2%Q with (inject_Z 2). change 1%Q with (inject_Z 1).
        rewrite <- !inject_Z_mult, <- !inject_Z_plus, <- Zle_Qle. lia. }
      assert (I2 : (2 * inject_Z n + inject_Z q
                    <= 2 * (inject_Z k * inject_Z q) + 2 * inject_Z q - 1)%Q).
      { rewrite <- !inject_Z_mult. change 2%Q with (inject_Z 2). change 1%Q with (inject_Z 1).
        rewrite <- !inject_Z_mult, <- !inject_Z_plus, <- inject_Z_sub, <- Zle_Qle. lia. }
      fold k. apply Math_round_near.
      * apply (Qmult_le_r _ _ (inject_Z q) Hq0).
        setoid_replace ((inject_Z k - (1 # 2)) * inject_Z q)%Q
          with (inject_Z k * inject_Z q - (1 # 2) * inject_Z q)%Q using relation Qeq by ring.
        pow_constants.
        set (KQ := (inject_Z k * inject_Z q)%Q) in *. set (RQ := (r * inject_Z q)%Q) in *.
        set (N := inject_Z n) in *. set (Q0 := inject_Z q) in *.
        clearbody KQ RQ N Q0. clear Hxq Hr. lra.
      * apply (Qmult_lt_r _ _ (inject_Z q) Hq0).
        setoid_replace ((inject_Z k + (1 # 2)) * inject_Z q)%Q
          with (inject_Z k * inject_Z q + (1 # 2) * inject_Z q)%Q using relation Qeq by ring.
        pow_constants.
        set (KQ := (inject_Z k * inject_Z q)%Q) in *. set (RQ := (r * inject_Z q)%Q) in *.
        set (N := inject_Z n) in *. set (Q0 := inject_Z q) in *.
        clearbody KQ RQ N Q0. clear Hxq Hr. lra.
Qed.

Lemma Fin_lt (a b : Qc) : (Fin a <? Fin b)%num = true <-> (a < b)%Q.
Proof.
  cbn [num_lt]. rewrite bool_decide_eq_true. reflexivity.
Qed.

Lemma Fin_le (a b : Qc) : (Fin a <=? Fin b)%num = true <-> (a <= b)%Q.
Proof.
  cbn [num_le]. rewrite bool_decide_eq_true. reflexivity.
Qed.

Lemma this_of_Z z : forall q, of_Z z = Fin q -> (this q == inject_Z z)%Q.
Proof. intros q [= <-]. apply this_Q2Qc. Qed.

(** A price of [r] cents is positive exactly when [r] is. *)
Lemma cents_positive r :
  0 <= r <= 2 ^ 53 -> (of_Z 0 <? (of_Z r / of_Z 100)%js)%num = (0 <? r).
Proof.
  intros Hr. destruct (Z.eq_dec r 0) as [->|Hr0].
  { rewrite zero_cents. reflexivity. }
  destruct (cents_near r ltac:(lia)) as (x & -> & Hx).
  destruct (Z.ltb_spec 0 r); [|lia].
  unfold of_Z. apply Fin_lt. rewrite this_Q2Qc.
  assert (H1 : (1 <= inject_Z r)%Q) by (change 1%Q with (inject_Z 1); rewrite <- Zle_Qle; lia).
  apply Qabs_Qle_condition in Hx. pow_constants. change (inject_Z 0) with 0%Q.
  set (R := inject_Z r) in *. set (y := this x) in *. clearbody R y. lra.
Qed.

Lemma Math_max_cents r :
  0 <= r <= 2 ^ 53 ->
  Math_max (of_Z 0) (of_Z r / of_Z 100)%js = (of_Z (Z.max 0 r) / of_Z 100)%js.
Proof.
  intros Hr. rewrite Z.max_r by lia.
  pose proof (cents_positive r Hr) as P.
  destruct (Z.eq_dec r 0) as [->|Hr0].
  { rewrite zero_cents. reflexivity. }
  destruct (cents_near r ltac:(lia)) as (x & Hx & _). rewrite Hx in *.
  change (Math_max (of_Z 0) (Fin x))
    with (if (of_Z 0 <? Fin x)%num then Fin x else of_Z 0).
  rewrite P. destruct (Z.ltb_spec 0 r); [reflexivity|lia].
Qed.

(** Prices in whole cents compare as their numbers of cents do. *)
Lemma cents_le a b :
  0 <= a <= 2 ^ 50 -> 0 <= b <= 2 ^ 50 ->
  ((of_Z a / of_Z 100)%js <=? (of_Z b / of_Z 100)%js)%num = (a <=? b).
Proof.
  intros Ha Hb.
  assert (near : forall c, 0 <= c <= 2 ^ 50 ->
            exists x : Qc, (of_Z c / of_Z 100)%js = Fin x /\
              (inject_Z c * (1 - roundoff) <= x * 100)%Q /\
              (x * 100 <= inject_Z c * (1 + roundoff))%Q /\
              (0 <= inject_Z c)%Q /\ (inject_Z c <= inject_Z (2 ^ 50))%Q).
  { intros c Hc.
    assert (H0 : (0 <= inject_Z c)%Q) by (change 0%Q with (inject_Z 0); rewrite <- Zle_Qle; lia).
    assert (H2 : (inject_Z c <= inject_Z (2 ^ 50))%Q) by (rewrite <- Zle_Qle; lia).
    destruct (Z.eq_dec c 0) as [->|Hc0].
    - exists (Q2Qc (inject_Z 0)). split; [apply zero_cents|].
      rewrite this_Q2Qc. repeat split; try assumption; pow_constants; cbn; lra.
    - destruct (cents_near c ltac:(lia)) as (x & Hx & Hn). exists x. split; [exact Hx|].
      apply Qabs_Qle_condition in Hn. pow_constants.
      set (C := inject_Z c) in *. set (y := this x) in *. clearbody C y.
      repeat split; lra. }
  destruct (Z.eq_dec a b) as [->|Hne].
  { destruct (near b Hb) as (x & -> & _). rewrite Z.leb_refl. apply Fin_le, Qle_refl. }
  destruct (near a Ha) as (x & -> & Hx1 & Hx2 & Ha0 & Ha2).
  destruct (near b Hb) as (y & -> & Hy1 & Hy2 & Hb0 & Hb2).
  destruct (Z.leb_spec a b) as [Hab|Hab].
  - apply Fin_le.
    + assert (Hd : (inject_Z a + 1 <= inject_Z b)%Q).
      { change 1%Q with (inject_Z 1). rewrite <- inject_Z_plus, <- Zle_Qle. lia. }
      pow_constants.
      set (A := inject_Z a) in *. set (B := inject_Z b) in *.
      set (u := this x) in *. set (v := this y) in *. clearbody A B u v. lra.
  - destruct (Fin x <=? Fin y)%num eqn:E; [|reflexivity].
    apply Fin_le in E. exfalso.
    assert (Hd : (inject_Z b + 1 <= inject_Z a)%Q).
    { change 1%Q with (inject_Z 1). rewrite <- inject_Z_plus, <- Zle_Qle. lia. }
    pow_constants.
    set (A := inject_Z a) in *. set (B := inject_Z b) in *.
    set (u := this x) in *. set (v := this y) in *. clearbody A B u v. lra.
Qed.

Lemma binary64_nonneg (q : Qc) : (0 <= q)%Q -> (of_Z 0 <=? binary64 q)%num = true.
Proof.
  intros Hq. unfold binary64. cbv zeta.
  destruct (Qle_bool _ _).
  - unfold Qc_neg. rewrite bool_decide_eq_false_2; [reflexivity|].
    intros H. apply (Qlt_not_le _ _ H). exact Hq.
  - unfold of_Z. apply Fin_le. rewrite !this_Q2Qc. apply round64_nonneg. exact Hq.
Qed.

Lemma sub_min_nonneg n remaining :
  (of_Z 0 <=? remaining)%num = true ->
  (of_Z 0 <=? (remaining - Math_min (of_Z n) remaining)%js)%num = true.
Proof.
  destruct remaining as [|s|r]; cbn [num_le]; try discriminate.
  - destruct s; [discriminate|reflexivity].
  - intros H. apply bool_decide_eq_true_1 in H.
    assert (H0 : (0 <= r)%Q) by exact H.
    unfold js_sub, Math_min, of_Z. cbn [num_lt].
    destruct (bool_decide (r < Q2Qc (inject_Z n))%Qc) eqn:Hlt;
      cbn [num_sub num_opp num_add to_binary64]; apply binary64_nonneg.
    + unfold Qcplus, Qcopp. rewrite !this_Q2Qc. lra.
    + apply bool_decide_eq_false_1 in Hlt. apply Qcnot_lt_le in Hlt.
      assert (H1 : (Q2Qc (inject_Z n) <= r)%Q) by exact Hlt.
      unfold Qcplus, Qcopp. rewrite !this_Q2Qc. rewrite this_Q2Qc in H1.
      set (N := inject_Z n) in *. set (x := this r) in *. clearbody N x. lra.
Qed.

(** ** The loop of the source, by recursion on the array *)

Lemma allocate_visit_middle rem pre line post :
  allocate_visit {| remainingDiscount := rem; mpItems := pre ++ line :: post |} (length pre)
  = {| remainingDiscount := fst (visit_line rem line);
       mpItems := pre ++ snd (visit_line rem line) :: post |}.
Proof.
  unfold allocate_visit, visit_line. cbn [mpItems remainingDiscount].
  rewrite list_lookup_middle by reflexivity.
  destruct (rem <=? of_Z 0)%num; [reflexivity|].
  destruct (Math_round (unit_price line * of_Z 100 * quantity line)%js <=? of_Z 0)%num;
    [reflexivity|].
  cbn [fst snd]. f_equal.
  replace (length pre) with (length pre + 0)%nat by lia.
  rewrite insert_app_r. reflexivity.
Qed.

Lemma forEach_from rem pre post :
  fold_left allocate_visit (seq (length pre) (length post))
    {| remainingDiscount := rem; mpItems := pre ++ post |}
  = {| remainingDiscount := fst (visit_lines rem post);
       mpItems := pre ++ snd (visit_lines rem post) |}.
Proof.
  revert rem pre. induction post as [|line post IH]; intros rem pre.
  - reflexivity.
  - cbn [length seq fold_left visit_lines].
    rewrite allocate_visit_middle.
    destruct (visit_line rem line) as [rem' line'] eqn:Hv. cbn [fst snd].
    replace (pre ++ line' :: post) with ((pre ++ [line']) ++ post)
      by (rewrite <- app_assoc; reflexivity).
    replace (S (length pre)) with (length (pre ++ [line']))
      by (rewrite length_app; simpl; lia).
    rewrite IH.
    destruct (visit_lines rem' post) as [final rest'] eqn:Hr. cbn [fst snd].
    rewrite <- app_assoc. reflexivity.
Qed.

Lemma forEach_allocate_visit_lines discount lines :
  forEach_allocate discount lines
  = {| remainingDiscount := fst (visit_lines discount lines);
       mpItems := snd (visit_lines discount lines) |}.
Proof. exact (forEach_from discount [] lines). Qed.

Lemma Math_max_0_not_negative x : (Math_max (of_Z 0) x <? of_Z 0)%num = false.
Proof.
  destruct x as [|s|q]; [reflexivity|destruct s; reflexivity|].
  change (Math_max (of_Z 0) (Fin q)) with (if (of_Z 0 <? Fin q)%num then Fin q else of_Z 0).
  destruct (of_Z 0 <? Fin q)%num eqn:H.
  - unfold of_Z in *. simpl in *. apply bool_decide_eq_true_1 in H.
    apply bool_decide_eq_false_2. intros H'. 
    exact (Qclt_not_le _ _ H' (Qclt_le_weak _ _ H)).
  - reflexivity.
Qed.

Lemma visit_line_price rem line :
  snd (visit_line rem line) = line \/
  (unit_price (snd (visit_line rem line)) <? of_Z 0)%num = false.
Proof.
  unfold visit_line.
  destruct (rem <=? of_Z 0)%num; [left; reflexivity|].
  destruct (_ <=? of_Z 0)%num; [left; reflexivity|].
  right. cbn [snd set_unit_price unit_price]. apply Math_max_0_not_negative.
Qed.

Lemma visit_lines_prices rem lines :
  Forall2 (fun before after =>
             after = before \/ (unit_price after <? of_Z 0)%num = false)
          lines (snd (visit_lines rem lines)).
Proof.
  revert rem. induction lines as [|line rest IH]; intros rem; cbn [visit_lines].
  - constructor.
  - destruct (visit_line rem line) as [rem' line'] eqn:Hv.
    specialize (IH rem'). destruct (visit_lines rem' rest) as [final rest'].
    cbn [snd] in *. constructor; [|exact IH].
    pose proof (visit_line_price rem line) as H. rewrite Hv in H. exact H.
Qed.

(** ** Lines in whole cents *)

Lemma round_div_exact c q : 0 < q -> round_div (c * q) q = c.
Proof.
  intros Hq. unfold round_div.
  replace (2 * (c * q) + q) with (q + c * (2 * q)) by lia.
  rewrite Z.div_add by lia. rewrite Z.div_small by lia. lia.
Qed.

Lemma round_div_error n q :
  0 < q -> Z.abs (round_div n q * q - n) <= q / 2.
Proof.
  intros Hq. unfold round_div.
  pose proof (Z.div_mod (2 * n + q) (2 * q) ltac:(lia)) as E.
  pose proof (Z.mod_pos_bound (2 * n + q) (2 * q) ltac:(lia)) as B.
  pose proof (Z.div_mod q 2 ltac:(lia)) as E2.
  pose proof (Z.mod_pos_bound q 2 ltac:(lia)) as B2.
  lia.
Qed.

Lemma round_div_nonneg n q : 0 < q -> 0 <= n -> 0 <= round_div n q.
Proof. intros Hq Hn. unfold round_div. apply Z.div_pos; lia. Qed.

Lemma round_div_0 q : 0 < q -> round_div 0 q = 0.
Proof. intros Hq. unfold round_div. apply Z.div_small. lia. Qed.

Lemma round_div_le n q c : 0 < q -> n <= c * q -> round_div n q <= c.
Proof.
  intros Hq Hn. unfold round_div.
  apply Z.lt_succ_r. apply Z.div_lt_upper_bound; lia.
Qed.

Lemma item_total_cents t c q :
  0 <= c -> 0 < q -> c * q <= max_cents ->
  Math_round (unit_price (cents_line (t, c, q)) * of_Z 100 * quantity (cents_line (t, c, q)))%js
  = of_Z (c * q).
Proof.
  intros Hc Hq Hcq. cbn [cents_line unit_price quantity].
  apply item_total_whole; assumption.
Qed.

Lemma spec_line_subtotal_cents t c q :
  0 <= c -> 0 < q -> c * q <= max_cents ->
  spec_line_subtotal (cents_line (t, c, q)) = of_Z (c * q).
Proof.
  intros Hc Hq Hcq. unfold spec_line_subtotal. cbn [cents_line unit_price quantity].
  unfold max_cents in Hcq.
  rewrite unit_cents_whole by nia. apply js_mul_of_Z. nia.
Qed.

Lemma reprice_cents t c q n :
  0 < q <= max_cents -> 0 <= n <= max_cents ->
  set_unit_price
    (Math_max (of_Z 0)
       (Math_round (of_Z n / quantity (cents_line (t, c, q)))%js / of_Z 100)%js)
    (cents_line (t, c, q))
  = cents_line (t, Z.max 0 (round_div n q), q).
Proof.
  intros Hq Hn. cbn [cents_line quantity]. unfold set_unit_price.
  cbn [title quantity currency_id]. f_equal. unfold max_cents in *.
  rewrite Math_round_div_whole by lia. apply Math_max_cents.
  split; [apply round_div_nonneg; lia|].
  pose proof (round_div_le n q n ltac:(lia) ltac:(nia)). lia.
Qed.

Lemma visit_cents_range remaining c q :
  0 <= remaining -> 0 <= c -> 0 < q ->
  0 <= fst (visit_cents remaining c q) <= remaining /\
  0 <= snd (visit_cents remaining c q) <= c.
Proof.
  intros Hrem Hc Hq. unfold visit_cents.
  destruct (Z.leb_spec remaining 0); [cbn; lia|].
  destruct (Z.leb_spec (c * q) 0); [cbn; lia|]. cbn [fst snd].
  pose proof (round_div_nonneg (c * q - Z.min (c * q) remaining) q Hq ltac:(lia)).
  pose proof (round_div_le (c * q - Z.min (c * q) remaining) q c Hq ltac:(lia)).
  lia.
Qed.

Lemma visit_line_cents remaining t c q :
  0 <= c -> 0 < q -> c * q <= max_cents ->
  0 <= remaining <= 2 ^ 53 ->
  visit_line (of_Z remaining) (cents_line (t, c, q))
  = (of_Z (fst (visit_cents remaining c q)),
     cents_line (t, snd (visit_cents remaining c q), q)).
Proof.
  intros Hc Hq Hcq Hrem. unfold visit_line, visit_cents.
  rewrite of_Z_le. destruct (remaining <=? 0); [reflexivity|].
  rewrite item_total_cents, of_Z_le by assumption.
  destruct (Z.leb_spec (c * q) 0) as [|Hpos]; [reflexivity|].
  cbn [fst snd]. unfold max_cents in *. rewrite Math_min_of_Z.
  rewrite !js_sub_of_Z by lia.
  assert (Hq' : q <= c * q) by (destruct (Z.eq_dec c 0); [subst c; lia|nia]).
  rewrite reprice_cents by (unfold max_cents; lia). reflexivity.
Qed.

Lemma visit_lines_cents remaining lines :
  Forall (fun '(_, c, q) => 0 <= c /\ 0 < q /\ c * q <= max_cents) lines ->
  0 <= remaining <= 2 ^ 53 ->
  visit_lines (of_Z remaining) (map cents_line lines)
  = (of_Z (fst (allocate_cents remaining lines)),
     map cents_line (snd (allocate_cents remaining lines))).
Proof.
  intros Hall. revert remaining.
  induction Hall as [|[[t c] q] rest (Hc & Hq & Hcq) _ IH]; intros remaining Hrem.
  - reflexivity.
  - cbn [map visit_lines allocate_cents].
    rewrite visit_line_cents by assumption.
    pose proof (visit_cents_range remaining c q ltac:(lia) Hc Hq) as [Hr _].
    destruct (visit_cents remaining c q) as [remaining' c'] eqn:Hv. cbn [fst snd] in *.
    rewrite IH by lia. destruct (allocate_cents remaining' rest) as [final rest'].
    reflexivity.
Qed.

Lemma cents_total_nonneg lines :
  Forall (fun '(_, c, q) => 0 <= c /\ 0 < q /\ c * q <= max_cents) lines ->
  0 <= cents_total lines.
Proof.
  induction 1 as [|[[t c] q] rest (Hc & Hq & _) _ IH]; cbn [cents_total fold_right]; [lia|].
  fold (cents_total rest). nia.
Qed.

Lemma lines_total_cents lines :
  Forall (fun '(_, c, q) => 0 <= c /\ 0 < q /\ c * q <= max_cents) lines ->
  cents_total lines <= 2 ^ 53 ->
  lines_total (map cents_line lines) = of_Z (cents_total lines).
Proof.
  induction 1 as [|[[t c] q] rest (Hc & Hq & Hcq) Hrest IH]; intros Htotal; [reflexivity|].
  cbn [map lines_total cents_total fold_right] in *.
  fold (lines_total (map cents_line rest)). fold (cents_total rest) in *.
  pose proof (cents_total_nonneg rest Hrest).
  rewrite IH by nia. rewrite spec_line_subtotal_cents by assumption.
  apply js_add_of_Z. nia.
Qed.

(** The allocation leaves the lines in range, and no line dearer. *)
Lemma allocate_cents_range remaining lines :
  0 <= remaining ->
  Forall (fun '(_, c, q) => 0 <= c /\ 0 < q /\ c * q <= max_cents) lines ->
  Forall (fun '(_, c, q) => 0 <= c /\ 0 < q /\ c * q <= max_cents)
         (snd (allocate_cents remaining lines)) /\
  cents_total (snd (allocate_cents remaining lines)) <= cents_total lines.
Proof.
  intros Hrem Hall. revert remaining Hrem.
  induction Hall as [|[[t c] q] rest (Hc & Hq & Hcq) _ IH]; intros remaining Hrem.
  - cbn. split; [constructor|lia].
  - cbn [allocate_cents].
    pose proof (visit_cents_range remaining c q Hrem Hc Hq) as [Hr Hp].
    destruct (visit_cents remaining c q) as [remaining' c']. cbn [fst snd] in *.
    destruct (IH remaining' ltac:(lia)) as [Hall' Htot].
    destruct (allocate_cents remaining' rest) as [final rest']. cbn [snd] in *.
    cbn [cents_total fold_right]. fold (cents_total rest'). fold (cents_total rest).
    split; [constructor; [nia|exact Hall']|nia].
Qed.

(** The deductions add up to the discount (or to all there is), and each
    repriced line is off by at most half its quantity. *)
Lemma allocate_cents_total remaining lines :
  0 <= remaining ->
  Forall (fun '(_, c, q) => 0 <= c /\ 0 < q) lines ->
  0 <= fst (allocate_cents remaining lines) /\
  0 <= cents_total lines /\
  Z.abs (cents_total (snd (allocate_cents remaining lines))
         - (cents_total lines - Z.min remaining (cents_total lines)))
  <= half_quantities lines /\ 0 <= half_quantities lines.
Proof.
  intros Hrem Hall. revert remaining Hrem.
  induction Hall as [|[[t c] q] rest [Hc Hq] _ IH]; intros remaining Hrem.
  - cbn. lia.
  - cbn [allocate_cents cents_total half_quantities fold_right].
    fold (cents_total rest). fold (half_quantities rest).
    assert (Hh : 0 <= q / 2) by (apply Z.div_pos; lia).
    assert (Hcq : 0 <= c * q) by nia.
    unfold visit_cents.
    destruct (Z.leb_spec remaining 0) as [H0|H0].
    + specialize (IH remaining Hrem).
      destruct (allocate_cents remaining rest) as [final rest'].
      cbn [fst snd cents_total fold_right] in *. fold (cents_total rest') in *. lia.
    + destruct (Z.leb_spec (c * q) 0) as [H1|H1].
      * specialize (IH remaining Hrem).
        destruct (allocate_cents remaining rest) as [final rest'].
        cbn [fst snd cents_total fold_right] in *. fold (cents_total rest') in *. lia.
      * set (d := Z.min (c * q) remaining).
        assert (Hd : 0 <= c * q - d) by lia.
        pose proof (round_div_error (c * q - d) q Hq) as He.
        pose proof (round_div_nonneg (c * q - d) q Hq Hd) as Hn.
        specialize (IH (remaining - d) ltac:(lia)).
        destruct (allocate_cents (remaining - d) rest) as [final rest'].
        cbn [fst snd cents_total fold_right] in *. fold (cents_total rest') in *.
        rewrite Z.max_r by lia. lia.
Qed.

(** ** The loop of the source against the allocation of the specification *)

Lemma num_le_antisym_0 x :
  (x <=? of_Z 0)%num = true -> (of_Z 0 <=? x)%num = true -> x = of_Z 0.
Proof.
  destruct x as [|s|r]; cbn; try discriminate.
  - destruct s; discriminate.
  - intros H1 H2. apply bool_decide_eq_true_1 in H1, H2.
    unfold of_Z. f_equal. apply Qcle_antisym; assumption.
Qed.

Lemma visit_line_spec remaining t c q :
  0 <= c -> 0 < q -> c * q <= max_cents ->
  (of_Z 0 <=? remaining)%num = true ->
  visit_line remaining (cents_line (t, c, q)) = spec_reprice remaining (cents_line (t, c, q))
  /\ (of_Z 0 <=? fst (visit_line remaining (cents_line (t, c, q))))%num = true.
Proof.
  intros Hc Hq Hcq Hrem. unfold visit_line, spec_reprice.
  rewrite item_total_cents, spec_line_subtotal_cents, of_Z_le, of_Z_lt by assumption.
  destruct (remaining <=? of_Z 0)%num eqn:Hle.
  - split; [|exact Hrem].
    destruct (Z.ltb_spec 0 (c * q)) as [Hpos|Hnpos]; [|reflexivity].
    rewrite (num_le_antisym_0 _ Hle Hrem). unfold max_cents in *.
    rewrite Math_min_of_Z, !js_sub_of_Z by lia.
    assert (Hq' : q <= c * q) by (destruct (Z.eq_dec c 0); [subst c; lia|nia]).
    rewrite reprice_cents by (unfold max_cents; lia).
    replace (c * q - Z.min (c * q) 0) with (c * q) by lia.
    rewrite round_div_exact by exact Hq.
    rewrite Z.max_r by nia. do 2 f_equal. lia.
  - destruct (Z.leb_spec (c * q) 0) as [Hnpos|Hpos];
      destruct (Z.ltb_spec 0 (c * q)) as [Hpos'|Hnpos']; try lia.
    + split; [reflexivity|exact Hrem].
    + split; [reflexivity|]. cbn [fst]. apply sub_min_nonneg. exact Hrem.
Qed.

Lemma visit_lines_spec remaining lines :
  Forall (fun '(_, c, q) => 0 <= c /\ 0 < q /\ c * q <= max_cents) lines ->
  (of_Z 0 <=? remaining)%num = true ->
  visit_lines remaining (map cents_line lines)
  = spec_allocate remaining (map cents_line lines).
Proof.
  intros Hall. revert remaining.
  induction Hall as [|[[t c] q] rest (Hc & Hq & Hcq) _ IH]; intros remaining Hrem.
  - reflexivity.
  - cbn [map visit_lines spec_allocate].
    destruct (visit_line_spec remaining t c q Hc Hq Hcq Hrem) as [<- Hrem'].
    destruct (visit_line remaining (cents_line (t, c, q))) as [remaining' line'].
    cbn [fst] in Hrem'. rewrite (IH remaining' Hrem'). reflexivity.
Qed.

Lemma num_lt_le x y : (x <? y)%num = true -> (x <=? y)%num = true.
Proof.
  destruct x as [|s|p], y as [|u|r]; cbn; try (intros H; exact H); try discriminate.
  - destruct s, u; cbn; congruence.
  - intros H. apply bool_decide_eq_true_1 in H. apply bool_decide_eq_true_2.
    apply Qclt_le_weak. exact H.
Qed.

Lemma build_mpItems_cents cart sel s :
  build_mpItems (map whole_item cart) sel (of_Z s)
  = map cents_line (cents_lines cart sel s).
Proof.
  unfold build_mpItems, cents_lines, num_gt. rewrite of_Z_lt, map_app. f_equal.
  - rewrite !map_map. apply map_ext. intros [[p c] q]. reflexivity.
  - destruct (0 <? s); reflexivity.
Qed.

Lemma cents_lines_quantities cart sel s :
  Forall (fun '(_, _, q) => 0 < q) cart ->
  Forall (fun '(_, _, q) => 0 < q) (cents_lines cart sel s).
Proof.
  intros H. unfold cents_lines. apply Forall_app. split.
  - apply Forall_map. eapply Forall_impl; [exact H|]. intros [[p c] q]. auto.
  - destruct (0 <? s); repeat constructor.
Qed.

(** ** Runs of the resolver *)

Lemma logged_nil w : logged [] w = w.
Proof. destruct w. unfold logged. cbn. rewrite app_nil_r. reflexivity. Qed.

Lemma logged_logged a b w : logged b (logged a w) = logged (a ++ b) w.
Proof. unfold logged. cbn. rewrite app_assoc. reflexivity. Qed.

Section Runs.

Context (E : Env).

(** A computation that only reads the committed store: on worlds with the
    same store it returns the same outcome and logs the same reads. *)
Definition reads_only {A} (m : M A) (d : db) : Prop :=
  exists r evs,
    Forall (fun e => is_product_read e = true) evs /\
    forall w, store w = d -> m w = (r, logged evs w).

Lemma reads_only_ret {A} (a : A) d : reads_only (ret a) d.
Proof.
  exists (Ok a), []. split; [constructor|]. intros w _. rewrite logged_nil. reflexivity.
Qed.

Lemma reads_only_throw {A} e d : reads_only (@throw A e) d.
Proof.
  exists (Throw e), []. split; [constructor|]. intros w _. rewrite logged_nil. reflexivity.
Qed.

Lemma reads_only_bind {A B} (m : M A) (k : A -> M B) d :
  reads_only m d -> (forall a, reads_only (k a) d) -> reads_only (bind m k) d.
Proof.
  intros (r & evs & Hevs & Hm) Hk. destruct r as [a|e].
  - destruct (Hk a) as (r' & evs' & Hevs' & Hk').
    exists r', (evs ++ evs'). split; [apply Forall_app; auto|].
    intros w Hw. unfold bind. rewrite (Hm w Hw).
    rewrite (Hk' (logged evs w) Hw). rewrite logged_logged. reflexivity.
  - exists (Throw e), evs. split; [exact Hevs|].
    intros w Hw. unfold bind. rewrite (Hm w Hw). reflexivity.
Qed.

Lemma reads_only_findByPk key d : reads_only (findByPk E key) d.
Proof.
  exists (Ok (List.find (fun p => pk_eq E key (p_id p)) (products d))),
         [Product_findByPk key].
  split; [repeat constructor|]. intros w <-. reflexivity.
Qed.

Lemma reads_only_findOne_sku sku d : reads_only (findOne_sku E sku) d.
Proof.
  exists (Ok (List.find (fun p => sku_eq E sku (p_sku p)) (products d))),
         [Product_findOne_sku sku].
  split; [repeat constructor|]. intros w <-. reflexivity.
Qed.

Lemma reads_only_lookup_product item d : reads_only (lookup_product E item) d.
Proof.
  unfold lookup_product.
  destruct (truthy (l_productId item)); [apply reads_only_findByPk|].
  destruct (truthy (l_id item)).
  - apply reads_only_bind.
    + destruct (_ && _); [apply reads_only_findByPk|apply reads_only_ret].
    + intros [p|]; [apply reads_only_ret|apply reads_only_findOne_sku].
  - destruct (truthy (l_sku item)); [apply reads_only_findOne_sku|apply reads_only_ret].
Qed.

Lemma reads_only_resolve_loop rawItems items d :
  reads_only (resolve_loop E rawItems items) d.
Proof.
  revert items. induction rawItems as [|item rest IH]; intros items; cbn [resolve_loop].
  - apply reads_only_ret.
  - destruct (qty_unusable (line_qty E item)); [apply IH|].
    apply reads_only_bind; [apply reads_only_lookup_product|].
    intros [p|]; [|apply reads_only_throw].
    destruct (negb (p_active p)); [apply reads_only_throw|].
    destruct (_ && _); [apply reads_only_throw|apply IH].
Qed.

Lemma reads_only_resolveItems rawItems d : reads_only (resolveItems E rawItems) d.
Proof.
  destruct rawItems as [v|[|item rest]|before after]; cbn [resolveItems];
    try apply reads_only_throw.
  - apply reads_only_bind; [apply reads_only_resolve_loop|].
    intros items. destruct (length items =? 0)%nat;
      [apply reads_only_throw|apply reads_only_ret].
  - apply reads_only_bind; [apply reads_only_resolve_loop|].
    intros _. apply reads_only_throw.
Qed.

(** The resolver on any world: the outcome on its store, and reads logged. *)
Lemma resolveItems_run rawItems w :
  exists evs,
    Forall (fun e => is_product_read e = true) evs /\
    resolveItems E rawItems w = (resolveItems_on E (store w) rawItems, logged evs w).
Proof.
  destruct (reads_only_resolveItems rawItems (store w)) as (r & evs & Hevs & H).
  exists evs. split; [exact Hevs|].
  unfold resolveItems_on. rewrite (H (at_rest (store w)) eq_refl).
  cbn [fst]. apply H. reflexivity.
Qed.


(** ** Runs of [createOrder] *)

Lemma write_run wr w :
  write E wr w =
  match write_error E (pending w) wr with
  | Some msg => (Throw (Thrown msg), logged [Db_write wr] w)
  | None => (Ok tt, {| store := store w; pending := apply_write wr (pending w);
                       log := log w ++ [Db_write wr] |})
  end.
Proof.
  unfold write, bind, emit. cbn [pending]. destruct (write_error E (pending w) wr); reflexivity.
Qed.

(** The item loop touches the working copy only: it either throws, or has
    applied all its writes to it. *)
Lemma persist_items_run orderId items w r w' :
  persist_items E orderId items w = (r, w') ->
  store w' = store w /\
  match r with
  | Throw e => exists msg ws, e = Thrown msg /\ log w' = log w ++ map Db_write ws
  | Ok _ =>
      pending w' = apply_writes (item_writes orderId items) (pending w) /\
      log w' = log w ++ map Db_write (item_writes orderId items)
  end.
Proof.
  revert w. induction items as [|item rest IH]; intros w H.
  - cbn in H. injection H as <- <-. cbn. rewrite app_nil_r. auto.
  - cbn [persist_items] in H. unfold bind in H. fold (order_item_of orderId item) in H.
    rewrite write_run in H.
    destruct (write_error E _ (OrderItem_create (order_item_of orderId item)))
      as [msg|] eqn:W1.
    { injection H as <- <-. split; [reflexivity|].
      exists msg, [OrderItem_create (order_item_of orderId item)]. split; reflexivity. }
    cbn [item_writes flat_map].
    destruct (p_stockManaged (ri_product item)) eqn:Hs.
    + rewrite write_run in H.
      cbn [pending] in H.
      destruct (write_error E _ (Product_decrement _ _)) as [msg|] eqn:W2.
      { injection H as <- <-. split; [reflexivity|].
        exists msg, [OrderItem_create (order_item_of orderId item);
                     Product_decrement (p_id (ri_product item)) (qty item)].
        cbn. rewrite <- app_assoc. split; reflexivity. }
      apply IH in H. cbn [store pending log] in H. destruct H as [Hst H].
      split; [exact Hst|]. destruct r as [[]|e].
      * destruct H as [Hp Hl]. rewrite Hp, Hl. unfold apply_writes.
        cbn. rewrite <- !app_assoc. auto.
      * destruct H as (msg & ws & -> & Hl).
        exists msg, (OrderItem_create (order_item_of orderId item) ::
                     Product_decrement (p_id (ri_product item)) (qty item) :: ws).
        rewrite Hl. cbn. rewrite <- !app_assoc. split; reflexivity.
    + unfold ret in H.
      apply IH in H. cbn [store pending log] in H. destruct H as [Hst H].
      split; [exact Hst|]. destruct r as [[]|e].
      * destruct H as [Hp Hl]. rewrite Hp, Hl. unfold apply_writes.
        cbn. rewrite <- !app_assoc. auto.
      * destruct H as (msg & ws & -> & Hl).
        exists msg, (OrderItem_create (order_item_of orderId item) :: ws).
        rewrite Hl. cbn. rewrite <- !app_assoc. split; reflexivity.
Qed.


Lemma Order_insert_run fields w :
  Order_insert E fields w =
  let o := set_order_id (next_order_id (pending w)) fields in
  match write_error E (pending w) (Order_create o) with
  | Some msg => (Throw (Thrown msg), logged [Db_write (Order_create o)] w)
  | None => (Ok o, {| store := store w; pending := apply_write (Order_create o) (pending w);
                      log := log w ++ [Db_write (Order_create o)] |})
  end.
Proof.
  unfold Order_insert, bind. cbn zeta. rewrite write_run.
  destruct (write_error E _ _); reflexivity.
Qed.

Lemma coupon_run req subtotal w :
  (if truthy (b_coupon_code (body req)) then
     let! coupon := couponService_findActiveCoupon E (b_coupon_code (body req)) in
     couponService_computeDiscount E coupon subtotal
   else ret (of_Z 0)) w
  = (discount_for E req subtotal, logged (coupon_calls E req subtotal) w).
Proof.
  unfold discount_for, coupon_calls.
  destruct (truthy (b_coupon_code (body req))).
  - unfold bind, couponService_findActiveCoupon, couponService_computeDiscount,
      bind, emit, lift. cbn [store pending log].
    destruct (findActiveCoupon E (b_coupon_code (body req))) as [c|e].
    + unfold logged. cbn. rewrite <- app_assoc. reflexivity.
    + reflexivity.
  - unfold ret. rewrite logged_nil. reflexivity.
Qed.

(** Every run of [createOrder] answers, in one of the ways of [order_run]. *)
Ltac flatten_log := repeat first [rewrite <- app_assoc | progress cbn [app]].

Lemma createOrder_run req w :
  exists resp w', createOrder E req w = (Ok resp, w') /\ order_run E req w resp w'.
Proof.
  unfold createOrder. unfold bind at 1. unfold sequelize_transaction at 1.
  unfold try_catch.
  fold required_fields.
  destruct (ensureFields E (body req) required_fields) as [|f fs] eqn:Hreq.
  2:{ cbn [length Nat.eqb negb]. unfold bind, transaction_rollback, res_status_json, ret.
      cbn [store pending log].
      do 2 eexists. split; [reflexivity|].
      flatten_log. apply run_incomplete. rewrite Hreq. discriminate. }
  cbn [length Nat.eqb negb]. unfold bind at 1.
  match goal with |- context [resolveItems E ?r ?w1] =>
    destruct (resolveItems_run r w1) as (reads & Hreads & Hres); rewrite Hres end.
  cbn [store].
  destruct (resolveItems_on E (store w) (b_items (body req))) as [items|e] eqn:Hitems.
  2:{ unfold bind, transaction_rollback, res_status_json, ret, logged.
      cbn [store pending log].
      do 2 eexists. split; [reflexivity|].
      flatten_log. apply run_unresolved; assumption. }
  unfold bind at 1. unfold Address_find at 1. unfold bind at 1, emit at 1.
  cbn [store pending log logged].
  fold (find_address E (store w) req).
  destruct (find_address E (store w) req) as [a|] eqn:Haddr.
  2:{ unfold bind, transaction_rollback, res_status_json, ret.
      cbn [store pending log].
      do 2 eexists. split; [reflexivity|].
      flatten_log. apply run_no_address with (items := items); assumption. }
  unfold bind at 1. rewrite coupon_run.
  destruct (discount_for E req (subtotal_of items)) as [discount|e] eqn:Hdisc.
  2:{ unfold bind, transaction_rollback, res_status_json, ret, logged.
      cbn [store pending log].
      do 2 eexists. split; [reflexivity|].
      flatten_log. 
      apply run_no_discount with (items := items) (a := a); assumption. }
  unfold bind at 1. rewrite Order_insert_run. cbn zeta. cbn [store pending log logged].
  fold (shipping_of E req).
  match goal with |- context [write_error E _ (Order_create ?o)] =>
    change o with (order_row E (store w) req a items discount) end.
  set (o := order_row E (store w) req a items discount).
  destruct (write_error E (store w) (Order_create o)) as [msg|] eqn:Hw1.
  { unfold bind, transaction_rollback, res_status_json, ret, logged.
    cbn [store pending log].
    do 2 eexists. split; [reflexivity|].
    flatten_log.
    change [Db_write (Order_create o); Transaction_rollback]
      with ([Db_write (Order_create o)] ++ [Transaction_rollback]).
    eapply run_write_rejected with (items := items) (a := a) (discount := discount);
      eassumption. }
  unfold bind at 1.
  change (o_id o) with (next_order_id (store w)).
  match goal with |- context [persist_items E ?i ?its ?w1] =>
    destruct (persist_items E i its w1) as [r w2] eqn:Hp;
    apply persist_items_run in Hp; cbn [store pending log] in Hp;
    destruct Hp as [Hst Hp] end.
  destruct r as [[]|e].
  2:{ destruct Hp as (msg & ws & -> & Hlog).
      unfold bind, transaction_rollback, res_status_json, ret. cbn [store pending log].
      do 2 eexists. split; [reflexivity|]. rewrite Hst, Hlog.
      flatten_log.
      change (Db_write (Order_create o) :: map Db_write ws ++ [Transaction_rollback])
        with ((Db_write (Order_create o) :: map Db_write ws) ++ [Transaction_rollback]).
      eapply run_write_rejected with (items := items) (a := a) (discount := discount);
        eassumption. }
  destruct Hp as [Hpend Hlog].
  unfold bind at 1, paymentService_createPreference at 1, bind at 1, emit at 1, lift at 1.
  cbn [store pending log].
  fold (shipping_of E req).
  match goal with |- context [createPreference E ?pr] =>
    change pr with (payment_request E req items discount) end.
  destruct (createPreference E (payment_request E req items discount)) as [pref|e] eqn:Hpay.
  2:{ unfold bind, transaction_rollback, res_status_json, ret. cbn [store pending log].
      do 2 eexists. split; [reflexivity|]. rewrite Hst, Hlog.
      flatten_log.
      apply run_payment_failed with (items := items) (a := a) (discount := discount)
                                    (e := e) (reads := reads); assumption. }
  unfold bind at 1. rewrite write_run. cbn [store pending log].
  destruct (write_error E (pending w2)
              (Order_update (next_order_id (store w)) (preferenceId pref)))
    as [msg|] eqn:Hw2.
  { unfold logged, bind, transaction_rollback, res_status_json, ret. cbn [store pending log].
    do 2 eexists. split; [reflexivity|]. rewrite Hst, Hlog.
    flatten_log.
    match goal with |- order_run _ _ _ _ {| store := _; pending := _; log := ?L |} =>
      replace L with
        (log w ++ Transaction_begin :: reads ++
         Address_findOne (b_address_id (body req)) (u_id (req_user req)) ::
         coupon_calls E req (subtotal_of items) ++
         (Db_write (Order_create o) ::
          map Db_write (item_writes (next_order_id (store w)) items) ++
          [Payment_createPreference (payment_request E req items discount);
           Db_write (Order_update (next_order_id (store w)) (preferenceId pref))]) ++
         [Transaction_rollback])
        by (flatten_log; reflexivity) end.
    eapply run_write_rejected with (items := items) (a := a) (discount := discount);
      eassumption. }
  unfold bind, transaction_commit, res_json, res_status_json, ret. cbn [store pending log].
  do 2 eexists. split; [reflexivity|]. rewrite Hpend, Hlog.
  flatten_log.
  apply run_placed with (items := items) (a := a) (discount := discount) (pref := pref);
    assumption.
Qed.

End Runs.

(** ** Outcomes of the resolver, line by line *)

Section Resolver.

Context (E : Env).

Lemma lookup_product_ok item w :
  exists p w', lookup_product E item w = (Ok p, w').
Proof.
  unfold lookup_product.
  destruct (truthy (l_productId item)); [do 2 eexists; reflexivity|].
  destruct (truthy (l_id item)).
  - unfold bind. destruct (_ && _).
    + unfold findByPk at 1, bind, emit. cbn.
      destruct (List.find _ _); do 2 eexists; reflexivity.
    + unfold ret at 1. do 2 eexists; reflexivity.
  - destruct (truthy (l_sku item)); do 2 eexists; reflexivity.
Qed.

Lemma lookup_product_run item d :
  exists evs,
    Forall (fun e => is_product_read e = true) evs /\
    forall w, store w = d ->
              lookup_product E item w = (Ok (found_product E d item), logged evs w).
Proof.
  destruct (reads_only_lookup_product E item d) as (r & evs & Hevs & H).
  exists evs. split; [exact Hevs|]. intros w Hw.
  unfold found_product. rewrite (H (at_rest d) eq_refl). cbn [fst].
  rewrite (H w Hw).
  destruct (lookup_product_ok item w) as (p & w' & Hok). rewrite (H w Hw) in Hok.
  injection Hok as -> _. reflexivity.
Qed.

Lemma resolve_loop_on_any rawItems items w :
  fst (resolve_loop E rawItems items w) = resolve_loop_on E (store w) rawItems items.
Proof.
  destruct (reads_only_resolve_loop E rawItems items (store w)) as (r & evs & _ & H).
  unfold resolve_loop_on. rewrite (H w eq_refl), (H (at_rest (store w)) eq_refl).
  reflexivity.
Qed.

Lemma resolve_loop_on_nil d items : resolve_loop_on E d [] items = Ok items.
Proof. reflexivity. Qed.

(** One turn of the loop. *)
Lemma resolve_loop_on_cons d item rest items :
  resolve_loop_on E d (item :: rest) items =
  if qty_unusable (line_qty E item) then resolve_loop_on E d rest items
  else
    match found_product E d item with
    | None => Throw (Produto_nao_encontrado (line_ref item))
    | Some p =>
        if negb (p_active p) then Throw (Produto_nao_encontrado (line_ref item))
        else if p_stockManaged p && (p_stockQuantity p <? line_qty E item)%num
             then Throw (Estoque_insuficiente (p_name p))
             else resolve_loop_on E d rest
                    (items ++
                     [{| ri_product := p;
                         qty := line_qty E item;
                         unit_price_cents :=
                           Number E (l_price_cents item ??? JNum (p_priceCents p)) |}])
    end.
Proof.
  unfold resolve_loop_on at 1. cbn [resolve_loop].
  destruct (qty_unusable (line_qty E item)); [reflexivity|].
  unfold bind. destruct (lookup_product_run item d) as (evs & _ & H).
  rewrite (H (at_rest d) eq_refl).
  destruct (found_product E d item) as [p|]; [|reflexivity].
  destruct (negb (p_active p)); [reflexivity|].
  destruct (_ && _); [reflexivity|].
  apply resolve_loop_on_any.
Qed.

Lemma resolveItems_on_array d lines :
  resolveItems_on E d (ItemsArray lines) =
  match lines with
  | [] => Throw Itens_invalidos
  | _ =>
      match resolve_loop_on E d lines [] with
      | Ok items => if (length items =? 0)%nat then Throw Itens_invalidos else Ok items
      | Throw e => Throw e
      end
  end.
Proof.
  destruct lines as [|item rest]; [reflexivity|].
  unfold resolveItems_on, resolve_loop_on. cbn [resolveItems]. unfold bind.
  destruct (resolve_loop E (item :: rest) [] (at_rest d)) as [[items|e] w']; cbn [fst].
  - destruct (length items =? 0)%nat; reflexivity.
  - reflexivity.
Qed.

Lemma resolveItems_on_with_null d before after :
  resolveItems_on E d (ItemsWithNull before after) =
  match resolve_loop_on E d before [] with
  | Ok _ => Throw null_item_error
  | Throw e => Throw e
  end.
Proof.
  unfold resolveItems_on, resolve_loop_on. cbn [resolveItems]. unfold bind.
  destruct (resolve_loop E before [] (at_rest d)) as [[items|e] w']; reflexivity.
Qed.

(** The loop only ever refuses a line for its product or its stock. *)
Lemma resolve_loop_on_not_invalid d lines items :
  resolve_loop_on E d lines items <> Throw Itens_invalidos.
Proof.
  revert items. induction lines as [|item rest IH]; intros items.
  - discriminate.
  - rewrite resolve_loop_on_cons.
    destruct (qty_unusable _); [apply IH|].
    destruct (found_product E d item) as [p|]; [|discriminate].
    destruct (negb _); [discriminate|]. destruct (_ && _); [discriminate|apply IH].
Qed.

(** The resolved items are the lines with a usable quantity, in order, each
    with the quantity of its line. *)
Lemma resolve_loop_on_quantities d lines items resolved :
  resolve_loop_on E d lines items = Ok resolved ->
  map qty resolved = map qty items ++ map (line_qty E) (List.filter (usable E) lines).
Proof.
  revert items. induction lines as [|item rest IH]; intros items H.
  - injection H as <-. cbn. rewrite app_nil_r. reflexivity.
  - rewrite resolve_loop_on_cons in H. cbn [List.filter]. unfold usable at 1.
    destruct (qty_unusable (line_qty E item)) eqn:Hq; cbn [negb].
    + apply IH. exact H.
    + destruct (found_product E d item) as [p|]; [|discriminate].
      destruct (negb _); [discriminate|]. destruct (_ && _); [discriminate|].
      apply IH in H. rewrite H, map_app. cbn. rewrite <- app_assoc. reflexivity.
Qed.

Lemma usable_positive q : qty_unusable q = negb (of_Z 0 <? q)%num.
Proof.
  unfold qty_unusable. destruct q as [|s|r]; cbn.
  - reflexivity.
  - destruct s; reflexivity.
  - unfold Qc_zero.
    destruct (bool_decide (r = 0%Qc)) eqn:H0; cbn.
    + apply bool_decide_eq_true_1 in H0. subst r. reflexivity.
    + apply bool_decide_eq_false_1 in H0.
      destruct (bool_decide (r <= Q2Qc (inject_Z 0))%Qc) eqn:Hle.
      * apply bool_decide_eq_true_1 in Hle. symmetry. apply negb_true_iff.
        apply bool_decide_eq_false_2. apply Qcle_not_lt. exact Hle.
      * apply bool_decide_eq_false_1 in Hle. symmetry. apply negb_false_iff.
        apply bool_decide_eq_true_2. apply Qcnot_le_lt. exact Hle.
Qed.

End Resolver.

(** ** Sums in [num] *)

Lemma num_add_comm a b : (a + b)%num = (b + a)%num.
Proof.
  destruct a as [|[]|p], b as [|[]|q]; cbn; try reflexivity.
  f_equal. apply Qcplus_comm.
Qed.

Lemma num_add_assoc a b c : (a + (b + c))%num = (a + b + c)%num.
Proof.
  destruct a as [|[]|p], b as [|[]|q], c as [|[]|r]; cbn; try reflexivity.
  f_equal. apply Qcplus_assoc.
Qed.

Lemma num_add_0_l a : (of_Z 0 + a)%num = a.
Proof.
  destruct a as [|s|q]; cbn; try reflexivity. f_equal. apply Qcplus_0_l.
Qed.

Lemma isInteger_of_Z z : isInteger (of_Z z) = true.
Proof.
  unfold isInteger, of_Z at 1. apply bool_decide_eq_true_2. unfold of_Z. do 3 f_equal.
  cbn [this Q2Qc]. rewrite (Qfloor_comp _ _ (Qred_correct (inject_Z z))).
  symmetry. apply Qfloor_Z.
Qed.

(** ** The store after an order is placed *)

Lemma next_order_id_fresh d o : In o (orders d) -> o_id o < next_order_id d.
Proof.
  unfold next_order_id. induction (orders d) as [|o' l IH]; cbn; [tauto|].
  intros [->|H]; [lia|]. specialize (IH H). lia.
Qed.

Lemma apply_writes_app ws1 ws2 d :
  apply_writes (ws1 ++ ws2) d = apply_writes ws2 (apply_writes ws1 d).
Proof. unfold apply_writes. apply fold_left_app. Qed.

(** The item loop appends one row per item and leaves the orders alone. *)
Lemma apply_writes_items orderId items d :
  orders (apply_writes (item_writes orderId items) d) = orders d /\
  addresses (apply_writes (item_writes orderId items) d) = addresses d /\
  orderItems (apply_writes (item_writes orderId items) d)
  = orderItems d ++ map (order_item_of orderId) items.
Proof.
  revert d. induction items as [|item rest IH]; intros d.
  - cbn. rewrite app_nil_r. auto.
  - cbn [item_writes flat_map]. fold (item_writes orderId rest).
    rewrite apply_writes_app.
    match goal with |- context [apply_writes (item_writes orderId rest) ?d1] =>
      destruct (IH d1) as (Ho & Ha & Hi); rewrite Ho, Ha, Hi end.
    destruct (p_stockManaged (ri_product item)); cbn; rewrite <- app_assoc; auto.
Qed.

Lemma update_fresh_order pref o l :
  (forall o', In o' l -> o_id o' < o_id o) ->
  map (fun o' => if o_id o' =? o_id o then set_preference_id pref o' else o') (l ++ [o])
  = l ++ [set_preference_id pref o].
Proof.
  intros Hfresh. rewrite map_app. cbn. rewrite Z.eqb_refl. f_equal.
  rewrite <- (map_id l) at 2. apply map_ext_in. intros o' Hin.
  destruct (Z.eqb_spec (o_id o') (o_id o)) as [Heq|_]; [|reflexivity].
  specialize (Hfresh o' Hin). lia.
Qed.

Section Placed.

Context (E : Env).

Lemma order_placed_orders d req a items discount pref :
  orders (order_placed E d req a items discount pref)
  = orders d ++ [set_preference_id (preferenceId pref) (order_row E d req a items discount)].
Proof.
  unfold order_placed. cbn zeta.
  set (o := order_row E d req a items discount).
  destruct (apply_writes_items (o_id o) items (apply_write (Order_create o) d))
    as (Ho & _ & _).
  set (d1 := apply_writes (item_writes (o_id o) items) (apply_write (Order_create o) d)) in *.
  cbn [apply_write orders]. rewrite Ho. cbn [apply_write orders].
  apply update_fresh_order. intros o' Hin. apply next_order_id_fresh. exact Hin.
Qed.

Lemma order_placed_orderItems d req a items discount pref :
  orderItems (order_placed E d req a items discount pref)
  = orderItems d ++ map (order_item_of (next_order_id d)) items.
Proof.
  unfold order_placed. cbn zeta.
  set (o := order_row E d req a items discount).
  destruct (apply_writes_items (o_id o) items (apply_write (Order_create o) d))
    as (_ & _ & Hi).
  set (d1 := apply_writes (item_writes (o_id o) items) (apply_write (Order_create o) d)) in *.
  cbn [apply_write orderItems]. rewrite Hi. reflexivity.
Qed.

End Placed.

(** ** Whole carts *)

Lemma apply_discount_visit_lines discount lines :
  (discount >? of_Z 0)%num = true ->
  apply_discount discount lines = snd (visit_lines discount lines).
Proof.
  intros Hd. unfold apply_discount. rewrite Hd, forEach_allocate_visit_lines.
  destruct lines; reflexivity.
Qed.

Lemma cart_subtotal_nonneg cart :
  Forall (fun '(_, c, q) => 0 <= c /\ 0 < q) cart -> 0 <= cart_subtotal cart.
Proof.
  induction 1 as [|[[p c] q] rest [Hc Hq] _ IH]; cbn [cart_subtotal fold_right]; [lia|].
  fold (cart_subtotal rest). nia.
Qed.

(** The [reduce] of line 89 on whole amounts, as long as the sum is within
    the whole numbers that binary64 holds. *)
Lemma subtotal_of_from cart a :
  Forall (fun '(_, c, q) => 0 <= c /\ 0 < q) cart ->
  0 <= a ->
  a + cart_subtotal cart <= 2 ^ 53 ->
  fold_left (fun acc item => (acc + unit_price_cents item * qty item)%js)
            (map whole_item cart) (of_Z a)
  = of_Z (a + cart_subtotal cart).
Proof.
  intros Hcart. revert a.
  induction Hcart as [|[[p c] q] rest [Hc Hq] Hrest IH]; intros a Ha Hsum.
  - cbn. f_equal. lia.
  - cbn [map fold_left whole_item unit_price_cents qty cart_subtotal fold_right] in *.
    fold (cart_subtotal rest) in *.
    pose proof (cart_subtotal_nonneg rest Hrest).
    rewrite js_mul_of_Z by nia. rewrite js_add_of_Z by nia.
    rewrite IH by nia. f_equal. lia.
Qed.

Lemma subtotal_of_whole cart :
  Forall (fun '(_, c, q) => 0 <= c /\ 0 < q) cart ->
  cart_subtotal cart <= 2 ^ 53 ->
  subtotal_of (map whole_item cart) = of_Z (cart_subtotal cart).
Proof.
  intros Hcart Hsum. unfold subtotal_of.
  rewrite subtotal_of_from by (assumption || lia). reflexivity.
Qed.

(** [Math.max(0, subtotal + shipping - discount)] on whole amounts. *)
Lemma total_of_whole a s d :
  Z.abs (a + s) <= 2 ^ 53 -> Z.abs (a + s - d) <= 2 ^ 53 ->
  total_of (of_Z a) (of_Z s) (of_Z d) = of_Z (Z.max 0 (a + s - d)).
Proof.
  intros H1 H2. unfold total_of.
  rewrite js_add_of_Z, js_sub_of_Z by assumption. apply Math_max_of_Z.
Qed.

Lemma cents_lines_total cart sel s :
  0 <= s -> cents_total (cents_lines cart sel s) = cart_subtotal cart + s.
Proof.
  intros Hs. unfold cents_lines.
  induction cart as [|[[p c] q] rest IH].
  - cbn [map app]. destruct (Z.ltb_spec 0 s); cbn; lia.
  - cbn [map app cents_total cart_subtotal fold_right] in *.
    fold (cart_subtotal rest). rewrite <- Z.add_assoc, <- IH. reflexivity.
Qed.

Lemma cents_lines_half cart sel s :
  half_quantities (cents_lines cart sel s) = cart_half_quantities cart.
Proof.
  unfold cents_lines.
  induction cart as [|[[p c] q] rest IH].
  - cbn [map app]. destruct (0 <? s); reflexivity.
  - cbn [map app half_quantities cart_half_quantities fold_right] in *.
    fold (cart_half_quantities rest). rewrite <- IH. reflexivity.
Qed.

Lemma cents_lines_whole cart sel s :
  Forall (fun '(_, c, q) => 0 <= c /\ 0 < q) cart ->
  0 <= s ->
  Forall (fun '(_, c, q) => 0 <= c /\ 0 < q) (cents_lines cart sel s).
Proof.
  intros H Hs. unfold cents_lines. apply Forall_app. split.
  - apply Forall_map. eapply Forall_impl; [exact H|]. intros [[p c] q]. auto.
  - destruct (0 <? s); repeat constructor; lia.
Qed.

Lemma cart_in_range cart :
  Forall (fun '(_, c, q) => 0 <= c /\ 0 < q) cart ->
  cart_subtotal cart <= max_cents ->
  Forall (fun '(_, c, q) => 0 <= c /\ 0 < q /\ c * q <= max_cents) cart.
Proof.
  induction 1 as [|[[p c] q] rest [Hc Hq] Hrest IH]; intros Hsum; [constructor|].
  cbn [cart_subtotal fold_right] in Hsum. fold (cart_subtotal rest) in Hsum.
  pose proof (cart_subtotal_nonneg rest Hrest).
  constructor; [nia|apply IH; nia].
Qed.

Lemma cents_lines_range cart sel s :
  Forall (fun '(_, c, q) => 0 <= c /\ 0 < q /\ c * q <= max_cents) cart ->
  s <= max_cents ->
  Forall (fun '(_, c, q) => 0 <= c /\ 0 < q /\ c * q <= max_cents) (cents_lines cart sel s).
Proof.
  intros H Hs. unfold cents_lines. apply Forall_app. split.
  - apply Forall_map. eapply Forall_impl; [exact H|]. intros [[p c] q]. auto.
  - destruct (Z.ltb_spec 0 s); repeat constructor; lia.
Qed.

(** A cart in whole cents within [max_cents], shipping included. *)
Lemma cents_lines_within cart sel s :
  Forall (fun '(_, c, q) => 0 <= c /\ 0 < q) cart ->
  0 <= s ->
  cart_subtotal cart + s <= max_cents ->
  Forall (fun '(_, c, q) => 0 <= c /\ 0 < q /\ c * q <= max_cents) (cents_lines cart sel s).
Proof.
  intros H Hs Hsum. pose proof (cart_subtotal_nonneg cart H).
  apply cents_lines_range; [apply cart_in_range; [exact H|lia]|lia].
Qed.

(** On a cart in whole cents within [max_cents] the loop of the source is
    [allocate_cents]. *)
Lemma apply_discount_cents (cart : list (product * Z * Z)) sel s d :
  Forall (fun '(_, c, q) => 0 <= c /\ 0 < q) cart ->
  0 <= s ->
  0 < d <= 2 ^ 53 ->
  cart_subtotal cart + s <= max_cents ->
  apply_discount (of_Z d) (build_mpItems (map whole_item cart) sel (of_Z s))
  = map cents_line (snd (allocate_cents d (cents_lines cart sel s))).
Proof.
  intros Hcart Hs Hd Hsum.
  rewrite apply_discount_visit_lines by (unfold num_gt; rewrite of_Z_lt; lia).
  rewrite build_mpItems_cents, visit_lines_cents; [reflexivity| |lia].
  apply cents_lines_within; assumption.
Qed.

(** The lines left by the allocation add up to a whole number of cents. *)
Lemma allocated_lines_total (cart : list (product * Z * Z)) sel s d :
  Forall (fun '(_, c, q) => 0 <= c /\ 0 < q) cart ->
  0 <= s ->
  0 < d <= 2 ^ 53 ->
  cart_subtotal cart + s <= max_cents ->
  lines_total (apply_discount (of_Z d) (build_mpItems (map whole_item cart) sel (of_Z s)))
  = of_Z (cents_total (snd (allocate_cents d (cents_lines cart sel s)))).
Proof.
  intros Hcart Hs Hd Hsum. rewrite apply_discount_cents by assumption.
  destruct (allocate_cents_range d (cents_lines cart sel s) ltac:(lia)
              (cents_lines_within cart sel s Hcart Hs Hsum)) as [Hrange Htotal].
  rewrite cents_lines_total in Htotal by exact Hs.
  apply lines_total_cents; [exact Hrange|]. unfold max_cents in Hsum. lia.
Qed.

Lemma cart_half_quantities_small cart :
  Forall (fun '(_, _, q) => 0 < q /\ q <= 3) cart ->
  cart_half_quantities cart <= Z.of_nat (length cart).
Proof.
  induction 1 as [|[[p c] q] rest Hq _ IH]; [reflexivity|].
  cbn [cart_half_quantities fold_right length]. fold (cart_half_quantities rest).
  assert (q / 2 < 2) by (apply Z.div_lt_upper_bound; lia). lia.
Qed.

(** ** Unit prices on binary64

    Whatever the doubles, a line the loop reprices gets a unit price that is
    not below zero: [Math.max(0, x)] is [x] only when [0 < x]. *)

Lemma binary64_max_not_negative (x : float) :
  PrimFloat.ltb (Binary64.max 0 x) 0 = false.
Proof.
  unfold Binary64.max. change (PrimFloat.is_nan 0) with false. cbn [orb].
  destruct (PrimFloat.is_nan x); [reflexivity|].
  destruct (PrimFloat.ltb 0 x) eqn:H; [|reflexivity].
  rewrite ltb_spec in *. change (Prim2SF 0) with (S754_zero false) in *.
  destruct (Prim2SF x) as [s| [] | |[] m e]; cbn in *; congruence.
Qed.

Lemma binary64_visit_price remaining mpItem :
  snd (Binary64.visit remaining mpItem) = mpItem \/
  PrimFloat.ltb (fst (snd (Binary64.visit remaining mpItem))) 0 = false.
Proof.
  unfold Binary64.visit. destruct mpItem as [unit_price quantity].
  destruct (PrimFloat.leb remaining 0); [left; reflexivity|].
  destruct (PrimFloat.leb _ 0); [left; reflexivity|].
  right. cbn [fst snd]. apply binary64_max_not_negative.
Qed.

(** X28.  On binary64 doubles as well, whatever the discount and the lines
    (not-a-number and the infinities included), every line the loop reprices
    ends with a unit price that is not below zero. *)
Lemma binary64_never_negative remaining mpItems :
  Forall2 (fun before after =>
             after = before \/ PrimFloat.ltb (fst after) 0 = false)
          mpItems (Binary64.forEach remaining mpItems).
Proof.
  revert remaining. induction mpItems as [|mpItem rest IH]; intros remaining;
    cbn [Binary64.forEach].
  - constructor.
  - pose proof (binary64_visit_price remaining mpItem) as H.
    destruct (Binary64.visit remaining mpItem) as [remaining' mpItem'].
    constructor; [exact H|apply IH].
Qed.

(** * The claims of the specification *)

(** ** Discount allocation *)

(** C5.  For every list of payment lines and every discount, the allocation
    never makes a unit price negative: each line either is left as it was,
    or ends with a unit price that is not below zero. *)
Theorem discount_never_makes_price_negative (discount : num) (lines : list mp_item) :
  Forall2 (fun before after =>
             after = before \/ (unit_price after <? of_Z 0)%num = false)
          lines (apply_discount discount lines).
Proof.
  unfold apply_discount. destruct (_ && _).
  - rewrite forEach_allocate_visit_lines. cbn [mpItems]. apply visit_lines_prices.
  - induction lines; constructor; auto.
Qed.

(** C2, as the specification states it, fails: for an item priced at 12.5
    cents and bought three times, with a discount of one cent, the source
    takes the line subtotal to be [round(0.125 * 100 * 3) = 38] and sends the
    gateway the unit price 0.12 (the double [12 / 100]), where
    [round(0.125 * 100) * 3 = 39] gives 0.13. *)
Lemma allocation_line_subtotal_counterexample :
  let item := {| ri_product := Sample.product_A; qty := of_Z 3;
                 unit_price_cents := of_Q (25 # 2) |} in
  let lines := build_mpItems [item] Sample.no_shipping (of_Z 0) in
  let req := Sample.order_request [Sample.line "A" (JNum (of_Z 3)) (JNum (of_Q (25 # 2)))]
                                  7 0 (JStr "OFF1") in
  map (fun r => map unit_price (pr_items r))
      (Sample.payment_requests (log (snd (createOrder Sample.shop req Sample.shop_open))))
  = [[(of_Z 12 / of_Z 100)%js]] /\
  map unit_price (apply_discount (of_Z 1) lines) = [(of_Z 12 / of_Z 100)%js] /\
  map unit_price (snd (spec_allocate (of_Z 1) lines)) = [(of_Z 13 / of_Z 100)%js] /\
  apply_discount (of_Z 1) lines <> snd (spec_allocate (of_Z 1) lines).
Proof. cbn zeta. repeat split; compute_done. Qed.

(** C2, amended.  For items priced in whole non-negative cents and bought
    in whole positive quantities, no line above [max_cents] ([2^50] cents)
    and a shipping cost not above it, and a positive discount, the payment
    lines are one per item in cart order, then a shipping line when the
    shipping cost is positive, and the loop of the source computes on them,
    in the arithmetic of the runtime, the allocation the specification
    describes (with its line subtotal [round(unit_price * 100) * quantity]),
    down to the discount left over. *)
Theorem allocation_follows_specification
    (cart : list (product * Z * Z)) (sel : shipping_selection) (s : Z) (discount : num) :
  Forall (fun '(_, c, q) => 0 <= c /\ 0 < q /\ c * q <= max_cents) cart ->
  s <= max_cents ->
  (discount >? of_Z 0)%num = true ->
  let lines := build_mpItems (map whole_item cart) sel (of_Z s) in
  lines = map mp_item_of (map whole_item cart) ++
          (if 0 <? s then [shipping_mp_item sel (of_Z s)] else []) /\
  apply_discount discount lines = snd (spec_allocate discount lines) /\
  remainingDiscount (forEach_allocate discount lines) = fst (spec_allocate discount lines).
Proof.
  intros Hcart Hs Hd lines. split.
  - unfold lines, build_mpItems, num_gt. rewrite of_Z_lt. reflexivity.
  - assert (Hv : visit_lines discount lines = spec_allocate discount lines).
    { unfold lines. rewrite build_mpItems_cents. apply visit_lines_spec.
      - apply cents_lines_range; assumption.
      - apply num_lt_le. exact Hd. }
    unfold apply_discount. rewrite Hd. rewrite forEach_allocate_visit_lines.
    cbn [mpItems remainingDiscount]. rewrite Hv. split; [|reflexivity].
    destruct lines; reflexivity.
Qed.

(** The scenario of the specification: two units at 10.00, shipping 5.00 and
    a discount of 3.00 give the lines 8.50 x 2 and 5.00 x 1. *)
Lemma allocation_follows_specification_witness :
  let cart := [(Sample.product_A, 1000, 2)] in
  let lines := build_mpItems (map whole_item cart) Sample.no_shipping (of_Z 500) in
  (apply_discount (of_Z 300) lines = snd (spec_allocate (of_Z 300) lines)) /\
  map unit_price (apply_discount (of_Z 300) lines) = [of_Q (850 # 100); of_Q (500 # 100)].
Proof.
  cbn zeta. split.
  - apply (allocation_follows_specification
             [(Sample.product_A, 1000, 2)] Sample.no_shipping 500 (of_Z 300)).
    + repeat constructor; unfold max_cents; lia.
    + unfold max_cents. lia.
    + vm_compute. reflexivity.
  - compute_done.
Defined.

(** C3, as the specification states it, fails: for one line of a hundred
    units at 10.00 and a discount of 50 cents, the unit price stays 10.00
    ([round(99950 / 100) = 1000]); the single payment line adds up to 100000
    cents against a grand total of 99950, fifty cents apart. *)
Lemma rounding_residual_counterexample :
  let item := {| ri_product := Sample.product_A; qty := of_Z 100;
                 unit_price_cents := of_Z 1000 |} in
  let lines := apply_discount (of_Z 50) (build_mpItems [item] Sample.no_shipping (of_Z 0)) in
  let total := total_of (subtotal_of [item]) (of_Z 0) (of_Z 50) in
  let run := createOrder Sample.shop
               (Sample.order_request [Sample.line "A" (JNum (of_Z 100)) JUndefined]
                                     7 0 (JStr "OFF50"))
               Sample.shop_open in
  map pr_items (Sample.payment_requests (log (snd run))) = [lines] /\
  map totalCents (orders (store (snd run))) = [total] /\
  length lines = 1%nat /\
  lines_total lines = of_Z 100000 /\
  total = of_Z 99950 /\
  ~ (exists paid due,
       lines_total lines = of_Z paid /\ total = of_Z due /\
       Z.abs (paid - due) <= Z.of_nat (length lines)).
Proof.
  cbn zeta. repeat split; try compute_done.
  intros (paid & due & Hpaid & Hdue & Hbound).
  assert (Hp : paid = 100000) by (apply of_Z_inj; rewrite <- Hpaid; compute_done).
  assert (Hd : due = 99950) by (apply of_Z_inj; rewrite <- Hdue; compute_done).
  subst. vm_compute in Hbound. apply Hbound. reflexivity.
Qed.

(** C3, amended.  For items priced in whole non-negative cents and bought in
    whole positive quantities, a whole non-negative shipping cost and a whole
    positive discount, the subtotal plus the shipping cost and the discount
    not above [max_cents] ([2^50] cents), the payment lines add up to a whole
    number of cents that differs from the grand total by at most the sum
    over the items of half the quantity, rounded down; that is within the
    number of items when no quantity exceeds three. *)
Theorem rounding_residual_bound
    (cart : list (product * Z * Z)) (sel : shipping_selection) (s d : Z) :
  Forall (fun '(_, c, q) => 0 <= c /\ 0 < q) cart ->
  0 <= s ->
  0 < d <= max_cents ->
  cart_subtotal cart + s <= max_cents ->
  exists paid total,
    lines_total (apply_discount (of_Z d) (build_mpItems (map whole_item cart) sel (of_Z s)))
    = of_Z paid /\
    total_of (subtotal_of (map whole_item cart)) (of_Z s) (of_Z d) = of_Z total /\
    Z.abs (paid - total) <= cart_half_quantities cart /\
    (Forall (fun '(_, _, q) => q <= 3) cart ->
     Z.abs (paid - total) <= Z.of_nat (length cart)).
Proof.
  intros Hcart Hs Hd Hsum.
  set (zl := cents_lines cart sel s).
  pose proof (cart_subtotal_nonneg cart Hcart) as Hnn0.
  exists (cents_total (snd (allocate_cents d zl))), (Z.max 0 (cart_subtotal cart + s - d)).
  assert (Hbound : Z.abs (cents_total (snd (allocate_cents d zl))
                         - Z.max 0 (cart_subtotal cart + s - d))
                   <= cart_half_quantities cart).
  { pose proof (allocate_cents_total d zl ltac:(lia) (cents_lines_whole cart sel s Hcart Hs))
      as (_ & Hnn & Hbound & _).
    unfold zl in Hnn, Hbound. rewrite cents_lines_total in Hnn, Hbound by exact Hs.
    rewrite cents_lines_half in Hbound. fold zl in Hbound. lia. }
  unfold max_cents in *.
  split; [|split; [|split]].
  - apply allocated_lines_total; (assumption || unfold max_cents; lia).
  - rewrite subtotal_of_whole by (assumption || lia). apply total_of_whole; lia.
  - exact Hbound.
  - intros Hsmall. etransitivity; [exact Hbound|].
    apply cart_half_quantities_small.
    rewrite Forall_forall in *. intros [[p c] q] Hin.
    specialize (Hcart _ Hin). specialize (Hsmall _ Hin). cbn in *. lia.
Qed.

(** Three units at 10.00 with a discount of one real: the unit price becomes
    9.67, the line adds up to 2901 cents against a grand total of 2900, one
    cent apart, as [floor (3 / 2)] allows. *)
Lemma rounding_residual_bound_witness :
  let cart := [(Sample.product_A, 1000, 3)] in
  exists paid total,
    lines_total (apply_discount (of_Z 100)
                   (build_mpItems (map whole_item cart) Sample.no_shipping (of_Z 0)))
    = of_Z paid /\
    total_of (subtotal_of (map whole_item cart)) (of_Z 0) (of_Z 100) = of_Z total /\
    paid = 2901 /\ total = 2900 /\ cart_half_quantities cart = 1 /\
    Z.abs (paid - total) <= cart_half_quantities cart.
Proof.
  cbn zeta.
  destruct (rounding_residual_bound [(Sample.product_A, 1000, 3)] Sample.no_shipping 0 100)
    as (paid & total & Hpaid & Htotal & Hbound & _).
  - repeat constructor; lia.
  - lia.
  - unfold max_cents. lia.
  - unfold max_cents. cbn. lia.
  - exists paid, total. split; [exact Hpaid|]. split; [exact Htotal|].
    split; [apply of_Z_inj; rewrite <- Hpaid; compute_done|].
    split; [apply of_Z_inj; rewrite <- Htotal; compute_done|].
    split; [reflexivity|exact Hbound].
Defined.

Section Claims.

Context (E : Env).

Lemma createOrder_inv req w r w' :
  createOrder E req w = (r, w') -> exists resp, r = Ok resp /\ order_run E req w resp w'.
Proof.
  intros H. destruct (createOrder_run E req w) as (resp & w1 & Hrun & Hpath).
  rewrite Hrun in H. injection H as <- <-. exists resp. auto.
Qed.

Lemma resolveItems_on_nonempty d rawItems items :
  resolveItems_on E d rawItems = Ok items -> items <> [].
Proof.
  destruct rawItems as [v|lines|before after]; [discriminate| |].
  - rewrite resolveItems_on_array. destruct lines as [|l ls]; [discriminate|].
    destruct (resolve_loop_on E d (l :: ls) []) as [its|e]; [|discriminate].
    destruct its; cbn; [discriminate|]. intros H. injection H as <-. discriminate.
  - rewrite resolveItems_on_with_null.
    destruct (resolve_loop_on E d before []); discriminate.
Qed.

(** An error response: the store is as it was and the transaction was rolled
    back last. *)
Lemma order_run_failed req w resp w' :
  order_run E req w resp w' ->
  status resp <> 200 ->
  store w' = store w /\
  last (log w') = Some Transaction_rollback /\
  (status resp = 400 \/ status resp = 404) /\
  exists text, json resp = Error_json text.
Proof.
  intros Hrun Hst.
  inversion Hrun; subst; cbn [status json store log] in *; try congruence;
    (split; [reflexivity|]); (split; [|split; [auto|eexists; reflexivity]]).
  all: repeat first [rewrite last_app | rewrite last_cons]; reflexivity.
Qed.

(** A response with status 200: the run placed the order. *)
Lemma order_run_placed req w resp w' :
  order_run E req w resp w' ->
  status resp = 200 ->
  exists items a discount pref reads,
    ensureFields E (body req) required_fields = [] /\
    resolveItems_on E (store w) (b_items (body req)) = Ok items /\
    Forall (fun ev => is_product_read ev = true) reads /\
    find_address E (store w) req = Some a /\
    discount_for E req (subtotal_of items) = Ok discount /\
    createPreference E (payment_request E req items discount) = Ok pref /\
    json resp = Order_json (next_order_id (store w)) (preferenceId pref) (initPoint pref) /\
    store w' = order_placed E (store w) req a items discount pref /\
    log w' = log w ++ Transaction_begin :: reads ++
             Address_findOne (b_address_id (body req)) (u_id (req_user req)) ::
             coupon_calls E req (subtotal_of items) ++
             placing_calls E (store w) req a items discount pref.
Proof.
  intros Hrun Hst.
  inversion Hrun; subst; cbn [status json store log] in *; try discriminate.
  exists items, a, discount, pref, reads. repeat split; assumption || reflexivity.
Qed.

(** C1, amended.  Whenever [createOrder] answers with an order (so the
    cart resolved to a non-empty list of items), the Order row it committed
    carries as subtotal what the [reduce] of line 89 makes of the resolved
    items in the arithmetic of the runtime (each product and each partial
    sum rounded to binary64), and as grand total
    [max (0, subtotal + shipping - discount)] in the same arithmetic.  When
    the prices are whole non-negative numbers of cents, the quantities whole
    and positive, the shipping cost and the discount whole, and the amounts
    (the subtotal, with the shipping cost, and less the discount) stay within
    [2^53], these are the whole numbers of the specification: the sum over
    the items of unit price times quantity, and
    [max (0, subtotal + shipping - discount)]. *)
Theorem order_totals req w resp w' :
  createOrder E req w = (Ok resp, w') ->
  status resp = 200 ->
  exists items discount o,
    resolveItems_on E (store w) (b_items (body req)) = Ok items /\
    items <> [] /\
    discount_for E req (subtotal_of items) = Ok discount /\
    orders (store w') = orders (store w) ++ [o] /\
    subtotalCents o = subtotal_of items /\
    shippingCents o = shipping_of E req /\
    discountCents o = discount /\
    totalCents o
    = Math_max (of_Z 0) (subtotalCents o + shippingCents o - discountCents o)%js /\
    (forall cart s d,
       items = map whole_item cart ->
       Forall (fun '(_, c, q) => 0 <= c /\ 0 < q) cart ->
       shipping_of E req = of_Z s ->
       discount = of_Z d ->
       cart_subtotal cart <= 2 ^ 53 ->
       Z.abs (cart_subtotal cart + s) <= 2 ^ 53 ->
       Z.abs (cart_subtotal cart + s - d) <= 2 ^ 53 ->
       subtotalCents o = of_Z (cart_subtotal cart) /\
       totalCents o = of_Z (Z.max 0 (cart_subtotal cart + s - d)) /\
       isInteger (subtotalCents o) = true /\
       isInteger (totalCents o) = true).
Proof.
  intros H Hst. apply createOrder_inv in H. destruct H as (resp0 & [= <-] & Hrun).
  destruct (order_run_placed req w resp w' Hrun Hst)
    as (items & a & discount & pref & reads & _ & Hitems & _ & _ & Hdisc & _ & _ & Hstore & _).
  exists items, discount,
    (set_preference_id (preferenceId pref) (order_row E (store w) req a items discount)).
  split; [exact Hitems|]. split; [eapply resolveItems_on_nonempty; exact Hitems|].
  split; [exact Hdisc|]. split; [rewrite Hstore; apply order_placed_orders|].
  cbn [set_preference_id order_row subtotalCents shippingCents discountCents totalCents].
  split; [reflexivity|]. split; [reflexivity|]. split; [reflexivity|].
  split; [reflexivity|].
  intros cart s d -> Hcart Hship -> Hsum Hs Hd.
  rewrite Hship, subtotal_of_whole, total_of_whole by assumption.
  repeat split; apply isInteger_of_Z.
Qed.

(** C9.  In a run that places an order, the Order row and the OrderItem rows
    are written before the payment request is built, and what is committed
    is what was written: the totals computed from the resolved items and
    their unit prices and quantities, whatever the allocation made of the
    payment lines; only the lines of the payment request carry the
    allocated prices. *)
Theorem allocation_leaves_persisted_rows req w resp w' :
  createOrder E req w = (Ok resp, w') ->
  status resp = 200 ->
  exists items a discount pref before,
    resolveItems_on E (store w) (b_items (body req)) = Ok items /\
    discount_for E req (subtotal_of items) = Ok discount /\
    let o := order_row E (store w) req a items discount in
    let sel := shippingSelection_of (b_shipping (body req)) in
    log w' =
      log w ++ before ++
      Db_write (Order_create o) ::
      map Db_write (item_writes (o_id o) items) ++
      [Payment_createPreference
         {| pr_items :=
              apply_discount discount (build_mpItems items sel (shipping_of E req));
            pr_payer := {| email := u_email (req_user req);
                           name := u_name (req_user req);
                           cpf := u_cpf (req_user req) |} |};
       Db_write (Order_update (o_id o) (preferenceId pref));
       Transaction_commit] /\
    orders (store w') = orders (store w) ++ [set_preference_id (preferenceId pref) o] /\
    (subtotalCents o, shippingCents o, discountCents o, totalCents o)
    = (subtotal_of items, shipping_of E req, discount,
       total_of (subtotal_of items) (shipping_of E req) discount) /\
    orderItems (store w')
    = orderItems (store w) ++ map (order_item_of (o_id o)) items /\
    map oi_unitPriceCents (map (order_item_of (o_id o)) items) = map unit_price_cents items /\
    map oi_quantity (map (order_item_of (o_id o)) items) = map qty items.
Proof.
  intros H Hst. apply createOrder_inv in H. destruct H as (resp0 & [= <-] & Hrun).
  destruct (order_run_placed req w resp w' Hrun Hst)
    as (items & a & discount & pref & reads & _ & Hitems & _ & _ & Hdisc & _ & _
        & Hstore & Hlog).
  exists items, a, discount, pref,
    (Transaction_begin :: reads ++
     Address_findOne (b_address_id (body req)) (u_id (req_user req)) ::
     coupon_calls E req (subtotal_of items)).
  split; [exact Hitems|]. split; [exact Hdisc|]. cbn zeta.
  split.
  { rewrite Hlog. unfold placing_calls, payment_request. cbn zeta.
    cbn [app]. rewrite <- !app_assoc. reflexivity. }
  split; [rewrite Hstore; apply order_placed_orders|].
  split; [reflexivity|].
  split; [rewrite Hstore; apply order_placed_orderItems|].
  rewrite !map_map. split; reflexivity.
Qed.

(** C8.  Every run of [createOrder] answers.  Either it answers with an
    order, the payment preference was created and is the one recorded, and
    the transaction was committed last; or it answers with an error, the
    transaction was rolled back last and the store is as it was before the
    request: no Order row, no OrderItem row and no stock decrement persists.
    In particular a failure of the payment gateway leaves the store as it
    was. *)
Theorem failure_rolls_back req w :
  exists resp w',
    createOrder E req w = (Ok resp, w') /\
    ((status resp = 200 /\
      last (log w') = Some Transaction_commit /\
      exists items discount pref,
        resolveItems_on E (store w) (b_items (body req)) = Ok items /\
        discount_for E req (subtotal_of items) = Ok discount /\
        createPreference E (payment_request E req items discount) = Ok pref /\
        json resp = Order_json (next_order_id (store w)) (preferenceId pref)
                               (initPoint pref))
     \/
     (status resp <> 200 /\
      (exists text, json resp = Error_json text) /\
      last (log w') = Some Transaction_rollback /\
      store w' = store w)) /\
    (forall items discount e,
       resolveItems_on E (store w) (b_items (body req)) = Ok items ->
       discount_for E req (subtotal_of items) = Ok discount ->
       createPreference E (payment_request E req items discount) = Throw e ->
       status resp <> 200 /\ store w' = store w).
Proof.
  destruct (createOrder_run E req w) as (resp & w' & Hrun & Hpath).
  exists resp, w'. split; [exact Hrun|].
  assert (Hcases : status resp = 200 \/ status resp <> 200)
    by (destruct (Z.eq_dec (status resp) 200); auto).
  split.
  - destruct Hcases as [H200|Hnot].
    + left. split; [exact H200|].
      destruct (order_run_placed req w resp w' Hpath H200)
        as (items & a & discount & pref & reads & _ & Hitems & _ & _ & Hdisc & Hpay
            & Hjson & _ & Hlog).
      split.
      { rewrite Hlog. unfold placing_calls. cbn zeta.
        repeat first [rewrite last_app | rewrite last_cons]. reflexivity. }
      exists items, discount, pref. auto.
    + right. destruct (order_run_failed req w resp w' Hpath Hnot) as (Hs & Hl & _ & Hj).
      auto.
  - intros items discount e Hitems Hdisc Hpay.
    destruct Hcases as [H200|Hnot].
    + destruct (order_run_placed req w resp w' Hpath H200)
        as (items' & a & discount' & pref & reads & _ & Hitems' & _ & _ & Hdisc' & Hpay' & _).
      rewrite Hitems in Hitems'. injection Hitems' as <-.
      rewrite Hdisc in Hdisc'. injection Hdisc' as <-.
      rewrite Hpay in Hpay'. discriminate.
    + split; [exact Hnot|]. apply (order_run_failed req w resp w' Hpath Hnot).
Qed.

Lemma foreign_address_not_found d req :
  foreign_address E d req -> find_address E d req = None.
Proof.
  intros [_ Hforeign]. unfold find_address.
  destruct (List.find _ (addresses d)) as [a|] eqn:Hfind; [|reflexivity].
  apply find_some in Hfind. destruct Hfind as [Hin Hmatch].
  apply andb_true_iff in Hmatch. destruct Hmatch as [Hid Huser].
  apply Z.eqb_eq in Huser. exfalso. exact (Hforeign a Hin Hid Huser).
Qed.

Lemma reads_are_not_writes reads :
  Forall (fun ev => is_product_read ev = true) reads ->
  Forall (fun ev => is_write ev = false) reads.
Proof.
  intros H. eapply Forall_impl; [exact H|]. intros [] Hr; cbn in *; congruence.
Qed.

(** C10, amended.  When the [address_id] of a request names an address of
    the store that belongs to another user, no order is created: the store
    is left as it was and nothing is written, whatever the answer.  The
    answer is 404 'Endereco invalido.' when the request names the required
    fields and its items resolve; otherwise it fails earlier, with status
    400: 'Dados incompletos.' when a required field is missing, else the
    message of the error of the resolver. *)
Theorem foreign_address_is_refused req w resp w' :
  createOrder E req w = (Ok resp, w') ->
  foreign_address E (store w) req ->
  store w' = store w /\
  status resp <> 200 /\
  (exists calls, log w' = log w ++ calls /\ Forall (fun ev => is_write ev = false) calls) /\
  (ensureFields E (body req) required_fields = [] ->
   (exists items, resolveItems_on E (store w) (b_items (body req)) = Ok items) ->
   resp = {| status := 404; json := Error_json Endereco_invalido |}) /\
  (ensureFields E (body req) required_fields <> [] ->
   resp = {| status := 400; json := Error_json Dados_incompletos |}) /\
  (ensureFields E (body req) required_fields = [] ->
   forall e, resolveItems_on E (store w) (b_items (body req)) = Throw e ->
             resp = {| status := 400; json := Error_json (message_or_default e) |}).
Proof.
  intros H Hforeign. apply createOrder_inv in H. destruct H as (resp0 & [= <-] & Hrun).
  apply foreign_address_not_found in Hforeign.
  inversion Hrun; subst; cbn [status json store log]; try congruence.
  - split; [reflexivity|]. split; [discriminate|]. split; [|split; [|split]].
    + eexists. split; [reflexivity|]. repeat constructor.
    + intros Hreq. contradiction.
    + reflexivity.
    + intros Hreq. contradiction.
  - split; [reflexivity|]. split; [discriminate|]. split; [|split; [|split]].
    + eexists. split; [reflexivity|]. constructor; [reflexivity|].
      apply Forall_app. split; [apply reads_are_not_writes; assumption|repeat constructor].
    + intros _ [items Hitems]. congruence.
    + intros Hreq. contradiction.
    + intros _ e' He'. congruence.
  - split; [reflexivity|]. split; [discriminate|]. split; [|split; [|split]].
    + eexists. split; [reflexivity|]. constructor; [reflexivity|].
      apply Forall_app. split; [apply reads_are_not_writes; assumption|repeat constructor].
    + intros _ _. reflexivity.
    + intros Hreq. contradiction.
    + intros _ e' He'. congruence.
Qed.

(** ** The resolver *)

Lemma line_refused_dec d item :
  usable E item = true ->
  (exists e, line_refused E d item e) \/
  (exists p, found_product E d item = Some p /\ p_active p = true /\
             (p_stockManaged p && (p_stockQuantity p <? line_qty E item)%num) = false /\
             forall e, ~ line_refused E d item e).
Proof.
  intros _. destruct (found_product E d item) as [p|] eqn:Hfound.
  - destruct (p_active p) eqn:Hactive.
    + destruct (p_stockManaged p && (p_stockQuantity p <? line_qty E item)%num) eqn:Hstock.
      * left. apply andb_true_iff in Hstock. destruct Hstock.
        eexists. eapply refused_stock; eassumption.
      * right. exists p. repeat split; try assumption.
        intros e Hr. inversion Hr; subst; try congruence.
        match goal with H : found_product _ _ _ = Some ?p' |- _ =>
          assert (p' = p) by congruence; subst p' end.
        apply andb_false_iff in Hstock. destruct Hstock; congruence.
    + left. eexists. eapply refused_inactive; eassumption.
  - left. eexists. apply refused_unresolved. exact Hfound.
Qed.

Lemma line_refused_throws d item rest items e :
  usable E item = true ->
  line_refused E d item e ->
  resolve_loop_on E d (item :: rest) items = Throw e.
Proof.
  intros Hu Hr. rewrite resolve_loop_on_cons.
  unfold usable in Hu. apply negb_true_iff in Hu. rewrite Hu.
  inversion Hr as [Hf|p Hf Ha|p Hf Ha Hm Hs]; subst; rewrite Hf.
  - reflexivity.
  - rewrite Ha. reflexivity.
  - rewrite Ha, Hm, Hs. reflexivity.
Qed.

Lemma first_refused_throws d lines e :
  first_refused E d lines e -> forall items, resolve_loop_on E d lines items = Throw e.
Proof.
  induction 1 as [item rest e Hu Hr|item rest e Hu _ IH|item rest e Hu Hnot _ IH];
    intros items.
  - apply line_refused_throws; assumption.
  - rewrite resolve_loop_on_cons. unfold usable in Hu. apply negb_false_iff in Hu.
    rewrite Hu. apply IH.
  - destruct (line_refused_dec d item Hu) as [[e' He']|(p & Hf & Ha & Hs & _)].
    + exfalso. exact (Hnot e' He').
    + rewrite resolve_loop_on_cons. unfold usable in Hu. apply negb_true_iff in Hu.
      rewrite Hu, Hf, Ha, Hs. apply IH.
Qed.

Lemma throws_first_refused d lines items e :
  resolve_loop_on E d lines items = Throw e -> first_refused E d lines e.
Proof.
  revert items. induction lines as [|item rest IH]; intros items H.
  - discriminate.
  - destruct (usable E item) eqn:Hu.
    + destruct (line_refused_dec d item Hu) as [[e' He']|(p & Hf & Ha & Hs & Hnot)].
      * rewrite (line_refused_throws d item rest items e' Hu He') in H.
        injection H as <-. apply refused_here; assumption.
      * rewrite resolve_loop_on_cons in H. unfold usable in Hu.
        apply negb_true_iff in Hu. rewrite Hu, Hf, Ha, Hs in H.
        apply refused_after_resolved; [unfold usable; rewrite Hu; reflexivity|exact Hnot|].
        eapply IH. exact H.
    + rewrite resolve_loop_on_cons in H. pose proof Hu as Hu'.
      unfold usable in Hu. apply negb_false_iff in Hu. rewrite Hu in H.
      apply refused_after_skipped; [exact Hu'|]. eapply IH. exact H.
Qed.

Lemma first_refused_kind d lines e :
  first_refused E d lines e ->
  exists item, In item lines /\ usable E item = true /\ line_refused E d item e.
Proof.
  induction 1 as [item rest e Hu Hr|item rest e _ _ IH|item rest e _ _ _ IH].
  - exists item. cbn. auto.
  - destruct IH as (it & Hin & H). exists it. cbn. auto.
  - destruct IH as (it & Hin & H). exists it. cbn. auto.
Qed.

Lemma line_refused_message d item e :
  line_refused E d item e -> e <> Itens_invalidos /\ message_or_default e = Message_of e.
Proof. destruct 1; split; (discriminate || reflexivity). Qed.

(** A cart with a refused line has a first refused line. *)
Lemma refused_has_first d lines item e0 :
  In item lines ->
  usable E item = true ->
  line_refused E d item e0 ->
  exists e, first_refused E d lines e.
Proof.
  intros Hin Hu Hr. induction lines as [|l rest IH]; [destruct Hin|].
  destruct (usable E l) eqn:Hl.
  - destruct (line_refused_dec d l Hl) as [[e He]|(_ & _ & _ & _ & Hnot)].
    + exists e. apply refused_here; assumption.
    + destruct Hin as [->|Hin]; [exfalso; exact (Hnot e0 Hr)|].
      destruct (IH Hin) as [e He]. exists e. apply refused_after_resolved; assumption.
  - destruct Hin as [->|Hin]; [congruence|].
    destruct (IH Hin) as [e He]. exists e. apply refused_after_skipped; assumption.
Qed.

(** C7.  When a line of the cart with a usable quantity is refused (its
    product cannot be resolved or is inactive; or the product tracks
    inventory and the requested quantity exceeds the stock), the resolver
    fails, with the error of the first such line in cart order: 'Produto nao
    encontrado' in the first case, 'Estoque insuficiente' in the second.
    [createOrder] then answers with status 400; the store is left as it was
    and no write was issued: no order row, no stock decrement. *)
Theorem refused_line_fails req w resp w' lines item e0 :
  createOrder E req w = (Ok resp, w') ->
  b_items (body req) = ItemsArray lines ->
  In item lines ->
  usable E item = true ->
  line_refused E (store w) item e0 ->
  exists e,
    first_refused E (store w) lines e /\
    resolveItems_on E (store w) (ItemsArray lines) = Throw e /\
    (exists first, In first lines /\ usable E first = true /\
                   line_refused E (store w) first e) /\
    status resp = 400 /\
    store w' = store w /\
    (exists calls, log w' = log w ++ calls /\ Forall (fun ev => is_write ev = false) calls) /\
    (ensureFields E (body req) required_fields = [] -> json resp = Error_json (Message_of e)).
Proof.
  intros H Hlines Hin Hu Hr0.
  destruct (refused_has_first _ _ _ _ Hin Hu Hr0) as [e Hfirst]. exists e.
  assert (Hthrow : resolveItems_on E (store w) (ItemsArray lines) = Throw e).
  { rewrite resolveItems_on_array. destruct lines as [|l ls]; [inversion Hfirst|].
    rewrite (first_refused_throws _ _ _ Hfirst). reflexivity. }
  destruct (first_refused_kind _ _ _ Hfirst) as (first & Hfin & Hfu & Hr).
  destruct (line_refused_message _ _ _ Hr) as [_ Hmsg].
  split; [exact Hfirst|]. split; [exact Hthrow|]. split; [exists first; auto|].
  apply createOrder_inv in H. destruct H as (resp0 & [= <-] & Hrun).
  rewrite <- Hlines in Hthrow.
  inversion Hrun; subst; cbn [status json store log]; try congruence.
  - split; [reflexivity|]. split; [reflexivity|]. split.
    + eexists. split; [reflexivity|]. repeat constructor.
    + intros Hreq. contradiction.
  - assert (e1 = e) by congruence. subst e1.
    split; [reflexivity|]. split; [reflexivity|]. split.
    + eexists. split; [reflexivity|]. constructor; [reflexivity|].
      apply Forall_app. split; [apply reads_are_not_writes; assumption|repeat constructor].
    + intros _. rewrite Hmsg. reflexivity.
Qed.

(** Conversely, a failure of the resolver other than 'Itens invalidos.' is
    the error of the first refused line. *)
Lemma resolver_failure_is_first_refused d lines e :
  resolveItems_on E d (ItemsArray lines) = Throw e ->
  e <> Itens_invalidos ->
  first_refused E d lines e.
Proof.
  intros He Hne. rewrite resolveItems_on_array in He.
  destruct lines as [|l ls]; [congruence|].
  destruct (resolve_loop_on E d (l :: ls) []) as [its|e'] eqn:Hloop.
  - destruct (length its =? 0)%nat; congruence.
  - injection He as <-. eapply throws_first_refused. exact Hloop.
Qed.

Lemma unusable_lines_resolve_nothing d lines items :
  Forall (fun l => usable E l = false) lines ->
  resolve_loop_on E d lines items = Ok items.
Proof.
  induction 1 as [|l ls Hu _ IH]; [reflexivity|].
  rewrite resolve_loop_on_cons. unfold usable in Hu. apply negb_false_iff in Hu.
  rewrite Hu. exact IH.
Qed.

Lemma filter_nil_unusable lines :
  List.filter (usable E) lines = [] -> Forall (fun l => usable E l = false) lines.
Proof.
  induction lines as [|l ls IH]; cbn; [constructor|].
  destruct (usable E l) eqn:Hu; [discriminate|]. intros H. constructor; auto.
Qed.

(** C6, amended.  The resolver fails with 'Itens invalidos.' if and only if
    its input is not an array, or is an array of lines, without a [null]
    element, none of which has a usable quantity (an empty array among
    them).  An array with a [null] in it never fails so: when no line
    before the first [null] is refused, the resolver throws the [TypeError]
    of the read of [qty] on [null].  On an empty array it fails at once,
    without a single call; [createOrder] then answers 400 having only
    opened and rolled back the transaction, and [quote], given a
    destination, answers 400 having called nothing: neither the shipping,
    nor the coupon, nor the payment collaborator is reached. *)
Theorem invalid_input_iff :
  (forall d rawItems,
     resolveItems_on E d rawItems = Throw Itens_invalidos <->
     match rawItems with
     | NotArray _ => True
     | ItemsArray lines => Forall (fun l => usable E l = false) lines
     | ItemsWithNull _ _ => False
     end) /\
  (forall d before after,
     (forall e, ~ first_refused E d before e) ->
     resolveItems_on E d (ItemsWithNull before after) = Throw null_item_error) /\
  (forall w, resolveItems E (ItemsArray []) w = (Throw Itens_invalidos, w)) /\
  (forall req w,
     b_items (body req) = ItemsArray [] ->
     createOrder E req w =
     (Ok {| status := 400;
            json := match ensureFields E (body req) required_fields with
                    | [] => Error_json (Message_of Itens_invalidos)
                    | _ => Error_json Dados_incompletos
                    end |},
      {| store := store w; pending := store w;
         log := log w ++ [Transaction_begin; Transaction_rollback] |})) /\
  (forall req w,
     b_items (body req) = ItemsArray [] ->
     destination_truthy (b_destination (body req)) = true ->
     quote E req w =
     (Ok {| status := 400; json := Error_json (Message_of Itens_invalidos) |}, w)).
Proof.
  split; [|split; [|split; [|split]]].
  - intros d [v|lines|before after]; [split; [auto|reflexivity]| |].
    + rewrite resolveItems_on_array.
      destruct lines as [|l ls]; [split; [constructor|reflexivity]|].
      split.
      * destruct (resolve_loop_on E d (l :: ls) []) as [items|e] eqn:Hloop.
        -- destruct items as [|it its]; [|discriminate]. intros _.
           apply resolve_loop_on_quantities in Hloop. cbn [map app] in Hloop.
           apply filter_nil_unusable. symmetry in Hloop. apply map_eq_nil in Hloop.
           exact Hloop.
        -- intros [= ->]. exfalso. exact (resolve_loop_on_not_invalid E d _ _ Hloop).
      * intros Hall. rewrite (unusable_lines_resolve_nothing d _ [] Hall). reflexivity.
    + rewrite resolveItems_on_with_null. split; [|tauto].
      destruct (resolve_loop_on E d before []) as [items|e] eqn:Hloop; [discriminate|].
      intros [= ->]. exact (resolve_loop_on_not_invalid E d _ _ Hloop).
  - intros d before after Hnone. rewrite resolveItems_on_with_null.
    destruct (resolve_loop_on E d before []) as [items|e] eqn:Hloop; [reflexivity|].
    exfalso. exact (Hnone e (throws_first_refused d before [] e Hloop)).
  - reflexivity.
  - intros req w Hitems. unfold createOrder, bind at 1, sequelize_transaction, try_catch.
    fold required_fields. rewrite Hitems.
    destruct (ensureFields E (body req) required_fields) as [|f fs].
    + cbn. rewrite <- app_assoc. reflexivity.
    + cbn. rewrite <- app_assoc. reflexivity.
  - intros req w Hitems Hdest. unfold quote, quote_payload, try_catch.
    rewrite Hitems, Hdest. reflexivity.
Qed.

Lemma positive_usable q : (of_Z 0 <? q)%num = negb (qty_unusable q).
Proof. rewrite usable_positive, negb_involutive. reflexivity. Qed.

(** C4, amended.  The resolved items are the lines whose quantity is
    usable, in cart order, each with the quantity
    [Number(qty || quantity || 1)] of its line; a quantity is usable exactly
    when that number is greater than zero, so every resolved item has a
    quantity greater than zero (not necessarily a whole one); and a line
    whose [qty] and [quantity] are absent, or falsy as zero is, has the
    quantity 1. *)
Theorem resolved_quantities d lines items :
  resolveItems_on E d (ItemsArray lines) = Ok items ->
  map qty items = map (line_qty E) (List.filter (usable E) lines) /\
  Forall (fun item => (of_Z 0 <? qty item)%num = true) items /\
  (forall l, usable E l = (of_Z 0 <? line_qty E l)%num) /\
  (forall l, truthy (l_qty l) = false -> truthy (l_quantity l) = false ->
             line_qty E l = of_Z 1).
Proof.
  intros H. rewrite resolveItems_on_array in H. destruct lines as [|l ls]; [discriminate|].
  destruct (resolve_loop_on E d (l :: ls) []) as [its|e] eqn:Hloop; [|discriminate].
  destruct (length its =? 0)%nat; [discriminate|]. injection H as <-.
  apply resolve_loop_on_quantities in Hloop. cbn [map app] in Hloop.
  assert (Hpos : forall x, usable E x = (of_Z 0 <? line_qty E x)%num).
  { intros x. unfold usable. symmetry. apply positive_usable. }
  split; [exact Hloop|]. split; [|split; [exact Hpos|]].
  - apply (Forall_map qty (fun q => (of_Z 0 <? q)%num = true)). rewrite Hloop.
    apply Forall_map. apply Forall_forall. intros x Hx.
    apply list_elem_of_In, filter_In in Hx. destruct Hx as [_ Hx]. rewrite <- Hpos. exact Hx.
  - intros x H1 H2. unfold line_qty, js_or. rewrite H1, H2. cbn. reflexivity.
Qed.

End Claims.

(** ** The claims on the sample shop *)

(** C1, as the specification states it, fails.  Three units at the price of
    12.5 cents that the request supplies: the order is placed with the
    subtotal and the total 37.5, which are no whole numbers of cents.  And
    three units at 9007199254740991 cents: the subtotal committed is
    27021597764222972, the double nearest to the sum 27021597764222973 of
    the specification. *)
Lemma order_totals_counterexample :
  let half := Sample.order_request [Sample.line "A" (JNum (of_Z 3)) (JNum (of_Q (25 # 2)))]
                                   7 0 JUndefined in
  let large := Sample.order_request
                 [Sample.line "A" (JNum (of_Z 3)) (JNum (of_Z 9007199254740991))]
                 7 0 JUndefined in
  let placed := Ok {| status := 200;
                      json := Order_json 1 (JStr "pref-1")
                                         (JStr "https://pay.example/pref-1") |} in
  fst (createOrder Sample.shop half Sample.shop_open) = placed /\
  map (fun o => (subtotalCents o, totalCents o))
      (orders (store (snd (createOrder Sample.shop half Sample.shop_open))))
  = [(of_Q (75 # 2), of_Q (75 # 2))] /\
  isInteger (of_Q (75 # 2)) = false /\
  fst (createOrder Sample.shop large Sample.shop_open) = placed /\
  map subtotalCents (orders (store (snd (createOrder Sample.shop large Sample.shop_open))))
  = [of_Z 27021597764222972] /\
  sum_of_lines [{| ri_product := Sample.product_A; qty := of_Z 3;
                   unit_price_cents := of_Z 9007199254740991 |}]
  = of_Z 27021597764222973.
Proof. cbn zeta. repeat split; compute_done. Qed.

(** The scenario goes through: the order row carries 2000, 500, 300 and
    2200 cents, the whole numbers of the specification. *)
Lemma order_totals_witness :
  let run := createOrder Sample.shop Sample.scenario Sample.shop_open in
  fst run = Ok {| status := 200;
                  json := Order_json 1 (JStr "pref-1") (JStr "https://pay.example/pref-1") |} /\
  exists o,
    orders (store (snd run)) = [o] /\
    subtotalCents o = of_Z 2000 /\ shippingCents o = of_Z 500 /\
    discountCents o = of_Z 300 /\ totalCents o = of_Z 2200.
Proof.
  cbn zeta. split; [compute_done|].
  destruct (order_totals Sample.shop Sample.scenario Sample.shop_open
              {| status := 200;
                 json := Order_json 1 (JStr "pref-1") (JStr "https://pay.example/pref-1") |}
              (snd (createOrder Sample.shop Sample.scenario Sample.shop_open)))
    as (items & discount & o & Hitems & _ & Hdisc & Horders & _ & Hship & Hd & _ & Hwhole).
  - compute_done.
  - reflexivity.
  - vm_compute in Hitems. injection Hitems as <-.
    vm_compute in Hdisc. injection Hdisc as <-.
    destruct (Hwhole [(Sample.product_A, 1000, 2)] 500 300) as (Hsub & Htot & _).
    + compute_done.
    + repeat constructor; lia.
    + compute_done.
    + compute_done.
    + cbn. lia.
    + cbn. lia.
    + cbn. lia.
    + exists o. split; [exact Horders|].
      rewrite Htot, Hsub, Hship, Hd. repeat split; compute_done.
Defined.

(** In the scenario the gateway is sent 8.50 x 2 and 5.00 x 1, and the rows
    committed keep the unit price of 1000 cents and the quantity 2. *)
Lemma allocation_leaves_persisted_rows_witness :
  let run := createOrder Sample.shop Sample.scenario Sample.shop_open in
  map (fun r => map unit_price (pr_items r)) (Sample.payment_requests (log (snd run)))
  = [[of_Q (850 # 100); of_Q (500 # 100)]] /\
  map oi_unitPriceCents (orderItems (store (snd run))) = [of_Z 1000] /\
  map oi_quantity (orderItems (store (snd run))) = [of_Z 2] /\
  map totalCents (orders (store (snd run))) = [of_Z 2200].
Proof.
  cbn zeta. split; [compute_done|].
  destruct (allocation_leaves_persisted_rows Sample.shop Sample.scenario Sample.shop_open
              {| status := 200;
                 json := Order_json 1 (JStr "pref-1") (JStr "https://pay.example/pref-1") |}
              (snd (createOrder Sample.shop Sample.scenario Sample.shop_open)))
    as (items & a & discount & pref & before & Hitems & Hdisc & _ & Horders & _
        & Hrows & Hprices & Hquantities).
  - compute_done.
  - reflexivity.
  - vm_compute in Hitems. injection Hitems as <-.
    vm_compute in Hdisc. injection Hdisc as <-.
    rewrite Hrows, Horders, !map_app, Hprices, Hquantities.
    cbn [map app set_preference_id order_row totalCents].
    repeat split; compute_done.
Defined.

(** C6, as the specification states it, fails: the array [[null]] has no
    line with a usable quantity, yet the resolver does not fail with 'Itens
    invalidos.': the read of [qty] on the [null] throws a [TypeError], and
    [createOrder] answers 400 with the message of that error. *)
Lemma invalid_input_counterexample :
  let rawItems := ItemsWithNull [] [] in
  resolveItems_on Sample.shop Sample.shop_db rawItems = Throw null_item_error /\
  resolveItems_on Sample.shop Sample.shop_db rawItems <> Throw Itens_invalidos /\
  b_items (body Sample.null_cart_request) = rawItems /\
  fst (createOrder Sample.shop Sample.null_cart_request Sample.shop_open)
  = Ok {| status := 400; json := Error_json (Message_of null_item_error) |}.
Proof. cbn zeta. repeat split; compute_done. Qed.

(** C10, as stated, fails: a request that names the address 8 of another
    user and an empty cart is answered 400 'Itens invalidos.', not 404. *)
Lemma foreign_address_counterexample :
  let req := Sample.order_request [] 8 500 JUndefined in
  let run := createOrder Sample.shop req Sample.shop_open in
  foreign_address Sample.shop Sample.shop_db req /\
  fst run = Ok {| status := 400; json := Error_json (Message_of Itens_invalidos) |} /\
  (forall resp, fst run = Ok resp -> status resp <> 404).
Proof.
  cbn zeta. split; [|split].
  - split.
    + exists {| a_id := 8; a_userId := 99 |}. split; [right; left; reflexivity|compute_done].
    + intros a [<-|[<-|[]]] Hmatch; [vm_compute in Hmatch; discriminate|discriminate].
  - compute_done.
  - intros resp H. vm_compute in H. injection H as <-. discriminate.
Qed.

(** The same address with a cart that resolves: 404, and the store as it
    was. *)
Lemma foreign_address_is_refused_witness :
  let req := Sample.order_request [Sample.line "A" (JNum (of_Z 2)) JUndefined] 8 500 JUndefined in
  let run := createOrder Sample.shop req Sample.shop_open in
  foreign_address Sample.shop Sample.shop_db req /\
  fst run = Ok {| status := 404; json := Error_json Endereco_invalido |} /\
  store (snd run) = Sample.shop_db.
Proof.
  cbn zeta.
  assert (Hforeign : foreign_address Sample.shop Sample.shop_db
            (Sample.order_request [Sample.line "A" (JNum (of_Z 2)) JUndefined] 8 500 JUndefined)).
  { split.
    - exists {| a_id := 8; a_userId := 99 |}. split; [right; left; reflexivity|compute_done].
    - intros a [<-|[<-|[]]] Hmatch; [vm_compute in Hmatch; discriminate|discriminate]. }
  split; [exact Hforeign|].
  destruct (foreign_address_is_refused Sample.shop
              (Sample.order_request [Sample.line "A" (JNum (of_Z 2)) JUndefined] 8 500 JUndefined)
              Sample.shop_open
              {| status := 404; json := Error_json Endereco_invalido |}
              (snd (createOrder Sample.shop
                      (Sample.order_request [Sample.line "A" (JNum (of_Z 2)) JUndefined]
                                            8 500 JUndefined)
                      Sample.shop_open)))
    as (Hstore & _ & _ & _).
  - compute_done.
  - exact Hforeign.
  - split; [compute_done|exact Hstore].
Defined.

(** Two hundred units of a product with 150 in stock, after a line passed
    over for its quantity: 400 'Estoque insuficiente para Stack', and the
    store as it was. *)
Lemma refused_line_fails_witness :
  let greedy := Sample.line "A" (JNum (of_Z 200)) JUndefined in
  let lines := [Sample.line "B" (JNum (of_Z (-1))) JUndefined; greedy] in
  let req := Sample.order_request lines 7 500 JUndefined in
  let run := createOrder Sample.shop req Sample.shop_open in
  line_refused Sample.shop Sample.shop_db greedy (Estoque_insuficiente "Stack") /\
  fst run = Ok {| status := 400;
                  json := Error_json (Message_of (Estoque_insuficiente "Stack")) |} /\
  store (snd run) = Sample.shop_db.
Proof.
  cbn zeta.
  assert (Hrefused : line_refused Sample.shop Sample.shop_db
                       (Sample.line "A" (JNum (of_Z 200)) JUndefined)
                       (Estoque_insuficiente "Stack")).
  { apply (refused_stock Sample.shop Sample.shop_db _ Sample.product_A);
      vm_compute; reflexivity. }
  split; [exact Hrefused|].
  destruct (refused_line_fails Sample.shop
              (Sample.order_request
                 [Sample.line "B" (JNum (of_Z (-1))) JUndefined;
                  Sample.line "A" (JNum (of_Z 200)) JUndefined]
                 7 500 JUndefined)
              Sample.shop_open
              {| status := 400;
                 json := Error_json (Message_of (Estoque_insuficiente "Stack")) |}
              (snd (createOrder Sample.shop
                      (Sample.order_request
                         [Sample.line "B" (JNum (of_Z (-1))) JUndefined;
                          Sample.line "A" (JNum (of_Z 200)) JUndefined]
                         7 500 JUndefined)
                      Sample.shop_open))
              [Sample.line "B" (JNum (of_Z (-1))) JUndefined;
               Sample.line "A" (JNum (of_Z 200)) JUndefined]
              (Sample.line "A" (JNum (of_Z 200)) JUndefined)
              (Estoque_insuficiente "Stack"))
    as (e & _ & _ & _ & _ & Hstore & _).
  - compute_done.
  - reflexivity.
  - right. left. reflexivity.
  - reflexivity.
  - exact Hrefused.
  - split; [compute_done|exact Hstore].
Defined.

(** An inactive product is refused as not found; and of two refused lines
    the first decides. *)
Example inactive_product_is_not_found :
  resolveItems_on Sample.shop Sample.shop_db
    (ItemsArray [Sample.line "B" (JNum (of_Z 1)) JUndefined])
  = Throw (Produto_nao_encontrado (JStr "B")) /\
  resolveItems_on Sample.shop Sample.shop_db
    (ItemsArray [Sample.line "A" (JNum (of_Z 200)) JUndefined;
                 Sample.line "B" (JNum (of_Z 1)) JUndefined])
  = Throw (Estoque_insuficiente "Stack").
Proof. split; compute_done. Qed.

(** C4, as stated, fails: a quantity of 1.5 is resolved as 1.5, which is
    not a whole number; and a line with the quantity 0 is not passed over but
    resolved with the quantity 1. *)
Lemma quantity_coercion_counterexample :
  resolveItems_on Sample.shop Sample.shop_db
    (ItemsArray [Sample.line "A" (JNum (of_Q (3 # 2))) JUndefined])
  = Ok [{| ri_product := Sample.product_A; qty := of_Q (3 # 2);
           unit_price_cents := of_Z 1000 |}] /\
  isInteger (of_Q (3 # 2)) = false /\
  resolveItems_on Sample.shop Sample.shop_db
    (ItemsArray [Sample.line "A" (JNum (of_Z 0)) JUndefined])
  = Ok [{| ri_product := Sample.product_A; qty := of_Z 1;
           unit_price_cents := of_Z 1000 |}].
Proof. repeat split; compute_done. Qed.

(** A cart of three lines, the second with a negative quantity and the
    third with none: the first and the third are resolved, with the
    quantities 2 and 1. *)
Lemma resolved_quantities_witness :
  let lines := [Sample.line "A" (JNum (of_Z 2)) JUndefined;
                Sample.line "A" (JNum (of_Z (-1))) JUndefined;
                Sample.line "A" JUndefined JUndefined] in
  exists items,
    resolveItems_on Sample.shop Sample.shop_db (ItemsArray lines) = Ok items /\
    map qty items = [of_Z 2; of_Z 1] /\
    Forall (fun item => (of_Z 0 <? qty item)%num = true) items.
Proof.
  cbn zeta.
  destruct (resolveItems_on Sample.shop Sample.shop_db
              (ItemsArray [Sample.line "A" (JNum (of_Z 2)) JUndefined;
                           Sample.line "A" (JNum (of_Z (-1))) JUndefined;
                           Sample.line "A" JUndefined JUndefined]))
    as [items|e] eqn:Hitems; [|vm_compute in Hitems; discriminate].
  exists items. split; [reflexivity|].
  destruct (resolved_quantities Sample.shop Sample.shop_db _ items Hitems)
    as (Hqty & Hpos & _ & _).
  split; [|exact Hpos]. rewrite Hqty. compute_done.
Defined.

(** The scenario of the specification with the payment gateway down: the
    order, its item and the stock decrement were written, and then rolled
    back; the answer is 400 and the store is as it was. *)
Example gateway_down_rolls_back :
  let run := createOrder Sample.shop_gateway_down Sample.scenario Sample.shop_open in
  fst run = Ok {| status := 400; json := Error_json (Message_of (Thrown "gateway timeout")) |} /\
  length (List.filter is_write (log (snd run))) = 3%nat /\
  last (log (snd run)) = Some Transaction_rollback /\
  store (snd run) = Sample.shop_db.
Proof. cbn zeta. repeat split; compute_done. Qed.

(** A quote for an empty cart is refused before the shipping service is
    called; a quote for two units of A calls it once, after one lookup, with
    the digits of the postal code. *)
Example quote_of_empty_cart :
  quote Sample.shop (Sample.quote_request_for [] "01310-100") Sample.shop_open
  = (Ok {| status := 400; json := Error_json (Message_of Itens_invalidos) |},
     Sample.shop_open).
Proof. compute_done. Qed.

Example quote_of_two_units :
  let run := quote Sample.shop
               (Sample.quote_request_for [Sample.line "A" (JNum (of_Z 2)) JUndefined]
                                         "01310-100")
               Sample.shop_open in
  fst run = Ok {| status := 200; json := Quote_json tt |} /\
  log (snd run)
  = [Product_findOne_sku (JStr "A");
     Shipping_quote {| destinationCep := "01310100";
                       qr_items := [{| qi_productId := 1; qi_qty := of_Z 2;
                                       qi_price_cents := of_Z 1000 |}] |}].
Proof. cbn zeta. split; compute_done. Qed.

(** The sample shop reads numbers in strings as the runtime does. *)
Example sample_readings :
  forallb (fun '(s, n) => bool_decide (Sample.read_number s = n)) Sample.readings = true.
Proof. vm_compute. reflexivity. Qed.

(** ** The arithmetic of [num] against hardware doubles

    The rounding of [binary64] is the one of the hardware: on doubles of
    every kind the four operations of the runtime on [num] give what the
    processor gives, and the loop of lines 149 to 160 leaves the same unit
    prices on [num] as on doubles, past [2^53] included, where amounts in
    whole cents are no longer followed exactly. *)

Example binary64_operations_agree :
  forallb (fun a => forallb (Binary64.same_operations a) Binary64.samples) Binary64.samples
  = true.
Proof. vm_compute. reflexivity. Qed.

Example binary64_loop_agrees :
  forallb (fun c =>
             forallb (fun q =>
                        forallb (Binary64.same_prices [(c, q); (c + 17, q + 1)] 500)
                                [1; 50; 333; 100000])
                     (Binary64.range 1 3))
          (Binary64.range 0 40)
  = true /\
  Binary64.same_prices [(7, 1000000000000000); (100, 1)] 0 7000000000000050 = true /\
  Binary64.same_prices [(9007199254740793, 1)] 0 1 = true /\
  Binary64.same_prices [(100, 1); (3002399751580333, 3)] 0 101 = true.
Proof. vm_compute. repeat split; reflexivity. Qed.

(** Past [max_cents] the roundings show: seven cents a thousand million
    million times and a line at 1.00, with a discount fifty cents above the
    first line, leave the second line at 0.51, not 0.50; and one line of
    9007199254740793 cents with a discount of one cent adds up to
    9007199254740794 cents. *)
Example beyond_max_cents :
  map unit_price
      (apply_discount (of_Z 7000000000000050)
         (build_mpItems [whole_item (Sample.product_A, 7, 1000000000000000);
                         whole_item (Sample.product_A, 100, 1)]
                        Sample.no_shipping (of_Z 0)))
  = [of_Z 0; (of_Z 51 / of_Z 100)%js] /\
  lines_total
    (apply_discount (of_Z 1)
       (build_mpItems [whole_item (Sample.product_A, 9007199254740793, 1)]
                      Sample.no_shipping (of_Z 0)))
  = of_Z 9007199254740794.
Proof. split; compute_done. Qed.

(** The inputs of the counterexamples are exact in binary64, and so is every
    step of the loop on them. *)

Example binary64_scenario :
  (Binary64.forEach 300 (Binary64.lines [(1000, 2)] 500) = [(8.5, 2); (5, 1)])%float.
Proof. vm_compute. reflexivity. Qed.

Example binary64_line_subtotal :
  (Binary64.forEach 1 (Binary64.lines [(12.5, 3)] 0) = [(12 / 100, 3)] /\
   Binary64.round (12.5 / 100 * 100 * 3) = 38 /\
   Binary64.round (12.5 / 100 * 100) * 3 = 39)%float.
Proof. vm_compute. repeat split; reflexivity. Qed.

Example binary64_rounding_residual :
  (Binary64.forEach 50 (Binary64.lines [(1000, 100)] 0) = [(10, 100)] /\
   Binary64.lines_total (Binary64.forEach 50 (Binary64.lines [(1000, 100)] 0)) = 100000 /\
   Binary64.total [(1000, 100)] 0 50 = 99950)%float.
Proof. vm_compute. repeat split; reflexivity. Qed.

(** Prices up to 20.00, quantities up to twelve and five discounts: on each
    of these carts of one line, doubles and whole cents agree. *)
Example binary64_agrees_on_small_carts :
  forallb (fun c =>
             forallb (fun q =>
                        forallb (Binary64.agrees_with_cents c q) [1; 7; 50; 333; 100000])
                     (Binary64.range 1 12))
          (Binary64.range 0 2001)
  = true.
Proof. vm_compute. reflexivity. Qed.

(** * Further properties of the code *)

Ltac flatten_calls := repeat first [rewrite <- app_assoc | progress cbn [app]].

(** ** The resolver, line by line (lines 7 to 45) *)

Section MoreOfTheResolver.

Context (E : Env).

(** The product a line names, without the calls: by [productId]; else by
    [id], as a key when it reads as a finite number, then as a product
    code; else by [sku]. *)
Lemma found_product_eq d item :
  found_product E d item =
  if truthy (l_productId item) then
    List.find (fun p => pk_eq E (l_productId item) (p_id p)) (products d)
  else if truthy (l_id item) then
    match (if isFinite (Number E (l_id item))
           then List.find (fun p => pk_eq E (JNum (Number E (l_id item))) (p_id p))
                          (products d)
           else None) with
    | Some p => Some p
    | None => List.find (fun p => sku_eq E (l_id item) (p_sku p)) (products d)
    end
  else if truthy (l_sku item) then
    List.find (fun p => sku_eq E (l_sku item) (p_sku p)) (products d)
  else None.
Proof.
  unfold found_product, lookup_product.
  destruct (truthy (l_productId item)); [reflexivity|].
  destruct (truthy (l_id item)).
  - assert (Hfin : negb (isNaN (Number E (l_id item))) && isFinite (Number E (l_id item))
                   = isFinite (Number E (l_id item)))
      by (destruct (Number E (l_id item)); reflexivity).
    rewrite Hfin. destruct (isFinite (Number E (l_id item))).
    + unfold bind, findByPk, bind, emit, at_rest. cbn [store products fst].
      destruct (List.find _ (products d)); reflexivity.
    + reflexivity.
  - destruct (truthy (l_sku item)); reflexivity.
Qed.

Lemma found_product_in d item p :
  found_product E d item = Some p -> In p (products d).
Proof.
  rewrite found_product_eq.
  destruct (truthy (l_productId item)); [intros H; apply find_some in H; tauto|].
  destruct (truthy (l_id item)).
  - destruct (isFinite _).
    + destruct (List.find _ (products d)) as [p'|] eqn:Hk.
      * intros [= <-]. apply find_some in Hk. tauto.
      * intros H. apply find_some in H. tauto.
    + intros H. apply find_some in H. tauto.
  - destruct (truthy (l_sku item)); [intros H; apply find_some in H; tauto|discriminate].
Qed.

(** The loop resolves the lines with a usable quantity one after the other,
    and stops at the first it refuses. *)
Lemma resolve_loop_on_map d lines acc res :
  resolve_loop_on E d lines acc = Ok res <->
  exists new, res = acc ++ new /\
              map (resolve_line E d) (List.filter (usable E) lines) = map Some new.
Proof.
  revert acc. induction lines as [|item rest IH]; intros acc.
  - cbn. split.
    + intros [= <-]. exists []. rewrite app_nil_r. auto.
    + intros (new & -> & Hnew). destruct new; [|discriminate]. rewrite app_nil_r. reflexivity.
  - rewrite resolve_loop_on_cons. cbn [List.filter]. unfold usable at 1.
    destruct (qty_unusable (line_qty E item)); cbn [negb]; [apply IH|].
    cbn [map]. unfold resolve_line at 1.
    destruct (found_product E d item) as [p|].
    2:{ split; [discriminate|]. intros (new & _ & H). destruct new; discriminate. }
    destruct (p_active p); cbn [negb andb].
    2:{ split; [discriminate|]. intros (new & _ & H). destruct new; discriminate. }
    destruct (p_stockManaged p && (p_stockQuantity p <? line_qty E item)%num); cbn [negb].
    { split; [discriminate|]. intros (new & _ & H). destruct new; discriminate. }
    rewrite IH. split.
    + intros (new & -> & Hnew). eexists (_ :: new). rewrite <- app_assoc. cbn [app map].
      split; [reflexivity|]. rewrite Hnew. reflexivity.
    + intros (new & -> & Hnew). destruct new as [|x new]; [discriminate|].
      cbn [map] in Hnew. injection Hnew as <- Hnew. exists new.
      rewrite <- app_assoc. auto.
Qed.

Lemma Forall2_map_Some {A B} (f : A -> option B) l items :
  map f l = map Some items -> Forall2 (fun x y => f x = Some y) l items.
Proof.
  revert items. induction l as [|x l IH]; intros [|y items]; cbn; try discriminate.
  - constructor.
  - intros [= Hx Hl]. constructor; auto.
Qed.

(** The items the resolver returns are what the lines with a usable quantity
    resolve to, one by one. *)
Lemma resolved_lines d rawItems items :
  resolveItems_on E d rawItems = Ok items ->
  exists lines,
    rawItems = ItemsArray lines /\
    Forall2 (fun line item => resolve_line E d line = Some item)
            (List.filter (usable E) lines) items.
Proof.
  destruct rawItems as [v|lines|before after]; [discriminate| |].
  2:{ rewrite resolveItems_on_with_null.
      destruct (resolve_loop_on E d before []); discriminate. }
  intros H. exists lines.
  split; [reflexivity|]. rewrite resolveItems_on_array in H.
  destruct lines as [|l ls]; [discriminate|].
  destruct (resolve_loop_on E d (l :: ls) []) as [its|e] eqn:Hloop; [|discriminate].
  destruct (length its =? 0)%nat; [discriminate|]. injection H as <-.
  apply resolve_loop_on_map in Hloop. destruct Hloop as (new & -> & Hnew).
  apply Forall2_map_Some. exact Hnew.
Qed.

Lemma resolve_line_inv d line item :
  resolve_line E d line = Some item ->
  found_product E d line = Some (ri_product item) /\
  p_active (ri_product item) = true /\
  (p_stockManaged (ri_product item) && (p_stockQuantity (ri_product item) <? qty item)%num)
  = false /\
  qty item = line_qty E line /\
  unit_price_cents item
  = Number E (l_price_cents line ??? JNum (p_priceCents (ri_product item))).
Proof.
  unfold resolve_line. destruct (found_product E d line) as [p|]; [|discriminate].
  destruct (p_active p) eqn:Ha; [|discriminate]. cbn [andb].
  destruct (p_stockManaged p && _) eqn:Hs; [discriminate|]. cbn [negb].
  intros [= <-]. cbn. auto.
Qed.

(** What holds of every resolved item. *)
Lemma resolved_item_facts d rawItems items :
  resolveItems_on E d rawItems = Ok items ->
  Forall (fun item =>
            In (ri_product item) (products d) /\
            p_active (ri_product item) = true /\
            (p_stockManaged (ri_product item)
             && (p_stockQuantity (ri_product item) <? qty item)%num) = false /\
            (of_Z 0 <? qty item)%num = true)
         items.
Proof.
  intros H. apply resolved_lines in H. destruct H as (lines & _ & H).
  assert (Hu : Forall (fun l => usable E l = true) (List.filter (usable E) lines)).
  { apply Forall_forall. intros l Hl. apply list_elem_of_In, filter_In in Hl. tauto. }
  induction H as [|line item ls its Hline _ IH]; constructor.
  - apply resolve_line_inv in Hline. destruct Hline as (Hf & Ha & Hs & Hq & _).
    split; [eapply found_product_in; exact Hf|]. split; [exact Ha|]. split; [exact Hs|].
    apply Forall_cons in Hu. destruct Hu as [Hu _]. unfold usable in Hu.
    rewrite usable_positive, negb_involutive in Hu. rewrite Hq. exact Hu.
  - apply IH. apply Forall_cons in Hu. tauto.
Qed.

(** X1.  The resolver succeeds exactly when its input is an array of
    lines, without a [null] element, of which some line has a usable
    quantity and none of those lines is refused; it then returns, in cart
    order, what each of them resolves to: the product found for it, the
    quantity of the line, and the price the line supplies or else the
    catalog price. *)
Theorem resolver_result d rawItems items :
  resolveItems_on E d rawItems = Ok items <->
  exists lines,
    rawItems = ItemsArray lines /\
    items <> [] /\
    map (resolve_line E d) (List.filter (usable E) lines) = map Some items.
Proof.
  split.
  - intros H. destruct rawItems as [v|lines|before after]; [discriminate| |].
    2:{ rewrite resolveItems_on_with_null in H.
        destruct (resolve_loop_on E d before []); discriminate. }
    exists lines. split; [reflexivity|]. rewrite resolveItems_on_array in H.
    destruct lines as [|l ls]; [discriminate|].
    destruct (resolve_loop_on E d (l :: ls) []) as [its|e] eqn:Hloop; [|discriminate].
    apply resolve_loop_on_map in Hloop. destruct Hloop as (new & -> & Hnew).
    cbn [app] in *. destruct new as [|x new]; cbn [length Nat.eqb] in H; [discriminate|].
    injection H as <-. split; [discriminate|exact Hnew].
  - intros (lines & -> & Hne & Hmap). rewrite resolveItems_on_array.
    destruct lines as [|l ls].
    + destruct items; [congruence|discriminate].
    + assert (Hloop : resolve_loop_on E d (l :: ls) [] = Ok items)
        by (apply resolve_loop_on_map; exists items; auto).
      rewrite Hloop. destruct items; [congruence|reflexivity].
Qed.

(** X2.  Every item the resolver returns refers to a product of the store
    that is active and, when it tracks inventory, whose stock is not below
    the quantity of the item. *)
Theorem resolved_items_are_available d rawItems items :
  resolveItems_on E d rawItems = Ok items ->
  Forall (fun item =>
            In (ri_product item) (products d) /\
            p_active (ri_product item) = true /\
            (p_stockManaged (ri_product item) = true ->
             (p_stockQuantity (ri_product item) <? qty item)%num = false))
         items.
Proof.
  intros H. apply resolved_item_facts in H.
  eapply Forall_impl; [exact H|]. intros item (Hin & Ha & Hs & _).
  split; [exact Hin|]. split; [exact Ha|]. intros Hm. rewrite Hm in Hs. exact Hs.
Qed.

(** X3.  The unit price of a resolved item is the [price_cents] its line
    supplies, read as a number whatever it is (zero, negative or not a
    number included); only a line whose [price_cents] is [undefined] or
    [null] is priced from the catalog. *)
Theorem price_is_override_or_catalog d lines items :
  resolveItems_on E d (ItemsArray lines) = Ok items ->
  Forall2 (fun line item =>
             unit_price_cents item =
             match l_price_cents line with
             | JUndefined | JNull => p_priceCents (ri_product item)
             | supplied => Number E supplied
             end)
          (List.filter (usable E) lines) items.
Proof.
  intros H. apply resolved_lines in H. destruct H as (lines' & [= <-] & H).
  eapply Forall2_impl; [exact H|]. intros line item Hline. cbn beta in Hline.
  apply resolve_line_inv in Hline. destruct Hline as (_ & _ & _ & _ & ->).
  destruct (l_price_cents line); reflexivity.
Qed.



(** X6.  A line without [productId] that carries an [id] is looked up by
    key first, when the [id] reads as a finite number, and the product found
    by key is the answer, with no second call; only when no product has the
    key (or the [id] is no finite number) is the [id] looked up as a product
    code. *)
Theorem id_is_key_then_sku item w :
  truthy (l_productId item) = false ->
  truthy (l_id item) = true ->
  let key := JNum (Number E (l_id item)) in
  let numeric := isFinite (Number E (l_id item)) in
  let by_key :=
    if numeric then List.find (fun p => pk_eq E key (p_id p)) (products (store w))
    else None in
  lookup_product E item w =
  match by_key with
  | Some p => (Ok (Some p), logged [Product_findByPk key] w)
  | None =>
      (Ok (List.find (fun p => sku_eq E (l_id item) (p_sku p)) (products (store w))),
       logged ((if numeric then [Product_findByPk key] else [])
               ++ [Product_findOne_sku (l_id item)]) w)
  end.
Proof.
  intros Hpid Hid. cbn zeta. unfold lookup_product. rewrite Hpid, Hid.
  assert (Hfin : negb (isNaN (Number E (l_id item))) && isFinite (Number E (l_id item))
                 = isFinite (Number E (l_id item)))
    by (destruct (Number E (l_id item)); reflexivity).
  rewrite Hfin. destruct (isFinite (Number E (l_id item))).
  - unfold bind, findByPk, findOne_sku, bind, emit. cbn [store products log pending].
    destruct (List.find _ (products (store w))); [reflexivity|].
    unfold logged. cbn. rewrite <- app_assoc. reflexivity.
  - reflexivity.
Qed.

(** The reads of one lookup. *)
Lemma lookup_product_log d item :
  exists evs,
    Forall (fun e => is_product_read e = true) evs /\
    (length evs <= 2)%nat /\
    forall w, store w = d ->
              lookup_product E item w = (Ok (found_product E d item), logged evs w).
Proof.
  unfold found_product, lookup_product.
  destruct (truthy (l_productId item)).
  { exists [Product_findByPk (l_productId item)]. split; [repeat constructor|].
    split; [cbn; lia|]. intros w <-. reflexivity. }
  destruct (truthy (l_id item)).
  - destruct (negb (isNaN (Number E (l_id item))) && isFinite (Number E (l_id item))).
    + unfold bind, findByPk, findOne_sku, bind, emit, at_rest. cbn [store products fst log pending].
      destruct (List.find (fun p => pk_eq E (JNum (Number E (l_id item))) (p_id p)) (products d))
        as [p|] eqn:Hk.
      * exists [Product_findByPk (JNum (Number E (l_id item)))].
        split; [repeat constructor|]. split; [cbn; lia|]. intros w <-. rewrite Hk. reflexivity.
      * exists [Product_findByPk (JNum (Number E (l_id item))); Product_findOne_sku (l_id item)].
        split; [repeat constructor|]. split; [cbn; lia|]. intros w <-. rewrite Hk.
        unfold logged. cbn. rewrite <- app_assoc. reflexivity.
    + exists [Product_findOne_sku (l_id item)]. split; [repeat constructor|].
      split; [cbn; lia|]. intros w <-. reflexivity.
  - destruct (truthy (l_sku item)).
    + exists [Product_findOne_sku (l_sku item)]. split; [repeat constructor|].
      split; [cbn; lia|]. intros w <-. reflexivity.
    + exists []. split; [constructor|]. split; [cbn; lia|]. intros w _.
      rewrite logged_nil. reflexivity.
Qed.

Lemma resolve_loop_log lines acc w :
  exists evs,
    resolve_loop E lines acc w = (resolve_loop_on E (store w) lines acc, logged evs w) /\
    Forall (fun e => is_product_read e = true) evs /\
    (length evs <= 2 * length (List.filter (usable E) lines))%nat.
Proof.
  revert acc w. induction lines as [|item rest IH]; intros acc w.
  - exists []. rewrite logged_nil. split; [reflexivity|]. split; [constructor|cbn; lia].
  - rewrite resolve_loop_on_cons. cbn [resolve_loop List.filter]. unfold usable at 1.
    destruct (qty_unusable (line_qty E item)); cbn [negb]; [apply IH|].
    destruct (lookup_product_log (store w) item) as (evs & Hevs & Hlen & Hrun).
    unfold bind. rewrite (Hrun w eq_refl).
    destruct (found_product E (store w) item) as [p|].
    2:{ exists evs. split; [reflexivity|]. split; [exact Hevs|cbn [length]; lia]. }
    destruct (negb (p_active p)).
    { exists evs. split; [reflexivity|]. split; [exact Hevs|cbn [length]; lia]. }
    destruct (p_stockManaged p && _).
    { exists evs. split; [reflexivity|]. split; [exact Hevs|cbn [length]; lia]. }
    match goal with |- context [resolve_loop E rest ?acc' (logged evs w)] =>
      destruct (IH acc' (logged evs w)) as (evs' & Hrun' & Hevs' & Hlen') end.
    exists (evs ++ evs'). rewrite Hrun', logged_logged. split; [reflexivity|].
    split; [apply Forall_app; auto|]. rewrite length_app. cbn [length]. lia.
Qed.

(** X7.  The resolver only reads: whatever its input, it leaves the store
    and the open transaction as they were, its outcome depends on the
    committed store alone, and its calls are product lookups, at most two
    for each line with a usable quantity and none for the others (on an
    array with a [null], the lines before the first [null]). *)
Theorem resolver_only_reads rawItems w :
  exists reads,
    resolveItems E rawItems w = (resolveItems_on E (store w) rawItems, logged reads w) /\
    Forall (fun e => is_product_read e = true) reads /\
    (length reads
     <= 2 * length (match rawItems with
                    | ItemsArray lines => List.filter (usable E) lines
                    | ItemsWithNull before _ => List.filter (usable E) before
                    | NotArray _ => []
                    end))%nat.
Proof.
  destruct rawItems as [v|lines|before after].
  { exists []. rewrite logged_nil. split; [reflexivity|]. split; [constructor|cbn; lia]. }
  - rewrite resolveItems_on_array. destruct lines as [|l ls].
    { exists []. rewrite logged_nil. split; [reflexivity|]. split; [constructor|cbn; lia]. }
    destruct (resolve_loop_log (l :: ls) [] w) as (evs & Hrun & Hevs & Hlen).
    exists evs. split; [|auto]. cbn [resolveItems]. unfold bind. rewrite Hrun.
    destruct (resolve_loop_on E (store w) (l :: ls) []) as [items|e]; [|reflexivity].
    destruct (length items =? 0)%nat; reflexivity.
  - rewrite resolveItems_on_with_null.
    destruct (resolve_loop_log before [] w) as (evs & Hrun & Hevs & Hlen).
    exists evs. split; [|auto]. cbn [resolveItems]. unfold bind. rewrite Hrun.
    destruct (resolve_loop_on E (store w) before []) as [items|e]; reflexivity.
Qed.

End MoreOfTheResolver.

(** ** The quote handler (lines 47 to 73) *)

Lemma all_digits_digits_only s : all_digits (digits_only s) = true.
Proof.
  induction s as [|c s IH]; [reflexivity|]. cbn [digits_only].
  destruct (is_digit c) eqn:Hc; [|exact IH]. cbn [all_digits]. rewrite Hc. exact IH.
Qed.

Lemma digits_only_all_digits s : all_digits s = true -> digits_only s = s.
Proof.
  induction s as [|c s IH]; [reflexivity|]. cbn [all_digits digits_only].
  intros H. apply andb_true_iff in H. destruct H as [Hc Hs]. rewrite Hc, (IH Hs). reflexivity.
Qed.

Lemma all_digits_substring s :
  forall n m, all_digits s = true -> all_digits (substring n m s) = true.
Proof.
  induction s as [|c s IH]; intros n m H.
  - destruct n, m; reflexivity.
  - cbn [all_digits] in H. apply andb_true_iff in H. destruct H as [Hc Hs].
    destruct n as [|n]; cbn [substring].
    + destruct m as [|m]; [reflexivity|]. cbn [all_digits]. rewrite Hc. apply IH. exact Hs.
    + apply IH. exact Hs.
Qed.

Lemma length_substring_le s : forall n m, (String.length (substring n m s) <= m)%nat.
Proof.
  induction s as [|c s IH]; intros n m.
  - destruct n, m; cbn; lia.
  - destruct n as [|n]; cbn [substring].
    + destruct m as [|m]; [cbn; lia|]. cbn [String.length]. specialize (IH 0%nat m). lia.
    + apply IH.
Qed.

Lemma all_digits_query_cep q : all_digits (query_cep q) = true.
Proof. unfold query_cep. apply all_digits_substring, all_digits_digits_only. Qed.

(** The product code read from the query string is never empty. *)
Lemma query_sku_truthy q : truthy (JStr (query_sku q)) = true.
Proof.
  unfold query_sku, js_or.
  destruct (q_sku q) as [[|a0 a]|], (q_id q) as [[|b0 b]|], (q_productId q) as [[|c0 c]|];
    reflexivity.
Qed.

Section MoreOfTheQuote.

Context (E : Env).

(** Lines 49 to 58, by cases. *)
Lemma quote_payload_eq req :
  quote_payload E req =
  if payload_incomplete (body req) then
    if bool_decide (query_cep (query req) = EmptyString)
    then inl (Error_json Dados_incompletos)
    else inr (ItemsArray [query_line E (query req)],
              DestinationObject {| d_cep := JStr (query_cep (query req));
                                   d_postal_code := JUndefined |})
  else inr (b_items (body req), b_destination (body req)).
Proof. reflexivity. Qed.

Lemma destination_cep_run d w : destination_cep d w = (destination_digits d, w).
Proof.
  unfold destination_cep, destination_digits.
  destruct (d_cep d ||| d_postal_code d ||| JStr _); reflexivity.
Qed.

Lemma destination_digits_ok d cep : destination_digits d = Ok cep -> all_digits cep = true.
Proof.
  unfold destination_digits. destruct (d_cep d ||| d_postal_code d ||| JStr _); try discriminate.
  intros [= <-]. apply all_digits_digits_only.
Qed.

Lemma destination_digits_of_string s :
  s <> EmptyString ->
  destination_digits {| d_cep := JStr s; d_postal_code := JUndefined |} = Ok (digits_only s).
Proof.
  intros Hs. unfold destination_digits, js_or. cbn [d_cep d_postal_code truthy].
  destruct (bool_decide (s = EmptyString)) eqn:H;
    [apply bool_decide_eq_true_1 in H; congruence|].
  cbn [negb truthy]. rewrite H. reflexivity.
Qed.

(** Every run of [quote]: the answer, and the calls made. *)
Lemma quote_run req w :
  exists resp reads quotes,
    quote E req w = (Ok resp, logged (reads ++ quotes) w) /\
    Forall (fun e => is_product_read e = true) reads /\
    match quote_payload E req with
    | inl early => resp = {| status := 400; json := early |} /\ reads = [] /\ quotes = []
    | inr (payload_items, payload_destination) =>
        match resolveItems_on E (store w) payload_items with
        | Throw e =>
            resp = {| status := 400; json := Error_json (Message_of e) |} /\ quotes = []
        | Ok items =>
            match destination_digits (destination_of payload_destination) with
            | Throw e =>
                resp = {| status := 400; json := Error_json (Message_of e) |} /\ quotes = []
            | Ok cep =>
                quotes = [Shipping_quote (quote_request_of cep items)] /\
                resp = match shippingService_quote E (quote_request_of cep items) with
                       | Ok q => {| status := 200; json := Quote_json q |}
                       | Throw e => {| status := 400; json := Error_json (Message_of e) |}
                       end
            end
        end
    end.
Proof.
  unfold quote, try_catch.
  destruct (quote_payload E req) as [early|[payload_items payload_destination]].
  { exists {| status := 400; json := early |}, [], []. cbn [app]. rewrite logged_nil.
    split; [reflexivity|]. split; [constructor|auto]. }
  unfold bind at 1.
  destruct (resolveItems_run E payload_items w) as (reads & Hreads & Hres). rewrite Hres.
  destruct (resolveItems_on E (store w) payload_items) as [items|e].
  2:{ exists {| status := 400; json := Error_json (Message_of e) |}, reads, [].
      rewrite app_nil_r. split; [reflexivity|]. split; [exact Hreads|auto]. }
  unfold bind at 1. rewrite destination_cep_run.
  destruct (destination_digits (destination_of payload_destination)) as [cep|e].
  2:{ exists {| status := 400; json := Error_json (Message_of e) |}, reads, [].
      rewrite app_nil_r. split; [reflexivity|]. split; [exact Hreads|auto]. }
  unfold bind, shippingService_quote_call, bind, emit, lift. cbn [store pending log logged].
  fold (quote_request_of cep items).
  destruct (shippingService_quote E (quote_request_of cep items)) as [q|e].
  - eexists _, reads, [_]. split; [|split; [exact Hreads|split; reflexivity]].
    unfold res_json, res_status_json, ret, logged. cbn. rewrite <- app_assoc. reflexivity.
  - eexists _, reads, [_]. split; [|split; [exact Hreads|split; reflexivity]].
    unfold res_status_json, ret, logged. cbn. rewrite <- app_assoc. reflexivity.
Qed.

(** X8.  [quote] always answers, with status 200 or 400; it opens no
    transaction and writes nothing: the store is as it was, and its calls
    are product lookups followed by at most one call of the shipping
    service.  The answer is 200 exactly when the shipping service was
    called and returned, and it then carries what the service returned. *)
Theorem quote_reads_and_quotes req w :
  exists resp reads quotes,
    quote E req w = (Ok resp, logged (reads ++ quotes) w) /\
    Forall (fun e => is_product_read e = true) reads /\
    (quotes = [] \/ exists rq, quotes = [Shipping_quote rq]) /\
    (status resp = 200 \/ status resp = 400) /\
    (status resp = 200 <->
     exists rq q,
       quotes = [Shipping_quote rq] /\
       shippingService_quote E rq = Ok q /\
       json resp = Quote_json q).
Proof.
  destruct (quote_run req w) as (resp & reads & quotes & Hrun & Hreads & H).
  exists resp, reads, quotes. split; [exact Hrun|]. split; [exact Hreads|].
  assert (Hfail : forall text,
            resp = {| status := 400; json := Error_json text |} -> quotes = [] ->
            (quotes = [] \/ exists rq, quotes = [Shipping_quote rq]) /\
            (status resp = 200 \/ status resp = 400) /\
            (status resp = 200 <->
             exists rq q,
               quotes = [Shipping_quote rq] /\
               shippingService_quote E rq = Ok q /\
               json resp = Quote_json q)).
  { intros text -> ->. split; [auto|]. split; [auto|]. cbn [status]. split; [discriminate|].
    intros (rq & q & Hq & _). discriminate. }
  destruct (quote_payload E req) as [early|[payload_items payload_destination]].
  { destruct H as (-> & -> & ->). split; [auto|]. split; [auto|]. cbn [status].
    split; [discriminate|]. intros (rq & q & Hq & _). discriminate. }
  destruct (resolveItems_on E (store w) payload_items) as [items|e];
    [|destruct H; eapply Hfail; eassumption].
  destruct (destination_digits (destination_of payload_destination)) as [cep|e];
    [|destruct H; eapply Hfail; eassumption].
  destruct H as (-> & ->). split; [right; eexists; reflexivity|].
  destruct (shippingService_quote E (quote_request_of cep items)) as [q|e] eqn:Hq;
    cbn [status json].
  - split; [auto|]. split; [|reflexivity]. intros _. eauto.
  - split; [auto|]. split; [discriminate|]. intros (rq & q & [= <-] & Hq' & _). congruence.
Qed.

(** X9.  The postal code given to the shipping service is made of digits
    only; when the payload was rebuilt from the query string it has between
    one and eight of them (a postal code taken from the body is not
    shortened, and may be empty). *)
Theorem quote_cep_is_sanitised req w :
  exists resp calls,
    quote E req w = (Ok resp, logged calls w) /\
    forall rq,
      In (Shipping_quote rq) calls ->
      all_digits (destinationCep rq) = true /\
      (payload_incomplete (body req) = true ->
       (1 <= String.length (destinationCep rq) <= 8)%nat).
Proof.
  destruct (quote_run req w) as (resp & reads & quotes & Hrun & Hreads & H).
  exists resp, (reads ++ quotes). split; [exact Hrun|]. intros rq Hin.
  apply in_app_or in Hin. destruct Hin as [Hin|Hin].
  { rewrite Forall_forall in Hreads. apply list_elem_of_In, Hreads in Hin. discriminate. }
  rewrite quote_payload_eq in H.
  destruct (payload_incomplete (body req)) eqn:Hinc.
  - destruct (bool_decide (query_cep (query req) = EmptyString)) eqn:Hcep.
    { destruct H as (_ & _ & ->). destruct Hin. }
    apply bool_decide_eq_false_1 in Hcep.
    destruct (resolveItems_on E (store w) _) as [items|e]; [|destruct H as [_ ->]; destruct Hin].
    cbn [destination_of] in H.
    rewrite (destination_digits_of_string _ Hcep) in H.
    destruct H as [-> _]. destruct Hin as [[= <-]|[]]. cbn [destinationCep quote_request_of].
    rewrite (digits_only_all_digits _ (all_digits_query_cep _)).
    split; [apply all_digits_query_cep|]. intros _.
    split; [destruct (query_cep (query req)); [congruence|cbn; lia]|].
    unfold query_cep. apply length_substring_le.
  - destruct (resolveItems_on E (store w) _) as [items|e]; [|destruct H as [_ ->]; destruct Hin].
    destruct (destination_digits (destination_of (b_destination (body req)))) as [cep|e] eqn:Hd;
      [|destruct H as [_ ->]; destruct Hin].
    destruct H as [-> _]. destruct Hin as [[= <-]|[]]. cbn [destinationCep quote_request_of].
    split; [eapply destination_digits_ok; exact Hd|discriminate].
Qed.


(** X11.  When the body lacks [items] or [destination], nothing of the body
    is used: the quote is made from the query string alone, so two such
    requests with the same query string are answered alike (items posted
    without a destination are ignored). *)
Theorem quote_ignores_incomplete_body req req' w :
  payload_incomplete (body req) = true ->
  payload_incomplete (body req') = true ->
  query req' = query req ->
  quote E req' w = quote E req w.
Proof.
  intros H H' Hq. unfold quote. rewrite !quote_payload_eq, H, H', Hq. reflexivity.
Qed.

(** X12.  When the body lacks [items] or [destination], [quote] answers
    400 'Dados incompletos.' without a single call exactly when the query
    string gives no digit of a postal code (in [cep], or in [postal_code]
    when [cep] is absent or empty). *)
Theorem quote_without_postal_code req w :
  payload_incomplete (body req) = true ->
  (query_cep (query req) = EmptyString <->
   quote E req w = (Ok {| status := 400; json := Error_json Dados_incompletos |}, w)).
Proof.
  intros Hinc. split.
  - intros Hcep. unfold quote, try_catch. rewrite quote_payload_eq, Hinc, Hcep. reflexivity.
  - intros Hq. destruct (quote_run req w) as (resp & reads & quotes & Hrun & _ & H).
    rewrite Hq in Hrun. injection Hrun as <- _.
    rewrite quote_payload_eq, Hinc in H.
    destruct (bool_decide (query_cep (query req) = EmptyString)) eqn:Hcep;
      [apply bool_decide_eq_true_1 in Hcep; exact Hcep|].
    destruct (resolveItems_on E (store w) _) as [items|e]; [|destruct H; discriminate].
    destruct (destination_digits _) as [cep|e]; [|destruct H; discriminate].
    destruct H as [_ H]. destruct (shippingService_quote E _); discriminate.
Qed.

(** X13.  A quote made from the query string is for one line: the product
    of the store whose code is the [sku] of the query string (else its
    [id], else its [productId], else 'STACK-DUPLO'), priced from the
    catalog, in the quantity the query string gives, or one unit when that
    quantity is absent, zero or not a number. *)
Theorem quote_from_query_is_one_catalog_line req w :
  payload_incomplete (body req) = true ->
  exists resp calls,
    quote E req w = (Ok resp, logged calls w) /\
    forall rq,
      In (Shipping_quote rq) calls ->
      exists p,
        In p (products (store w)) /\
        sku_eq E (JStr (query_sku (query req))) (p_sku p) = true /\
        qr_items rq
        = [{| qi_productId := p_id p;
              qi_qty := if num_truthy (query_qty E (query req))
                        then query_qty E (query req) else of_Z 1;
              qi_price_cents := p_priceCents p |}].
Proof.
  intros Hinc.
  destruct (quote_run req w) as (resp & reads & quotes & Hrun & Hreads & H).
  exists resp, (reads ++ quotes). split; [exact Hrun|]. intros rq Hin.
  apply in_app_or in Hin. destruct Hin as [Hin|Hin].
  { rewrite Forall_forall in Hreads. apply list_elem_of_In, Hreads in Hin. discriminate. }
  rewrite quote_payload_eq, Hinc in H.
  destruct (bool_decide (query_cep (query req) = EmptyString)).
  { destruct H as (_ & _ & ->). destruct Hin. }
  destruct (resolveItems_on E (store w) _) as [items|e] eqn:Hitems;
    [|destruct H as [_ ->]; destruct Hin].
  destruct (destination_digits _) as [cep|e]; [|destruct H as [_ ->]; destruct Hin].
  destruct H as [-> _]. destruct Hin as [[= <-]|[]]. cbn [qr_items quote_request_of].
  pose proof (resolveItems_on_nonempty E _ _ _ Hitems) as Hne.
  apply resolved_lines in Hitems. destruct Hitems as (lines & [= <-] & Hlines).
  cbn [List.filter] in Hlines.
  destruct (usable E (query_line E (query req))); [|inversion Hlines; congruence].
  inversion Hlines as [|line item ls its Hline Hrest]; subst. inversion Hrest; subst.
  apply resolve_line_inv in Hline. destruct Hline as (Hfound & _ & _ & Hqty & Hprice).
  rewrite found_product_eq in Hfound. cbn [query_line l_productId l_id l_sku truthy] in Hfound.
  change (negb (bool_decide (query_sku (query req) = EmptyString)))
    with (truthy (JStr (query_sku (query req)))) in Hfound.
  rewrite query_sku_truthy in Hfound. apply find_some in Hfound. destruct Hfound as [Hin Hsku].
  exists (ri_product item). split; [exact Hin|]. split; [exact Hsku|].
  cbn [map]. rewrite Hqty, Hprice. cbn [query_line l_price_cents js_nullish Number].
  unfold line_qty, js_or. cbn [query_line l_qty l_quantity truthy Number].
  destruct (num_truthy (query_qty E (query req))) eqn:Hn; cbn [truthy];
    [rewrite Hn|]; reflexivity.
Qed.

End MoreOfTheQuote.

(** ** Order creation (lines 75 to 188) *)

Lemma num_opp_add a b : num_opp (a + b)%num = (num_opp a + num_opp b)%num.
Proof.
  destruct a as [|[]|p], b as [|[]|q]; cbn; try reflexivity.
  f_equal. ring.
Qed.

Lemma num_sub_sub s a b : (s - a - b)%num = (s - (a + b))%num.
Proof. unfold num_sub. rewrite num_opp_add. symmetry. apply num_add_assoc. Qed.

Lemma num_sub_0 s : (s - of_Z 0)%num = s.
Proof.
  destruct s as [|[]|q]; cbn; try reflexivity.
  f_equal. change (Q2Qc (inject_Z 0)) with 0%Qc. ring.
Qed.

Lemma num_add_0_r a : (a + of_Z 0)%num = a.
Proof. rewrite num_add_comm. apply num_add_0_l. Qed.

(** Taking nothing off a sum of the runtime leaves it as it is. *)
Lemma js_sub_0 a b : (a + b - of_Z 0)%js = (a + b)%js.
Proof. unfold js_sub. rewrite num_sub_0. apply to_binary64_idem. Qed.

(** What is left of a stock that is not below the quantity taken off it is
    not below zero. *)
Lemma stock_left_not_negative s q :
  (s <? q)%num = false -> (of_Z 0 <? q)%num = true -> (s - q <? of_Z 0)%num = false.
Proof.
  destruct s as [|[]|p], q as [|[]|r]; cbn; try reflexivity; try discriminate.
  intros Hlt _. apply bool_decide_eq_false_1 in Hlt. apply bool_decide_eq_false_2.
  intros H. apply Hlt. apply Qclt_minus_iff. apply Qclt_minus_iff in H.
  replace (r + - p)%Qc with (Q2Qc (inject_Z 0) + - (p + - r))%Qc; [exact H|].
  change (Q2Qc (inject_Z 0)) with 0%Qc. ring.
Qed.

Lemma decrement_stock_0 p : decrement_stock (of_Z 0) p = p.
Proof. destruct p. unfold decrement_stock. cbn. rewrite num_sub_0. reflexivity. Qed.

Lemma decrement_stock_twice a b p :
  decrement_stock b (decrement_stock a p) = decrement_stock (a + b)%num p.
Proof. unfold decrement_stock. cbn. rewrite num_sub_sub. reflexivity. Qed.

(** The item loop takes off each stock the quantities ordered of it. *)
Lemma products_apply_writes_items orderId items d :
  products (apply_writes (item_writes orderId items) d)
  = map (fun p => decrement_stock (ordered_quantity (p_id p) items) p) (products d).
Proof.
  revert d. induction items as [|item rest IH]; intros d.
  - cbn. rewrite <- (map_id (products d)) at 1. apply map_ext.
    intros p. symmetry. apply decrement_stock_0.
  - cbn [item_writes flat_map]. fold (item_writes orderId rest).
    rewrite apply_writes_app, IH.
    unfold ordered_quantity. cbn [List.filter]. unfold takes_stock at 2.
    destruct (p_stockManaged (ri_product item)) eqn:Hm.
    + cbn [apply_writes fold_left app apply_write products]. rewrite map_map.
      apply map_ext. intros p.
      destruct (Z.eqb_spec (p_id p) (p_id (ri_product item))) as [Heq|Hne].
      * cbn [decrement_stock p_id andb map sum_num fold_right].
        rewrite decrement_stock_twice. reflexivity.
      * cbn [andb]. reflexivity.
    + cbn [apply_writes fold_left app apply_write products].
      apply map_ext. intros p. rewrite andb_false_r. reflexivity.
Qed.

Lemma Forall2_map_self {A B} (R : A -> B -> Prop) (f : A -> B) l :
  Forall (fun x => R x (f x)) l -> Forall2 R l (map f l).
Proof. induction 1; cbn; constructor; auto. Qed.

(** Among items of distinct products, at most one takes off a given stock. *)
Lemma filter_takes_stock pid items :
  NoDup (map (fun item => p_id (ri_product item)) items) ->
  List.filter (takes_stock pid) items = [] \/
  exists item, In item items /\ takes_stock pid item = true /\
               List.filter (takes_stock pid) items = [item].
Proof.
  induction items as [|item rest IH]; [auto|].
  cbn [map List.filter]. intros Hnd. apply NoDup_cons in Hnd. destruct Hnd as [Hnot Hnd].
  destruct (takes_stock pid item) eqn:Ht.
  - right. exists item. split; [left; reflexivity|]. split; [exact Ht|]. f_equal.
    destruct (List.filter (takes_stock pid) rest) as [|other l] eqn:Hf; [reflexivity|].
    exfalso. apply Hnot. apply list_elem_of_In.
    assert (Hin : In other (List.filter (takes_stock pid) rest)) by (rewrite Hf; left; reflexivity).
    apply filter_In in Hin. destruct Hin as [Hin Ho].
    unfold takes_stock in Ht, Ho. apply andb_true_iff in Ht, Ho.
    destruct Ht as [Ht _], Ho as [Ho _]. apply Z.eqb_eq in Ht, Ho.
    rewrite <- Ht, Ho. apply (in_map (fun item => p_id (ri_product item))). exact Hin.
  - destruct (IH Hnd) as [Hnone|(it & Hin & Hit & Hone)]; [auto|].
    right. exists it. split; [right; exact Hin|]. auto.
Qed.

Lemma NoDup_key_inj {A} (key : A -> Z) l x y :
  NoDup (map key l) -> In x l -> In y l -> key x = key y -> x = y.
Proof.
  induction l as [|z l IH]; [intros _ []|].
  cbn [map]. intros Hnd Hx Hy Hk. apply NoDup_cons in Hnd. destruct Hnd as [Hnot Hnd].
  destruct Hx as [->|Hx], Hy as [->|Hy].
  - reflexivity.
  - exfalso. apply Hnot. apply list_elem_of_In. rewrite Hk. apply in_map. exact Hy.
  - exfalso. apply Hnot. apply list_elem_of_In. rewrite <- Hk. apply in_map. exact Hx.
  - apply IH; assumption.
Qed.

Lemma coupon_calls_without_code (E : Env) req subtotal :
  truthy (b_coupon_code (body req)) = false ->
  coupon_calls E req subtotal = [] /\ discount_for E req subtotal = Ok (of_Z 0).
Proof. intros H. unfold coupon_calls, discount_for. rewrite H. auto. Qed.

Lemma coupon_calls_kind (E : Env) req subtotal :
  Forall (fun e => is_write e = false /\ is_payment_call e = false)
         (coupon_calls E req subtotal).
Proof.
  unfold coupon_calls. destruct (truthy _); [|constructor].
  destruct (findActiveCoupon E _); repeat constructor.
Qed.

Lemma reads_kind reads :
  Forall (fun ev => is_product_read ev = true) reads ->
  Forall (fun e => is_write e = false /\ is_payment_call e = false /\ is_coupon_call e = false)
         reads.
Proof. intros H. eapply Forall_impl; [exact H|]. intros [] Hr; cbn in *; auto; discriminate. Qed.

Lemma writes_kind ws :
  Forall (fun e => is_payment_call e = false /\ is_coupon_call e = false) (map Db_write ws).
Proof. apply Forall_map. apply Forall_forall. intros; cbn; auto. Qed.

Section MoreOfTheOrder.

Context (E : Env).

(** Every run of [createOrder] makes its calls in the order of [order_calls]. *)
Lemma createOrder_calls req w :
  exists calls,
    log (snd (createOrder E req w)) = log w ++ calls /\
    order_calls E req (store w) calls.
Proof.
  unfold createOrder. unfold bind at 1. unfold sequelize_transaction at 1.
  unfold try_catch.
  fold required_fields.
  destruct (ensureFields E (body req) required_fields) as [|f fs] eqn:Hreq.
  2:{ cbn [length Nat.eqb negb]. unfold bind, transaction_rollback, res_status_json, ret.
      cbn [store pending log snd].
      eexists. split; [flatten_calls; reflexivity|].
      apply calls_incomplete. rewrite Hreq. discriminate. }
  cbn [length Nat.eqb negb]. unfold bind at 1.
  match goal with |- context [resolveItems E ?r ?w1] =>
    destruct (resolveItems_run E r w1) as (reads & Hreads & Hres); rewrite Hres end.
  cbn [store].
  destruct (resolveItems_on E (store w) (b_items (body req))) as [items|e] eqn:Hitems.
  2:{ unfold bind, transaction_rollback, res_status_json, ret, logged.
      cbn [store pending log snd].
      eexists. split; [flatten_calls; reflexivity|].
      eapply calls_unresolved; eassumption. }
  unfold bind at 1. unfold Address_find at 1. unfold bind at 1, emit at 1.
  cbn [store pending log logged].
  fold (find_address E (store w) req).
  destruct (find_address E (store w) req) as [a|] eqn:Haddr.
  2:{ unfold bind, transaction_rollback, res_status_json, ret.
      cbn [store pending log snd].
      eexists. split; [flatten_calls; reflexivity|].
      eapply calls_no_address; eassumption. }
  unfold bind at 1. rewrite coupon_run.
  destruct (discount_for E req (subtotal_of items)) as [discount|e] eqn:Hdisc.
  2:{ unfold bind, transaction_rollback, res_status_json, ret, logged.
      cbn [store pending log snd].
      eexists. split; [flatten_calls; reflexivity|].
      eapply calls_no_discount; eassumption. }
  unfold bind at 1. rewrite Order_insert_run. cbn zeta. cbn [store pending log logged].
  fold (shipping_of E req).
  match goal with |- context [write_error E _ (Order_create ?o)] =>
    change o with (order_row E (store w) req a items discount) end.
  set (o := order_row E (store w) req a items discount).
  destruct (write_error E (store w) (Order_create o)) as [msg|] eqn:Hw1.
  { unfold bind, transaction_rollback, res_status_json, ret, logged.
    cbn [store pending log snd].
    eexists. split; [flatten_calls; reflexivity|].
    eapply calls_placing; try eassumption.
    apply (trace_write_rejected E (store w) req a items discount [Order_create o]). }
  unfold bind at 1.
  change (o_id o) with (next_order_id (store w)).
  match goal with |- context [persist_items E ?i ?its ?w1] =>
    destruct (persist_items E i its w1) as [r w2] eqn:Hp;
    apply persist_items_run in Hp; cbn [store pending log] in Hp;
    destruct Hp as [Hst Hp] end.
  destruct r as [[]|e].
  2:{ destruct Hp as (msg & ws & -> & Hlog).
      unfold bind, transaction_rollback, res_status_json, ret. cbn [store pending log snd].
      eexists. split; [rewrite Hlog; flatten_calls; reflexivity|].
      eapply calls_placing; try eassumption.
      apply (trace_write_rejected E (store w) req a items discount (Order_create o :: ws)). }
  destruct Hp as [Hpend Hlog].
  unfold bind at 1, paymentService_createPreference at 1, bind at 1, emit at 1, lift at 1.
  cbn [store pending log].
  fold (shipping_of E req).
  match goal with |- context [createPreference E ?pr] =>
    change pr with (payment_request E req items discount) end.
  destruct (createPreference E (payment_request E req items discount)) as [pref|e] eqn:Hpay.
  2:{ unfold bind, transaction_rollback, res_status_json, ret. cbn [store pending log snd].
      eexists. split; [rewrite Hlog; flatten_calls; reflexivity|].
      eapply calls_placing; try eassumption.
      eapply trace_payment_failed. exact Hpay. }
  unfold bind at 1. rewrite write_run. cbn [store pending log].
  destruct (write_error E (pending w2)
              (Order_update (next_order_id (store w)) (preferenceId pref)))
    as [msg|] eqn:Hw2.
  { unfold logged, bind, transaction_rollback, res_status_json, ret. cbn [store pending log snd].
    eexists. split; [rewrite Hlog; flatten_calls; reflexivity|].
    eapply calls_placing; try eassumption.
    eapply trace_update_rejected. exact Hpay. }
  unfold bind, transaction_commit, res_json, res_status_json, ret. cbn [store pending log snd].
  eexists. split; [rewrite Hlog; flatten_calls; reflexivity|].
  eapply calls_placing; try eassumption.
  eapply trace_placed. exact Hpay.
Qed.

(** X14.  In every run of [createOrder] the payment gateway is called at
    most once, and only after the order row and every order-item row and
    stock decrement of the cart were written, which are the first writes of
    the run: a request refused for its fields, its items, its address or
    its coupon, or whose rows the store rejects, never reaches the
    gateway. *)
Theorem payment_follows_the_writes req w :
  exists calls,
    log (snd (createOrder E req w)) = log w ++ calls /\
    (Forall (fun e => is_payment_call e = false) calls \/
     exists items a discount before after,
       resolveItems_on E (store w) (b_items (body req)) = Ok items /\
       find_address E (store w) req = Some a /\
       discount_for E req (subtotal_of items) = Ok discount /\
       calls = before ++
               Db_write (Order_create (order_row E (store w) req a items discount)) ::
               map Db_write (item_writes (next_order_id (store w)) items) ++
               Payment_createPreference (payment_request E req items discount) :: after /\
       Forall (fun e => is_write e = false /\ is_payment_call e = false) before /\
       Forall (fun e => is_payment_call e = false) after).
Proof.
  destruct (createOrder_calls req w) as (calls & Hlog & Hcalls).
  exists calls. split; [exact Hlog|].
  assert (Hreads : forall reads,
            Forall (fun ev => is_product_read ev = true) reads ->
            Forall (fun e => is_payment_call e = false) reads).
  { intros reads H. eapply Forall_impl; [apply reads_kind; exact H|]. cbn. tauto. }
  assert (Hcoupon : forall subtotal,
            Forall (fun e => is_payment_call e = false) (coupon_calls E req subtotal)).
  { intros subtotal. eapply Forall_impl; [apply coupon_calls_kind|]. cbn. tauto. }
  inversion Hcalls as [Hreq|e reads Hreq Hitems Hr|items reads Hreq Hitems Hr Haddr
                       |items a e reads Hreq Hitems Hr Haddr Hdisc
                       |items a discount reads trace Hreq Hitems Hr Haddr Hdisc Htrace]; subst.
  - left. repeat constructor.
  - left. constructor; [reflexivity|]. apply Forall_app. split; [auto|repeat constructor].
  - left. constructor; [reflexivity|]. apply Forall_app. split; [auto|repeat constructor].
  - left. constructor; [reflexivity|]. apply Forall_app. split; [auto|].
    constructor; [reflexivity|]. apply Forall_app. split; [auto|repeat constructor].
  - set (before := Transaction_begin :: reads ++
                     Address_findOne (b_address_id (body req)) (u_id (req_user req)) ::
                     coupon_calls E req (subtotal_of items)).
    assert (Hbefore : Forall (fun e => is_write e = false /\ is_payment_call e = false)
                        before).
    { constructor; [auto|]. apply Forall_app. split.
      - eapply Forall_impl; [apply reads_kind; exact Hr|]. cbn. tauto.
      - constructor; [auto|]. apply coupon_calls_kind. }
    inversion Htrace as [ws|e Hpay|pref Hpay|pref Hpay]; subst.
    + left. constructor; [reflexivity|]. apply Forall_app. split; [auto|].
      constructor; [reflexivity|]. apply Forall_app. split; [auto|].
      apply Forall_app. split; [|repeat constructor].
      eapply Forall_impl; [apply writes_kind|]. cbn. tauto.
    + right. exists items, a, discount, before, [Transaction_rollback].
      repeat (split; [eassumption|]). split; [unfold before; flatten_calls; reflexivity|].
      split; [exact Hbefore|repeat constructor].
    + right.
      exists items, a, discount, before,
        [Db_write (Order_update (next_order_id (store w)) (preferenceId pref));
         Transaction_rollback].
      repeat (split; [eassumption|]). split; [unfold before; flatten_calls; reflexivity|].
      split; [exact Hbefore|repeat constructor].
    + right.
      exists items, a, discount, before,
        [Db_write (Order_update (next_order_id (store w)) (preferenceId pref));
         Transaction_commit].
      repeat (split; [eassumption|]). split; [unfold before; flatten_calls; reflexivity|].
      split; [exact Hbefore|repeat constructor].
Qed.

(** X15.  Without a coupon code (absent, or falsy as the empty string is)
    the coupon service is never called; an order that is placed then
    carries a discount of zero and the total [max (0, subtotal + shipping)],
    and the gateway is sent the payment lines as built, at the prices of the
    resolved items. *)
Theorem no_coupon_code_no_discount req w :
  truthy (b_coupon_code (body req)) = false ->
  exists resp w' calls,
    createOrder E req w = (Ok resp, w') /\
    log w' = log w ++ calls /\
    Forall (fun e => is_coupon_call e = false) calls /\
    (status resp = 200 ->
     exists items o,
       resolveItems_on E (store w) (b_items (body req)) = Ok items /\
       orders (store w') = orders (store w) ++ [o] /\
       discountCents o = of_Z 0 /\
       totalCents o = Math_max (of_Z 0) (subtotalCents o + shippingCents o)%js /\
       In (Payment_createPreference (payment_request E req items (of_Z 0))) calls /\
       pr_items (payment_request E req items (of_Z 0))
       = build_mpItems items (shippingSelection_of (b_shipping (body req)))
                       (shipping_of E req)).
Proof.
  intros Hcode.
  destruct (createOrder_run E req w) as (resp & w' & Hrun & Hpath).
  destruct (createOrder_calls req w) as (calls & Hlog & Hcalls).
  rewrite Hrun in Hlog. cbn [snd] in Hlog.
  exists resp, w', calls. split; [exact Hrun|]. split; [exact Hlog|]. split.
  - assert (Hreads : forall reads,
              Forall (fun ev => is_product_read ev = true) reads ->
              Forall (fun e => is_coupon_call e = false) reads).
    { intros reads H. eapply Forall_impl; [apply reads_kind; exact H|]. cbn. tauto. }
    assert (Hwrites : forall ws, Forall (fun e => is_coupon_call e = false) (map Db_write ws)).
    { intros ws. eapply Forall_impl; [apply writes_kind|]. cbn. tauto. }
    inversion Hcalls as [Hreq|e reads Hreq Hitems Hr|items reads Hreq Hitems Hr Haddr
                         |items a e reads Hreq Hitems Hr Haddr Hdisc
                         |items a discount reads trace Hreq Hitems Hr Haddr Hdisc Htrace];
      subst calls.
    + repeat constructor.
    + constructor; [reflexivity|]. apply Forall_app. split; [auto|repeat constructor].
    + constructor; [reflexivity|]. apply Forall_app. split; [auto|repeat constructor].
    + destruct (coupon_calls_without_code E req (subtotal_of items) Hcode) as [-> _].
      constructor; [reflexivity|]. apply Forall_app. split; [auto|repeat constructor].
    + destruct (coupon_calls_without_code E req (subtotal_of items) Hcode) as [-> _].
      constructor; [reflexivity|]. apply Forall_app. split; [auto|].
      constructor; [reflexivity|]. cbn [app].
      inversion Htrace; subst.
      * apply Forall_app. split; [auto|repeat constructor].
      * constructor; [reflexivity|]. apply Forall_app. split; [auto|repeat constructor].
      * constructor; [reflexivity|]. apply Forall_app. split; [auto|repeat constructor].
      * constructor; [reflexivity|]. apply Forall_app. split; [auto|repeat constructor].
  - intros Hst.
    destruct (order_run_placed E req w resp w' Hpath Hst)
      as (items & a & discount & pref & reads & _ & Hitems & _ & _ & Hdisc & _ & _
          & Hstore & Hlog').
    destruct (coupon_calls_without_code E req (subtotal_of items) Hcode) as [Hnone Hzero].
    rewrite Hzero in Hdisc. injection Hdisc as <-.
    exists items,
      (set_preference_id (preferenceId pref) (order_row E (store w) req a items (of_Z 0))).
    split; [exact Hitems|]. split; [rewrite Hstore; apply order_placed_orders|].
    split; [reflexivity|].
    split.
    { cbn [set_preference_id order_row totalCents subtotalCents shippingCents].
      unfold total_of. rewrite js_sub_0. reflexivity. }
    split.
    { rewrite Hlog' in Hlog. apply app_inv_head in Hlog. subst calls.
      unfold placing_calls. cbn zeta.
      apply in_cons, in_or_app. right. apply in_cons, in_or_app. right.
      apply in_cons, in_or_app. right. left. reflexivity. }
    reflexivity.
Qed.

(** X16.  An order that is placed belongs to the authenticated user and is
    delivered to an address of the store that belongs to that user: the one
    the [address_id] of the request names. *)
Theorem order_belongs_to_user req w resp w' :
  createOrder E req w = (Ok resp, w') ->
  status resp = 200 ->
  exists o a,
    orders (store w') = orders (store w) ++ [o] /\
    o_userId o = u_id (req_user req) /\
    In a (addresses (store w)) /\
    o_addressId o = a_id a /\
    a_userId a = u_id (req_user req) /\
    pk_eq E (b_address_id (body req)) (a_id a) = true /\
    addresses (store w') = addresses (store w).
Proof.
  intros H Hst. apply createOrder_inv in H. destruct H as (resp0 & [= <-] & Hrun).
  destruct (order_run_placed E req w resp w' Hrun Hst)
    as (items & a & discount & pref & reads & _ & _ & _ & Haddr & _ & _ & _ & Hstore & _).
  exists (set_preference_id (preferenceId pref) (order_row E (store w) req a items discount)), a.
  split; [rewrite Hstore; apply order_placed_orders|].
  unfold find_address in Haddr. apply find_some in Haddr. destruct Haddr as [Hin Hmatch].
  apply andb_true_iff in Hmatch. destruct Hmatch as [Hid Huser]. apply Z.eqb_eq in Huser.
  split; [reflexivity|]. split; [exact Hin|]. split; [reflexivity|]. split; [exact Huser|].
  split; [exact Hid|].
  rewrite Hstore. unfold order_placed. cbn zeta. cbn [apply_write addresses].
  match goal with |- addresses (apply_writes (item_writes ?i items) ?d1) = _ =>
    destruct (apply_writes_items i items d1) as (_ & Ha & _); rewrite Ha end.
  reflexivity.
Qed.

Lemma order_placed_products d req a items discount pref :
  products (order_placed E d req a items discount pref)
  = map (fun p => decrement_stock (ordered_quantity (p_id p) items) p) (products d).
Proof.
  unfold order_placed. cbn zeta. cbn [apply_write products].
  rewrite products_apply_writes_items. reflexivity.
Qed.

(** X17.  When an order is placed, the stock of each product of the store
    is its stock before, less the quantities of the resolved items of that
    product if it tracks inventory; nothing else of a product changes. *)
Theorem stock_after_order req w resp w' :
  createOrder E req w = (Ok resp, w') ->
  status resp = 200 ->
  exists items,
    resolveItems_on E (store w) (b_items (body req)) = Ok items /\
    products (store w')
    = map (fun p => decrement_stock (ordered_quantity (p_id p) items) p)
          (products (store w)).
Proof.
  intros H Hst. apply createOrder_inv in H. destruct H as (resp0 & [= <-] & Hrun).
  destruct (order_run_placed E req w resp w' Hrun Hst)
    as (items & a & discount & pref & reads & _ & Hitems & _ & _ & _ & _ & _ & Hstore & _).
  exists items. split; [exact Hitems|]. rewrite Hstore.
  apply order_placed_products.
Qed.

(** X18.  When the products of the store have distinct keys and no two
    resolved items are of the same product, placing an order leaves no stock
    below zero: each product is left as it was, or tracks inventory and
    keeps a stock that is not negative.  (Two lines of the same product are
    each checked against the whole stock.) *)
Theorem stock_stays_non_negative req w resp w' items :
  createOrder E req w = (Ok resp, w') ->
  status resp = 200 ->
  resolveItems_on E (store w) (b_items (body req)) = Ok items ->
  NoDup (map p_id (products (store w))) ->
  NoDup (map (fun item => p_id (ri_product item)) items) ->
  Forall2 (fun before after =>
             after = before \/
             (p_stockManaged before = true /\
              (p_stockQuantity after <? of_Z 0)%num = false))
          (products (store w)) (products (store w')).
Proof.
  intros H Hst Hitems Hkeys Hdistinct.
  apply createOrder_inv in H. destruct H as (resp0 & [= <-] & Hrun).
  destruct (order_run_placed E req w resp w' Hrun Hst)
    as (items' & a & discount & pref & reads & _ & Hitems' & _ & _ & _ & _ & _ & Hstore & _).
  rewrite Hitems in Hitems'. injection Hitems' as <-.
  rewrite Hstore, order_placed_products. apply Forall2_map_self.
  apply Forall_forall. intros p Hp. apply list_elem_of_In in Hp.
  unfold ordered_quantity.
  destruct (filter_takes_stock (p_id p) items Hdistinct) as [->|(item & Hin & Ht & ->)].
  - left. apply decrement_stock_0.
  - right. cbn [map sum_num fold_right]. rewrite num_add_0_r.
    pose proof (resolved_item_facts E _ _ _ Hitems) as Hfacts.
    rewrite Forall_forall in Hfacts. apply list_elem_of_In, Hfacts in Hin.
    destruct Hin as (Hin & _ & Hstock & Hpos).
    unfold takes_stock in Ht. apply andb_true_iff in Ht. destruct Ht as [Hid Hm].
    apply Z.eqb_eq in Hid.
    assert (ri_product item = p) by (eapply NoDup_key_inj; eauto). subst p.
    split; [exact Hm|]. rewrite Hm in Hstock. cbn [andb] in Hstock.
    cbn [decrement_stock p_stockQuantity]. apply stock_left_not_negative; assumption.
Qed.

End MoreOfTheOrder.

Lemma find_map_same {A} (f : A -> bool) (g : A -> A) l :
  (forall x, f (g x) = f x) ->
  List.find f (map g l) = option_map g (List.find f l).
Proof.
  intros H. induction l as [|x l IH]; [reflexivity|].
  cbn [map List.find]. rewrite H. destruct (f x); [reflexivity|exact IH].
Qed.

Section OrdersCompose.

Context (E : Env).

(** Lookups in a store whose stocks were decremented find the same
    products, with their stock decremented. *)
Lemma found_product_after d d' (g : product -> product) item :
  (forall p, p_id (g p) = p_id p /\ p_sku (g p) = p_sku p) ->
  products d' = map g (products d) ->
  found_product E d' item = option_map g (found_product E d item).
Proof.
  intros Hg Hd. rewrite !found_product_eq, Hd.
  assert (Hpk : forall key, List.find (fun p => pk_eq E key (p_id p)) (map g (products d))
                            = option_map g (List.find (fun p => pk_eq E key (p_id p))
                                                      (products d))).
  { intros key. apply find_map_same. intros p. destruct (Hg p) as [-> _]. reflexivity. }
  assert (Hsku : forall key, List.find (fun p => sku_eq E key (p_sku p)) (map g (products d))
                             = option_map g (List.find (fun p => sku_eq E key (p_sku p))
                                                       (products d))).
  { intros key. apply find_map_same. intros p. destruct (Hg p) as [_ ->]. reflexivity. }
  destruct (truthy (l_productId item)); [apply Hpk|].
  destruct (truthy (l_id item)).
  - rewrite Hpk, Hsku. destruct (isFinite _); [|reflexivity].
    destruct (List.find _ (products d)); reflexivity.
  - destruct (truthy (l_sku item)); [apply Hsku|reflexivity].
Qed.

(** X19.  [createOrder] answers with status 200, 400 or 404, and with 404
    'Endereco invalido.' exactly when the required fields are there, the
    items resolve and the store has no address with the [address_id] of the
    request that belongs to the authenticated user. *)
Theorem address_not_found_iff req w :
  exists resp w',
    createOrder E req w = (Ok resp, w') /\
    (status resp = 200 \/ status resp = 400 \/ status resp = 404) /\
    (status resp = 404 <->
     ensureFields E (body req) required_fields = [] /\
     (exists items, resolveItems_on E (store w) (b_items (body req)) = Ok items) /\
     find_address E (store w) req = None) /\
    (status resp = 404 -> json resp = Error_json Endereco_invalido).
Proof.
  destruct (createOrder_run E req w) as (resp & w' & Hrun & Hpath).
  exists resp, w'. split; [exact Hrun|].
  inversion Hpath; subst; cbn [status json].
  all: split; [auto|]; split; [|first [discriminate|reflexivity]].
  all: split; [try discriminate|].
  all: try (intros (Hreq & (items' & Hitems) & Haddr); congruence).
  intros _. eauto.
Qed.

(** X20.  Orders compose through the stock: once an order is placed, a
    lookup finds the same product as before with its stock less the
    quantities ordered, so that a later line for more than is left of a
    product that tracks inventory is refused with 'Estoque insuficiente'. *)
Theorem stock_left_is_what_later_carts_see req w resp w' item :
  createOrder E req w = (Ok resp, w') ->
  status resp = 200 ->
  exists items,
    resolveItems_on E (store w) (b_items (body req)) = Ok items /\
    found_product E (store w') item
    = option_map (fun p => decrement_stock (ordered_quantity (p_id p) items) p)
                 (found_product E (store w) item) /\
    forall p,
      found_product E (store w) item = Some p ->
      p_active p = true ->
      p_stockManaged p = true ->
      (p_stockQuantity p - ordered_quantity (p_id p) items <? line_qty E item)%num = true ->
      line_refused E (store w') item (Estoque_insuficiente (p_name p)).
Proof.
  intros H Hst. apply createOrder_inv in H. destruct H as (resp0 & [= <-] & Hrun).
  destruct (order_run_placed E req w resp w' Hrun Hst)
    as (items & a & discount & pref & reads & _ & Hitems & _ & _ & _ & _ & _ & Hstore & _).
  exists items. split; [exact Hitems|].
  assert (Hfound : found_product E (store w') item
                   = option_map (fun p => decrement_stock (ordered_quantity (p_id p) items) p)
                                (found_product E (store w) item)).
  { apply found_product_after; [intros p; split; reflexivity|].
    rewrite Hstore. apply order_placed_products. }
  split; [exact Hfound|].
  intros p Hp Ha Hm Hlt. rewrite Hp in Hfound. cbn [option_map] in Hfound.
  exact (refused_stock E (store w') item _ Hfound Ha Hm Hlt).
Qed.

End OrdersCompose.

(** ** The allocation loop (lines 149 to 160) *)

Lemma visit_line_keeps rem line :
  title (snd (visit_line rem line)) = title line /\
  quantity (snd (visit_line rem line)) = quantity line /\
  currency_id (snd (visit_line rem line)) = currency_id line.
Proof.
  unfold visit_line. destruct (rem <=? of_Z 0)%num; [auto|].
  destruct (_ <=? of_Z 0)%num; cbn; auto.
Qed.

Lemma visit_lines_keeps rem lines :
  map title (snd (visit_lines rem lines)) = map title lines /\
  map quantity (snd (visit_lines rem lines)) = map quantity lines /\
  map currency_id (snd (visit_lines rem lines)) = map currency_id lines.
Proof.
  revert rem. induction lines as [|line rest IH]; intros rem; cbn [visit_lines]; [auto|].
  destruct (visit_line_keeps rem line) as (Ht & Hq & Hc).
  destruct (visit_line rem line) as [rem' line']. cbn [snd] in *.
  destruct (IH rem') as (Hts & Hqs & Hcs).
  destruct (visit_lines rem' rest) as [final rest']. cbn [snd map] in *.
  rewrite Ht, Hq, Hc, Hts, Hqs, Hcs. auto.
Qed.

(** X21.  Whatever the discount and the payment lines, the allocation
    changes unit prices only: it drops, adds or reorders no line, and leaves
    every title, quantity and currency as built. *)
Theorem allocation_keeps_lines (discount : num) (lines : list mp_item) :
  map title (apply_discount discount lines) = map title lines /\
  map quantity (apply_discount discount lines) = map quantity lines /\
  map currency_id (apply_discount discount lines) = map currency_id lines /\
  length (apply_discount discount lines) = length lines.
Proof.
  assert (H : map title (apply_discount discount lines) = map title lines /\
              map quantity (apply_discount discount lines) = map quantity lines /\
              map currency_id (apply_discount discount lines) = map currency_id lines).
  { unfold apply_discount. destruct (_ && _); [|auto].
    rewrite forEach_allocate_visit_lines. cbn [mpItems]. apply visit_lines_keeps. }
  destruct H as (Ht & Hq & Hc). repeat split; try assumption.
  rewrite <- (length_map title), Ht. apply length_map.
Qed.

Lemma allocate_cents_nothing_left rem lines :
  rem <= 0 -> allocate_cents rem lines = (rem, lines).
Proof.
  intros Hrem. induction lines as [|[[t c] q] rest IH]; [reflexivity|].
  cbn [allocate_cents]. unfold visit_cents.
  destruct (Z.leb_spec rem 0); [|lia]. rewrite IH. reflexivity.
Qed.

(** In whole cents the allocation is greedy: the lines are paid off one
    after the other until the discount runs out. *)
Lemma allocate_cents_greedy rem lines :
  0 <= rem ->
  Forall (fun '(_, c, q) => 0 <= c /\ 0 < q) lines ->
  exists n,
    Forall (fun l => cents_price l = 0) (take n (snd (allocate_cents rem lines))) /\
    drop (S n) (snd (allocate_cents rem lines)) = drop (S n) lines /\
    Forall2 (fun before after => 0 <= cents_price after <= cents_price before)
            lines (snd (allocate_cents rem lines)).
Proof.
  intros Hrem Hall. revert rem Hrem.
  induction Hall as [|[[t c] q] rest [Hc Hq] Hrest IH]; intros rem Hrem.
  - exists 0%nat. cbn. repeat split; constructor.
  - assert (Hsame : Forall2 (fun before after : mp_title * Z * Z =>
                               0 <= cents_price after <= cents_price before) rest rest).
    { clear IH. induction Hrest as [|[[t' c'] q'] r [Hc' Hq'] _ IHr]; constructor; auto.
      cbn. lia. }
    cbn [allocate_cents]. unfold visit_cents.
    destruct (Z.leb_spec rem 0) as [H0|H0].
    { rewrite allocate_cents_nothing_left by exact H0. exists 0%nat. cbn [snd take drop].
      split; [constructor|]. split; [reflexivity|]. constructor; [cbn; lia|exact Hsame]. }
    destruct (Z.leb_spec (c * q) 0) as [H1|H1].
    { assert (c = 0) by nia. subst c.
      destruct (IH rem Hrem) as (n & Hz & Hd & Hle).
      destruct (allocate_cents rem rest) as [final rest']. cbn [snd] in *.
      exists (S n). cbn [take drop]. split; [constructor; [reflexivity|exact Hz]|].
      split; [exact Hd|]. constructor; [cbn; lia|exact Hle]. }
    destruct (Z.le_gt_cases (c * q) rem) as [Hfull|Hpart].
    + rewrite Z.min_l by lia. replace (c * q - c * q) with 0 by lia.
      rewrite round_div_0 by exact Hq. cbn [Z.max].
      destruct (IH (rem - c * q) ltac:(lia)) as (n & Hz & Hd & Hle).
      destruct (allocate_cents (rem - c * q) rest) as [final rest']. cbn [snd] in *.
      exists (S n). cbn [take drop]. split; [constructor; [reflexivity|exact Hz]|].
      split; [exact Hd|]. constructor; [cbn; lia|exact Hle].
    + rewrite Z.min_r by lia. replace (rem - rem) with 0 by lia.
      rewrite allocate_cents_nothing_left by lia. exists 0%nat. cbn [snd take drop].
      split; [constructor|]. split; [reflexivity|].
      constructor; [|exact Hsame]. cbn.
      pose proof (round_div_nonneg (c * q - rem) q Hq ltac:(lia)).
      pose proof (round_div_le (c * q - rem) q c Hq ltac:(lia)). lia.
Qed.

(** A discount that covers all the lines leaves every line free. *)
Lemma allocate_cents_full rem lines :
  Forall (fun '(_, c, q) => 0 <= c /\ 0 < q) lines ->
  cents_total lines <= rem ->
  Forall (fun l => cents_price l = 0) (snd (allocate_cents rem lines)).
Proof.
  intros Hall. revert rem.
  induction Hall as [|[[t c] q] rest [Hc Hq] Hrest IH]; intros rem Htotal.
  - constructor.
  - cbn [cents_total fold_right] in Htotal. fold (cents_total rest) in Htotal.
    assert (Hnn : 0 <= cents_total rest).
    { clear IH Htotal. induction Hrest as [|[[t' c'] q'] r [Hc' Hq'] _ IHr]; cbn; [lia|].
      fold (cents_total r). nia. }
    assert (Hcq : 0 <= c * q) by nia.
    cbn [allocate_cents]. unfold visit_cents.
    destruct (Z.leb_spec rem 0) as [H0|H0].
    { assert (c = 0) by nia. subst c. specialize (IH rem ltac:(lia)).
      destruct (allocate_cents rem rest) as [final rest']. cbn [snd] in *.
      constructor; [reflexivity|exact IH]. }
    destruct (Z.leb_spec (c * q) 0) as [H1|H1].
    { assert (c = 0) by nia. subst c. specialize (IH rem ltac:(lia)).
      destruct (allocate_cents rem rest) as [final rest']. cbn [snd] in *.
      constructor; [reflexivity|exact IH]. }
    rewrite Z.min_l by lia. replace (c * q - c * q) with 0 by lia.
    rewrite round_div_0 by exact Hq. cbn [Z.max].
    specialize (IH (rem - c * q) ltac:(lia)).
    destruct (allocate_cents (rem - c * q) rest) as [final rest']. cbn [snd] in *.
    constructor; [reflexivity|exact IH].
Qed.

Lemma unit_price_cents_line l :
  unit_price (cents_line l) = (of_Z (cents_price l) / of_Z 100)%js.
Proof. destruct l as [[t c] q]. reflexivity. Qed.

Lemma Forall2_with_left {A B} (P : A -> Prop) (R : A -> B -> Prop) l k :
  Forall P l -> Forall2 R l k -> Forall2 (fun a b => P a /\ R a b) l k.
Proof.
  intros HP HR. induction HR as [|a b l k Hab _ IH]; [constructor|].
  inversion HP; subst. constructor; auto.
Qed.

Lemma Forall2_with_both {A B} (P : A -> Prop) (Q : B -> Prop) (R : A -> B -> Prop) l k :
  Forall P l -> Forall Q k -> Forall2 R l k ->
  Forall2 (fun a b => P a /\ Q b /\ R a b) l k.
Proof.
  intros HP HQ HR. induction HR as [|a b l k Hab _ IH]; [constructor|].
  inversion HP; subst. inversion HQ; subst. constructor; auto.
Qed.

Lemma cents_price_within (l : mp_title * Z * Z) :
  (let '(_, c, q) := l in 0 <= c /\ 0 < q /\ c * q <= max_cents) ->
  0 <= cents_price l <= max_cents.
Proof. destruct l as [[t c] q]. cbn. intros (Hc & Hq & Hcq). nia. Qed.

Lemma cents_lines_total_any cart sel s :
  cents_total (cents_lines cart sel s) = cart_subtotal cart + Z.max 0 s.
Proof.
  unfold cents_lines.
  induction cart as [|[[p c] q] rest IH].
  - cbn [map app]. destruct (Z.ltb_spec 0 s); cbn; lia.
  - cbn [map app cents_total cart_subtotal fold_right] in *.
    fold (cart_subtotal rest). rewrite <- Z.add_assoc, <- IH. reflexivity.
Qed.

(** X22.  On items priced in whole non-negative cents and bought in whole
    positive quantities, the subtotal plus the shipping cost and the
    discount not above [max_cents] ([2^50] cents), the allocation is greedy:
    the payment lines in build order are made free one after the other
    until the discount runs out, so that at most one line is left partly
    discounted, the lines before it cost nothing and the lines after it are
    as they were built; and no unit price is raised or made negative. *)
Theorem greedy_allocation
    (cart : list (product * Z * Z)) (sel : shipping_selection) (s d : Z) :
  Forall (fun '(_, c, q) => 0 <= c /\ 0 < q) cart ->
  0 <= s ->
  0 < d <= max_cents ->
  cart_subtotal cart + s <= max_cents ->
  let lines := build_mpItems (map whole_item cart) sel (of_Z s) in
  let paid := apply_discount (of_Z d) lines in
  exists n,
    Forall (fun line => unit_price line = of_Z 0) (take n paid) /\
    drop (S n) paid = drop (S n) lines /\
    Forall2 (fun before after =>
               (of_Z 0 <=? unit_price after)%num = true /\
               (unit_price after <=? unit_price before)%num = true)
            lines paid.
Proof.
  intros Hcart Hs Hd Hsum lines paid. unfold paid, lines.
  rewrite (apply_discount_cents cart sel s d Hcart Hs) by (unfold max_cents in *; lia).
  rewrite build_mpItems_cents.
  destruct (allocate_cents_greedy d (cents_lines cart sel s) ltac:(lia)
              (cents_lines_whole cart sel s Hcart Hs)) as (n & Hz & Hdrop & Hle).
  exists n. split; [|split].
  - rewrite firstn_map. apply Forall_map. eapply Forall_impl; [exact Hz|].
    intros l Hl. cbn beta in *. rewrite unit_price_cents_line, Hl. apply zero_cents.
  - rewrite !skipn_map, Hdrop. reflexivity.
  - apply Forall2_fmap.
    eapply Forall2_impl;
      [exact (Forall2_with_left _ _ _ _ (cents_lines_within cart sel s Hcart Hs Hsum) Hle)|].
    intros before after [Hin [H0 Hb]]. cbn beta.
    apply cents_price_within in Hin. unfold max_cents in Hin.
    rewrite !unit_price_cents_line. rewrite cents_le by lia.
    rewrite <- zero_cents at 1. rewrite cents_le by lia.
    split; apply Z.leb_le; lia.
Qed.

(** X23.  On such a cart, a discount that is not below the subtotal plus
    the shipping cost (and not above [max_cents]) makes every payment line
    free, and the grand total zero. *)
Theorem full_discount_zeroes_lines
    (cart : list (product * Z * Z)) (sel : shipping_selection) (s d : Z) :
  Forall (fun '(_, c, q) => 0 <= c /\ 0 < q) cart ->
  0 <= s ->
  0 < d <= max_cents ->
  cart_subtotal cart + s <= d ->
  Forall (fun line => unit_price line = of_Z 0)
         (apply_discount (of_Z d) (build_mpItems (map whole_item cart) sel (of_Z s))) /\
  total_of (subtotal_of (map whole_item cart)) (of_Z s) (of_Z d) = of_Z 0.
Proof.
  intros Hcart Hs Hd Hfull.
  pose proof (cart_subtotal_nonneg cart Hcart) as Hnn. unfold max_cents in *. split.
  - rewrite (apply_discount_cents cart sel s d Hcart Hs) by (unfold max_cents; lia).
    apply Forall_map.
    eapply Forall_impl;
      [apply (allocate_cents_full d _ (cents_lines_whole cart sel s Hcart Hs));
       rewrite cents_lines_total by exact Hs; exact Hfull|].
    intros l Hl. cbn beta in *. rewrite unit_price_cents_line, Hl. apply zero_cents.
  - rewrite subtotal_of_whole by (assumption || lia). rewrite total_of_whole by lia.
    f_equal. lia.
Qed.

(** X24.  When every item of a cart in whole cents is bought once, the
    subtotal plus the shipping cost and the discount not above [max_cents],
    the payment lines add up exactly to the grand total, whatever the
    discount. *)
Theorem single_units_add_up
    (cart : list (product * Z * Z)) (sel : shipping_selection) (s d : Z) :
  Forall (fun '(_, c, q) => 0 <= c /\ q = 1) cart ->
  0 <= s ->
  0 < d <= max_cents ->
  cart_subtotal cart + s <= max_cents ->
  lines_total (apply_discount (of_Z d) (build_mpItems (map whole_item cart) sel (of_Z s)))
  = total_of (subtotal_of (map whole_item cart)) (of_Z s) (of_Z d).
Proof.
  intros Hunits Hs Hd Hsum.
  assert (Hcart : Forall (fun '(_, c, q) => 0 <= c /\ 0 < q) cart).
  { eapply Forall_impl; [exact Hunits|]. intros [[p c] q]. lia. }
  assert (Hhalf : cart_half_quantities cart = 0).
  { clear Hcart Hsum. induction Hunits as [|[[p c] q] rest [_ ->] _ IH]; [reflexivity|].
    cbn [cart_half_quantities fold_right]. fold (cart_half_quantities rest). rewrite IH.
    reflexivity. }
  pose proof (cart_subtotal_nonneg cart Hcart) as Hnn0.
  rewrite allocated_lines_total by (assumption || unfold max_cents in *; lia).
  unfold max_cents in *.
  rewrite subtotal_of_whole by (assumption || lia). rewrite total_of_whole by lia. f_equal.
  pose proof (allocate_cents_total d (cents_lines cart sel s) ltac:(lia)
                (cents_lines_whole cart sel s Hcart Hs)) as (_ & Hnn & Hbound & _).
  rewrite cents_lines_total in Hnn, Hbound by exact Hs.
  rewrite cents_lines_half, Hhalf in Hbound. lia.
Qed.

(** X25.  Without a discount the payment lines are sent as built and, on a
    cart in whole cents within [max_cents], add up to the subtotal plus the
    shipping cost when that cost is positive, while the grand total is
    [max (0, subtotal + shipping)]: the two agree when the shipping cost is
    not negative, and a negative shipping cost, which the request is free
    to give, lowers the total without a payment line for it. *)
Theorem undiscounted_lines_add_up
    (cart : list (product * Z * Z)) (sel : shipping_selection) (s : Z) :
  Forall (fun '(_, c, q) => 0 <= c /\ 0 < q) cart ->
  cart_subtotal cart <= max_cents ->
  Z.abs s <= max_cents ->
  let lines := build_mpItems (map whole_item cart) sel (of_Z s) in
  apply_discount (of_Z 0) lines = lines /\
  lines_total lines = of_Z (cart_subtotal cart + Z.max 0 s) /\
  total_of (subtotal_of (map whole_item cart)) (of_Z s) (of_Z 0)
  = of_Z (Z.max 0 (cart_subtotal cart + s)).
Proof.
  intros Hcart Hsum Hs lines. split; [reflexivity|].
  pose proof (cart_subtotal_nonneg cart Hcart) as Hnn. split.
  - unfold lines. rewrite build_mpItems_cents, lines_total_cents.
    + rewrite cents_lines_total_any. reflexivity.
    + apply cents_lines_range; [apply cart_in_range; assumption|lia].
    + rewrite cents_lines_total_any. unfold max_cents in *. lia.
  - unfold max_cents in *.
    rewrite subtotal_of_whole by (assumption || lia). rewrite total_of_whole by lia.
    f_equal. lia.
Qed.

Lemma round_div_mono n n' q : 0 < q -> n <= n' -> round_div n q <= round_div n' q.
Proof. intros Hq Hn. unfold round_div. apply Z.div_le_mono; lia. Qed.

(** A larger discount leaves no line dearer, and no less of it unspent. *)
Lemma allocate_cents_mono rem rem' lines :
  0 <= rem <= rem' ->
  Forall (fun '(_, c, q) => 0 <= c /\ 0 < q) lines ->
  fst (allocate_cents rem lines) <= fst (allocate_cents rem' lines) /\
  Forall2 (fun small large => cents_price large <= cents_price small)
          (snd (allocate_cents rem lines)) (snd (allocate_cents rem' lines)).
Proof.
  intros Hrem Hall. revert rem rem' Hrem.
  induction Hall as [|[[t c] q] rest [Hc Hq] Hrest IH]; intros rem rem' Hrem.
  - cbn. split; [lia|constructor].
  - cbn [allocate_cents]. unfold visit_cents.
    assert (Hcq : 0 <= c * q) by nia.
    set (n := c * q) in *.
    assert (Hstep :
      exists r1 r1' c1 c1',
        (if rem <=? 0 then (rem, c)
         else if n <=? 0 then (rem, c)
              else (rem - Z.min n rem, Z.max 0 (round_div (n - Z.min n rem) q)))
        = (r1, c1) /\
        (if rem' <=? 0 then (rem', c)
         else if n <=? 0 then (rem', c)
              else (rem' - Z.min n rem', Z.max 0 (round_div (n - Z.min n rem') q)))
        = (r1', c1') /\
        0 <= r1 <= r1' /\ c1' <= c1).
    { destruct (Z.leb_spec rem 0) as [H0|H0], (Z.leb_spec rem' 0) as [H0'|H0'];
        try lia.
      - do 4 eexists. split; [reflexivity|]. split; [reflexivity|]. lia.
      - destruct (Z.leb_spec n 0) as [H1|H1].
        + do 4 eexists. split; [reflexivity|]. split; [reflexivity|]. lia.
        + do 4 eexists. split; [reflexivity|]. split; [reflexivity|].
          pose proof (round_div_le (n - Z.min n rem') q c Hq ltac:(unfold n in *; lia)).
          lia.
      - destruct (Z.leb_spec n 0) as [H1|H1].
        + do 4 eexists. split; [reflexivity|]. split; [reflexivity|]. lia.
        + do 4 eexists. split; [reflexivity|]. split; [reflexivity|].
          pose proof (round_div_mono (n - Z.min n rem') (n - Z.min n rem) q Hq ltac:(lia)).
          lia. }
    destruct Hstep as (r1 & r1' & c1 & c1' & -> & -> & Hr & Hc1).
    destruct (IH r1 r1' Hr) as [Hfst Hsnd].
    destruct (allocate_cents r1 rest) as [final rest1].
    destruct (allocate_cents r1' rest) as [final' rest1'].
    cbn [fst snd] in *. split; [exact Hfst|]. constructor; [exact Hc1|exact Hsnd].
Qed.

(** X26.  On a cart in whole cents, the subtotal plus the shipping cost
    and the discounts not above [max_cents], a larger discount never leaves
    a payment line with a higher unit price than a smaller discount does. *)
Theorem larger_discount_never_raises_prices
    (cart : list (product * Z * Z)) (sel : shipping_selection) (s d d' : Z) :
  Forall (fun '(_, c, q) => 0 <= c /\ 0 < q) cart ->
  0 <= s ->
  0 < d ->
  d <= d' ->
  d' <= max_cents ->
  cart_subtotal cart + s <= max_cents ->
  let lines := build_mpItems (map whole_item cart) sel (of_Z s) in
  Forall2 (fun small large => (unit_price large <=? unit_price small)%num = true)
          (apply_discount (of_Z d) lines) (apply_discount (of_Z d') lines).
Proof.
  intros Hcart Hs Hd Hdd Hd' Hsum lines. unfold lines.
  rewrite (apply_discount_cents cart sel s d Hcart Hs) by (unfold max_cents in *; lia).
  rewrite (apply_discount_cents cart sel s d' Hcart Hs) by (unfold max_cents in *; lia).
  apply Forall2_fmap.
  destruct (allocate_cents_mono d d' (cents_lines cart sel s) ltac:(lia)
              (cents_lines_whole cart sel s Hcart Hs)) as [_ H].
  pose proof (cents_lines_within cart sel s Hcart Hs Hsum) as Hin.
  destruct (allocate_cents_range d (cents_lines cart sel s) ltac:(lia) Hin) as [Hsmall _].
  destruct (allocate_cents_range d' (cents_lines cart sel s) ltac:(lia) Hin) as [Hlarge _].
  eapply Forall2_impl; [exact (Forall2_with_both _ _ _ _ _ Hsmall Hlarge H)|].
  intros small large [Hs1 [Hl1 Hle]]. cbn beta in *.
  apply cents_price_within in Hs1, Hl1. unfold max_cents in *.
  rewrite !unit_price_cents_line, cents_le by lia. apply Z.leb_le. exact Hle.
Qed.

(** ** The CORS policy *)

Lemma string_prefix_app (a b : string) : String.prefix a (a ++ b) = true.
Proof.
  induction a as [|c a IH]; simpl.
  - destruct b; reflexivity.
  - destruct (Ascii.ascii_dec c c); [exact IH|congruence].
Qed.

Lemma is_suffix_app (a b : string) : is_suffix b (a ++ b) = true.
Proof.
  induction a as [|c a IH].
  - change (EmptyString ++ b)%string with b.
    destruct b; cbn [is_suffix]; rewrite String.eqb_refl; reflexivity.
  - change (String c a ++ b)%string with (String c (a ++ b)). cbn [is_suffix].
    rewrite IH. apply orb_true_r.
Qed.

Lemma string_length_append (a b : string) :
  String.length (a ++ b) = (String.length a + String.length b)%nat.
Proof. induction a as [|c a IH]; simpl; [reflexivity|]. rewrite IH. reflexivity. Qed.

Lemma includes_In (l : list string) (s : string) :
  App.includes l (JStr s) = true <-> In s l.
Proof.
  cbn. rewrite existsb_exists. split.
  - intros (x & Hin & Heq). apply String.eqb_eq in Heq. subst. exact Hin.
  - intros Hin. exists s. split; [exact Hin|apply String.eqb_refl].
Qed.

(** X27.  A request is let through exactly when it carries no origin (or
    an empty one) or its origin is, character for character, one of the six
    allowed; any other origin is refused with 'Not allowed by CORS'.  In
    particular an origin that extends an allowed one, before or after it, is
    refused. *)
Theorem cors_origin_is_exact :
  (forall origin,
     App.cors_origin origin = Ok true <->
     truthy origin = false \/ exists s, origin = JStr s /\ In s App.allowedOrigins) /\
  (forall origin,
     App.cors_origin origin = Ok true \/
     App.cors_origin origin = Throw (Thrown "Not allowed by CORS")) /\
  (forall s more,
     In s App.allowedOrigins -> more <> EmptyString ->
     App.cors_origin (JStr (s ++ more)) = Throw (Thrown "Not allowed by CORS") /\
     App.cors_origin (JStr (more ++ s)) = Throw (Thrown "Not allowed by CORS")).
Proof.
  split; [|split].
  - intros origin. unfold App.cors_origin.
    destruct (truthy origin) eqn:Ht; cbn [negb orb].
    + destruct (App.includes App.allowedOrigins origin) eqn:Hi.
      * split; [|reflexivity]. intros _. right.
        destruct origin as [| |b|n|s]; try discriminate.
        exists s. split; [reflexivity|]. apply includes_In. exact Hi.
      * split; [discriminate|]. intros [H|(s & -> & Hin)]; [discriminate|].
        apply includes_In in Hin. congruence.
    + split; auto.
  - intros origin. unfold App.cors_origin. destruct (_ || _); auto.
  - intros s more Hin Hmore.
    assert (Hmore' : (0 < String.length more)%nat) by (destruct more; [congruence|cbn; lia]).
    unfold App.cors_origin.
    assert (H1 : truthy (JStr (s ++ more)) = true).
    { cbn. apply negb_true_iff, bool_decide_eq_false_2. intros H.
      apply (f_equal String.length) in H. rewrite string_length_append in H. cbn in H. lia. }
    assert (H2 : truthy (JStr (more ++ s)) = true).
    { cbn. apply negb_true_iff, bool_decide_eq_false_2. intros H.
      apply (f_equal String.length) in H. rewrite string_length_append in H. cbn in H. lia. }
    rewrite H1, H2. cbn [negb orb].
    assert (Hp : forall t, In t App.allowedOrigins -> String.prefix s t = true -> t = s).
    { intros t Ht. cbn in Hin, Ht.
      repeat (destruct Hin as [<-|Hin];
              [repeat (destruct Ht as [<-|Ht];
                       [vm_compute; (reflexivity || discriminate)|]); destruct Ht|]).
      destruct Hin. }
    assert (Hs : forall t, In t App.allowedOrigins -> is_suffix s t = true -> t = s).
    { intros t Ht. cbn in Hin, Ht.
      repeat (destruct Hin as [<-|Hin];
              [repeat (destruct Ht as [<-|Ht];
                       [vm_compute; (reflexivity || discriminate)|]); destruct Ht|]).
      destruct Hin. }
    split.
    + destruct (App.includes App.allowedOrigins (JStr (s ++ more))) eqn:Hi; [|reflexivity].
      apply includes_In in Hi. specialize (Hp _ Hi (string_prefix_app s more)).
      apply (f_equal String.length) in Hp. rewrite string_length_append in Hp. lia.
    + destruct (App.includes App.allowedOrigins (JStr (more ++ s))) eqn:Hi; [|reflexivity].
      apply includes_In in Hi. specialize (Hs _ Hi (is_suffix_app more s)).
      apply (f_equal String.length) in Hs. rewrite string_length_append in Hs. lia.
Qed.

(** ** The further properties on the sample shop *)

(** Two units of A resolve to the product A of the store, active and in
    stock. *)
Lemma resolved_items_are_available_witness :
  exists items,
    resolveItems_on Sample.shop Sample.shop_db
      (ItemsArray [Sample.line "A" (JNum (of_Z 2)) JUndefined]) = Ok items /\
    map ri_product items = [Sample.product_A] /\
    Forall (fun item =>
              In (ri_product item) (products Sample.shop_db) /\
              p_active (ri_product item) = true /\
              (p_stockManaged (ri_product item) = true ->
               (p_stockQuantity (ri_product item) <? qty item)%num = false))
           items.
Proof.
  destruct (resolveItems_on Sample.shop Sample.shop_db
              (ItemsArray [Sample.line "A" (JNum (of_Z 2)) JUndefined]))
    as [items|e] eqn:Hitems; [|vm_compute in Hitems; discriminate].
  exists items. split; [reflexivity|]. split.
  - vm_compute in Hitems. injection Hitems as <-. reflexivity.
  - exact (resolved_items_are_available Sample.shop Sample.shop_db _ items Hitems).
Defined.

(** A line that supplies the price 0 is resolved at 0, a line that supplies
    none at the catalog price of 1000 cents, a line that supplies 250 at
    250. *)
Lemma price_is_override_or_catalog_witness :
  let lines := [Sample.line "A" (JNum (of_Z 2)) (JNum (of_Z 0));
                Sample.line "A" (JNum (of_Z 1)) JUndefined;
                Sample.line "A" (JNum (of_Z 1)) (JNum (of_Z 250))] in
  exists items,
    resolveItems_on Sample.shop Sample.shop_db (ItemsArray lines) = Ok items /\
    map unit_price_cents items = [of_Z 0; of_Z 1000; of_Z 250] /\
    Forall2 (fun line item =>
               unit_price_cents item =
               match l_price_cents line with
               | JUndefined | JNull => p_priceCents (ri_product item)
               | supplied => Number Sample.shop supplied
               end)
            (List.filter (usable Sample.shop) lines) items.
Proof.
  cbn zeta.
  destruct (resolveItems_on Sample.shop Sample.shop_db
              (ItemsArray [Sample.line "A" (JNum (of_Z 2)) (JNum (of_Z 0));
                           Sample.line "A" (JNum (of_Z 1)) JUndefined;
                           Sample.line "A" (JNum (of_Z 1)) (JNum (of_Z 250))]))
    as [items|e] eqn:Hitems; [|vm_compute in Hitems; discriminate].
  exists items. split; [reflexivity|]. split.
  - vm_compute in Hitems. injection Hitems as <-. compute_done.
  - exact (price_is_override_or_catalog Sample.shop Sample.shop_db _ items Hitems).
Defined.


(** The [id] "1" is the key of the product A: one call, by key; the [id]
    "A" is no number: one call, by code. *)
Lemma id_is_key_then_sku_witness :
  lookup_product Sample.shop
    (Sample.named_line JUndefined (JStr "1") JUndefined) Sample.shop_open
  = (Ok (Some Sample.product_A),
     logged [Product_findByPk (JNum (of_Z 1))] Sample.shop_open) /\
  lookup_product Sample.shop
    (Sample.named_line JUndefined (JStr "A") JUndefined) Sample.shop_open
  = (Ok (Some Sample.product_A),
     logged [Product_findOne_sku (JStr "A")] Sample.shop_open).
Proof.
  split.
  - rewrite (id_is_key_then_sku Sample.shop
               (Sample.named_line JUndefined (JStr "1") JUndefined) Sample.shop_open
               eq_refl eq_refl).
    compute_done.
  - compute_done.
Defined.

(** A quote asked for with a cart but no destination in the body is the
    quote of the query string: three units of A. *)
Lemma quote_ignores_incomplete_body_witness :
  let q := Sample.query_for (Some "A") (Some "3") (Some "01310-100") in
  let posted := Sample.get_quote q
                  (ItemsArray [Sample.line "B" (JNum (of_Z 5)) JUndefined]) in
  let bare := Sample.get_quote q (NotArray JUndefined) in
  quote Sample.shop posted Sample.shop_open = quote Sample.shop bare Sample.shop_open /\
  fst (quote Sample.shop posted Sample.shop_open)
  = Ok {| status := 200; json := Quote_json tt |}.
Proof.
  cbn zeta. split; [|compute_done].
  apply (quote_ignores_incomplete_body Sample.shop); reflexivity.
Defined.

(** No postal code in the query string: 400 'Dados incompletos.', and no
    call. *)
Lemma quote_without_postal_code_witness :
  let req := Sample.get_quote (Sample.query_for (Some "A") None (Some "n/a"))
                                  (NotArray JUndefined) in
  quote Sample.shop req Sample.shop_open
  = (Ok {| status := 400; json := Error_json Dados_incompletos |}, Sample.shop_open).
Proof.
  cbn zeta.
  apply (quote_without_postal_code Sample.shop
           (Sample.get_quote (Sample.query_for (Some "A") None (Some "n/a"))
                                 (NotArray JUndefined))
           Sample.shop_open eq_refl).
  reflexivity.
Defined.

(** [GET /quote?sku=A&qty=0&cep=01310-100]: one unit of A at the catalog
    price. *)
Lemma quote_from_query_is_one_catalog_line_witness :
  let req := Sample.get_quote
               (Sample.query_for (Some "A") (Some "0") (Some "01310-100"))
               (NotArray JUndefined) in
  log (snd (quote Sample.shop req Sample.shop_open))
  = [Product_findOne_sku (JStr "A");
     Shipping_quote {| destinationCep := "01310100";
                       qr_items := [{| qi_productId := 1; qi_qty := of_Z 1;
                                       qi_price_cents := of_Z 1000 |}] |}] /\
  exists resp calls,
    quote Sample.shop req Sample.shop_open = (Ok resp, logged calls Sample.shop_open) /\
    forall rq,
      In (Shipping_quote rq) calls ->
      exists p,
        In p (products Sample.shop_db) /\
        sku_eq Sample.shop (JStr "A") (p_sku p) = true /\
        qr_items rq = [{| qi_productId := p_id p; qi_qty := of_Z 1;
                          qi_price_cents := p_priceCents p |}].
Proof.
  cbn zeta. split; [compute_done|].
  exact (quote_from_query_is_one_catalog_line Sample.shop
           (Sample.get_quote
              (Sample.query_for (Some "A") (Some "0") (Some "01310-100"))
              (NotArray JUndefined))
           Sample.shop_open eq_refl).
Defined.

(** Two units of A without a coupon code: the order carries no discount and
    the coupon service is not called. *)
Lemma no_coupon_code_no_discount_witness :
  let req := Sample.order_request [Sample.line "A" (JNum (of_Z 2)) JUndefined]
                                  7 500 JUndefined in
  exists resp w' calls,
    createOrder Sample.shop req Sample.shop_open = (Ok resp, w') /\
    status resp = 200 /\
    log w' = calls /\
    Forall (fun e => is_coupon_call e = false) calls /\
    map discountCents (orders (store w')) = [of_Z 0] /\
    map totalCents (orders (store w')) = [of_Z 2500].
Proof.
  cbn zeta.
  destruct (no_coupon_code_no_discount Sample.shop
              (Sample.order_request [Sample.line "A" (JNum (of_Z 2)) JUndefined]
                                    7 500 JUndefined)
              Sample.shop_open eq_refl)
    as (resp & w' & calls & Hrun & Hlog & Hnone & _).
  exists resp, w', calls. split; [exact Hrun|].
  assert (Hrun' : createOrder Sample.shop
                    (Sample.order_request [Sample.line "A" (JNum (of_Z 2)) JUndefined]
                                          7 500 JUndefined)
                    Sample.shop_open
                  = (Ok resp, w')) by exact Hrun.
  vm_compute in Hrun'. injection Hrun' as <- <-.
  split; [reflexivity|]. split; [exact Hlog|]. split; [exact Hnone|].
  split; compute_done.
Defined.

(** The order of the scenario belongs to the customer 42 and goes to the
    address 7, which is theirs. *)
Lemma order_belongs_to_user_witness :
  let run := createOrder Sample.shop Sample.scenario Sample.shop_open in
  exists o a,
    orders (store (snd run)) = [o] /\
    o_userId o = 42 /\ o_addressId o = 7 /\
    In a (addresses Sample.shop_db) /\ a_id a = 7 /\ a_userId a = 42.
Proof.
  cbn zeta.
  destruct (order_belongs_to_user Sample.shop Sample.scenario Sample.shop_open
              {| status := 200;
                 json := Order_json 1 (JStr "pref-1") (JStr "https://pay.example/pref-1") |}
              (snd (createOrder Sample.shop Sample.scenario Sample.shop_open)))
    as (o & a & Horders & Huser & Hin & Haddr & Hown & Hid & _).
  - compute_done.
  - reflexivity.
  - exists o, a. split; [exact Horders|]. split; [exact Huser|].
    assert (Ha : a_id a = 7).
    { cbn in Hin. destruct Hin as [<-|[<-|[]]]; [reflexivity|vm_compute in Hown; discriminate]. }
    rewrite Haddr. auto.
Defined.

(** The scenario takes two units off the stock of A (150), and leaves the
    product B alone. *)
Lemma stock_after_order_witness :
  let run := createOrder Sample.shop Sample.scenario Sample.shop_open in
  map p_stockQuantity (products (store (snd run))) = [of_Z 148; of_Z 0].
Proof.
  cbn zeta.
  destruct (stock_after_order Sample.shop Sample.scenario Sample.shop_open
              {| status := 200;
                 json := Order_json 1 (JStr "pref-1") (JStr "https://pay.example/pref-1") |}
              (snd (createOrder Sample.shop Sample.scenario Sample.shop_open)))
    as (items & Hitems & Hproducts).
  - compute_done.
  - reflexivity.
  - rewrite Hproducts. vm_compute in Hitems. injection Hitems as <-. compute_done.
Defined.

(** In the scenario no stock is left below zero. *)
Lemma stock_stays_non_negative_witness :
  let run := createOrder Sample.shop Sample.scenario Sample.shop_open in
  Forall2 (fun before after =>
             after = before \/
             (p_stockManaged before = true /\
              (p_stockQuantity after <? of_Z 0)%num = false))
          (products Sample.shop_db) (products (store (snd run))).
Proof.
  cbn zeta.
  apply (stock_stays_non_negative Sample.shop Sample.scenario Sample.shop_open
           {| status := 200;
              json := Order_json 1 (JStr "pref-1") (JStr "https://pay.example/pref-1") |}
           (snd (createOrder Sample.shop Sample.scenario Sample.shop_open))
           [{| ri_product := Sample.product_A; qty := of_Z 2;
               unit_price_cents := of_Z 1000 |}]).
  - compute_done.
  - reflexivity.
  - compute_done.
  - compute_done.
  - compute_done.
Defined.

(** Two lines of a hundred units of A, of which the store has 150: each
    line passes the stock check, the order is placed, and the stock is left
    at minus fifty. *)
Example two_lines_of_one_product_oversell :
  let req := Sample.order_request [Sample.line "A" (JNum (of_Z 100)) JUndefined;
                                   Sample.line "A" (JNum (of_Z 100)) JUndefined]
                                  7 500 JUndefined in
  let run := createOrder Sample.shop req Sample.shop_open in
  fst run = Ok {| status := 200;
                  json := Order_json 1 (JStr "pref-1") (JStr "https://pay.example/pref-1") |} /\
  map p_stockQuantity (products (store (snd run))) = [of_Z (-50); of_Z 0].
Proof. cbn zeta. split; compute_done. Qed.

(** Two units at 10.00, one at 5.00 and a shipping cost of 5.00 with a
    discount of 22.00: the first line is free, the second is left at 3.00,
    the shipping line is as built. *)
Lemma greedy_allocation_witness :
  let cart := [(Sample.product_A, 1000, 2); (Sample.product_A, 500, 1)] in
  let lines := build_mpItems (map whole_item cart) Sample.no_shipping (of_Z 500) in
  let paid := apply_discount (of_Z 2200) lines in
  map unit_price paid = [of_Z 0; of_Z 3; of_Z 5] /\
  exists n,
    Forall (fun line => unit_price line = of_Z 0) (take n paid) /\
    drop (S n) paid = drop (S n) lines /\
    Forall2 (fun before after =>
               (of_Z 0 <=? unit_price after)%num = true /\
               (unit_price after <=? unit_price before)%num = true)
            lines paid.
Proof.
  cbn zeta. split; [compute_done|].
  apply (greedy_allocation [(Sample.product_A, 1000, 2); (Sample.product_A, 500, 1)]
           Sample.no_shipping 500 2200).
  - repeat constructor; lia.
  - lia.
  - unfold max_cents. lia.
  - unfold max_cents. cbn. lia.
Defined.

(** The same cart with a discount of 50.00, more than the 30.00 it comes
    to: every line is free and the total is zero. *)
Lemma full_discount_zeroes_lines_witness :
  let cart := [(Sample.product_A, 1000, 2); (Sample.product_A, 500, 1)] in
  Forall (fun line => unit_price line = of_Z 0)
         (apply_discount (of_Z 5000)
            (build_mpItems (map whole_item cart) Sample.no_shipping (of_Z 500))) /\
  total_of (subtotal_of (map whole_item cart)) (of_Z 500) (of_Z 5000) = of_Z 0.
Proof.
  cbn zeta.
  apply (full_discount_zeroes_lines
           [(Sample.product_A, 1000, 2); (Sample.product_A, 500, 1)]
           Sample.no_shipping 500 5000).
  - repeat constructor; lia.
  - lia.
  - unfold max_cents. lia.
  - cbn. lia.
Defined.

(** One unit at 10.00 and one at 3.33 with a shipping cost of 5.00 and a
    discount of 7.00: the lines add up to the 11.33 of the total. *)
Lemma single_units_add_up_witness :
  let cart := [(Sample.product_A, 1000, 1); (Sample.product_A, 333, 1)] in
  let paid := apply_discount (of_Z 700)
                (build_mpItems (map whole_item cart) Sample.no_shipping (of_Z 500)) in
  lines_total paid = total_of (subtotal_of (map whole_item cart)) (of_Z 500) (of_Z 700) /\
  lines_total paid = of_Z 1133.
Proof.
  cbn zeta.
  pose proof (single_units_add_up
                [(Sample.product_A, 1000, 1); (Sample.product_A, 333, 1)]
                Sample.no_shipping 500 700) as H.
  split.
  - apply H; [repeat constructor; lia|lia|unfold max_cents; lia|unfold max_cents; cbn; lia].
  - compute_done.
Defined.

(** Two units at 10.00 and a shipping cost of minus 5.00: the one payment
    line adds up to 20.00, the total is 15.00. *)
Lemma undiscounted_lines_add_up_witness :
  let cart := [(Sample.product_A, 1000, 2)] in
  let lines := build_mpItems (map whole_item cart) Sample.no_shipping (of_Z (-500)) in
  apply_discount (of_Z 0) lines = lines /\
  lines_total lines = of_Z 2000 /\
  total_of (subtotal_of (map whole_item cart)) (of_Z (-500)) (of_Z 0) = of_Z 1500.
Proof.
  cbn zeta.
  apply (undiscounted_lines_add_up [(Sample.product_A, 1000, 2)] Sample.no_shipping (-500)).
  - repeat constructor; lia.
  - unfold max_cents. cbn. lia.
  - unfold max_cents. cbn. lia.
Defined.

(** An origin that extends an allowed one is refused; a request without an
    origin is let through. *)
Example cors_on_some_origins :
  App.cors_origin (JStr "https://psiloup.com.br") = Ok true /\
  App.cors_origin JUndefined = Ok true /\
  App.cors_origin (JStr "https://psiloup.com.br.example.org")
  = Throw (Thrown "Not allowed by CORS") /\
  App.cors_origin (JStr "http://psiloup.com.br") = Throw (Thrown "Not allowed by CORS").
Proof. repeat split; reflexivity. Qed.

(** An [address_id] that no address of the store has: 404. *)
Example unknown_address_is_not_found :
  fst (createOrder Sample.shop
         (Sample.order_request [Sample.line "A" (JNum (of_Z 2)) JUndefined] 5 500 JUndefined)
         Sample.shop_open)
  = Ok {| status := 404; json := Error_json Endereco_invalido |}.
Proof. compute_done. Qed.

(** After the scenario 148 units of A are left: a cart of 149, which the
    store would have accepted before, is refused. *)
Lemma stock_left_is_what_later_carts_see_witness :
  let run := createOrder Sample.shop Sample.scenario Sample.shop_open in
  let item := Sample.line "A" (JNum (of_Z 149)) JUndefined in
  (forall e, ~ line_refused Sample.shop Sample.shop_db item e) /\
  line_refused Sample.shop (store (snd run)) item (Estoque_insuficiente "Stack").
Proof.
  cbn zeta. split.
  - intros e H. inversion H as [Hf|p Hf Ha|p Hf Ha Hm Hs];
      vm_compute in Hf; try discriminate; injection Hf as <-;
      [vm_compute in Ha|vm_compute in Hs]; discriminate.
  - destruct (stock_left_is_what_later_carts_see Sample.shop Sample.scenario Sample.shop_open
                {| status := 200;
                   json := Order_json 1 (JStr "pref-1") (JStr "https://pay.example/pref-1") |}
                (snd (createOrder Sample.shop Sample.scenario Sample.shop_open))
                (Sample.line "A" (JNum (of_Z 149)) JUndefined))
      as (items & Hitems & _ & Hrefused).
    + compute_done.
    + reflexivity.
    + vm_compute in Hitems. injection Hitems as <-.
      apply (Hrefused Sample.product_A); compute_done.
Defined.

(** A postal code taken from the body is not shortened, and a destination
    without a digit is passed on as the empty postal code. *)
Example quote_body_cep_is_not_shortened :
  map (fun e => match e with
                | Shipping_quote rq => Some (destinationCep rq)
                | _ => None
                end)
      (log (snd (quote Sample.shop
                   (Sample.quote_request_for [Sample.line "A" (JNum (of_Z 1)) JUndefined]
                                             "01310-100-999")
                   Sample.shop_open))
       ++ log (snd (quote Sample.shop
                      (Sample.quote_request_for [Sample.line "A" (JNum (of_Z 1)) JUndefined]
                                                "n/a")
                      Sample.shop_open)))
  = [None; Some "01310100999"%string; None; Some EmptyString].
Proof. compute_done. Qed.

(** A discount of 3.00 leaves the lines at 8.50, 5.00 and 5.00; one of 22.00
    at 0, 3.00 and 5.00: none is dearer. *)
Lemma larger_discount_never_raises_prices_witness :
  let cart := [(Sample.product_A, 1000, 2); (Sample.product_A, 500, 1)] in
  let lines := build_mpItems (map whole_item cart) Sample.no_shipping (of_Z 500) in
  map unit_price (apply_discount (of_Z 300) lines) = [of_Q (850 # 100); of_Z 5; of_Z 5] /\
  map unit_price (apply_discount (of_Z 2200) lines) = [of_Z 0; of_Z 3; of_Z 5] /\
  Forall2 (fun small large => (unit_price large <=? unit_price small)%num = true)
          (apply_discount (of_Z 300) lines) (apply_discount (of_Z 2200) lines).
Proof.
  cbn zeta. split; [compute_done|]. split; [compute_done|].
  apply (larger_discount_never_raises_prices
           [(Sample.product_A, 1000, 2); (Sample.product_A, 500, 1)]
           Sample.no_shipping 500 300 2200).
  - repeat constructor; lia.
  - lia.
  - lia.
  - lia.
  - unfold max_cents. lia.
  - unfold max_cents. cbn. lia.
Defined.


